(** * rtapi_ring.c: the ring registry and its reference-counted lifecycle

    A shallow embedding of [src/rtapi/rtapi_ring.c]: the ring table
    [ring_array], the process-local [ring_addr_array], the two RTAPI
    mutexes the file touches, and the four entry points
    [_rtapi_ring_new], [_rtapi_ring_attach], [_rtapi_ring_refcount] and
    [_rtapi_ring_detach].

    The C functions are written in a small state monad that also collects
    the trace of what a call did (mutex operations, slot accesses, backend
    calls, messages), so that statements about lock discipline and about
    the order of the steps can be made on the trace. *)

From Stdlib Require Import ZArith List String Lia Bool.
From stdpp Require Import base list.
Import ListNotations.

Local Open Scope string_scope.
Local Open Scope list_scope.
Local Open Scope Z_scope.

(** ** Constants and build configuration *)

(** errno.h, with the values Linux gives them; the code returns them
    negated. *)
Definition ENOMEM : Z := 12.
Definition EINVAL : Z := 22.

(** The file is compiled in one of three ways: as kernel module
    ([BUILD_SYS_KBUILD], RTAPI), or for the user-DSO build either as RTAPI
    or as ULAPI.  [ring_addr_array] only exists under
    [BUILD_SYS_USER_DSO], so [BUILD_SYS_KBUILD] with [ULAPI] is not a
    configuration of this file. *)
Inductive build_config := KBUILD_RTAPI | USER_DSO_RTAPI | USER_DSO_ULAPI.

Definition BUILD_SYS_KBUILD (b : build_config) : bool :=
  match b with KBUILD_RTAPI => true | _ => false end.

Definition ULAPI (b : build_config) : bool :=
  match b with USER_DSO_ULAPI => true | _ => false end.

(** The macros and constants of rtapi_common.h and rtapi_ring.h that the
    file uses; their values are not part of the file and are kept as
    parameters. *)
Record rtapi_config := {
  RTAPI_MAX_RINGS : nat;
  RTAPI_MAX_MODULES : nat;
  RING_MAGIC : Z;
  RTAPI_RING_SHM_KEY : Z;
  OS_KEY : Z -> Z;
  rtapi_ring_memsize : Z -> Z -> Z -> Z;   (* flags, size, sp_size *)
  build : build_config
}.

(** A C [int] has 32 bits in two's complement.  [int_wrap z] is the value
    an [int] holds when the exact result of an operation is [z]: the
    result wraps around at [INT_MAX].  (ISO C leaves signed overflow
    undefined; the model takes the two's-complement result.) *)
Definition INT_MIN : Z := - 2 ^ 31.
Definition INT_MAX : Z := 2 ^ 31 - 1.

Definition int_wrap (z : Z) : Z := (z + 2 ^ 31) mod 2 ^ 32 - 2 ^ 31.

(** ** Data *)

(** [ring_data]: one entry of [ring_array].  [bitmap] is declared with
    [RTAPI_MAX_MODULES+1] bits and indexed by module id; it is kept as the
    integer whose binary digits are the bits. *)
Record ring_data := mk_ring_data {
  magic : Z;
  key : Z;
  owner : Z;
  shmem_id : Z;
  bitmap : Z;
  count : Z
}.

Definition zero_ring_data : ring_data := mk_ring_data 0 0 0 0 0 0.

Inductive field := Fmagic | Fkey | Fowner | Fshmem_id | Fbitmap | Fcount.

Definition get_field (f : field) (rd : ring_data) : Z :=
  match f with
  | Fmagic => magic rd
  | Fkey => key rd
  | Fowner => owner rd
  | Fshmem_id => shmem_id rd
  | Fbitmap => bitmap rd
  | Fcount => count rd
  end.

Definition set_field (f : field) (v : Z) (rd : ring_data) : ring_data :=
  match f with
  | Fmagic => mk_ring_data v (key rd) (owner rd) (shmem_id rd) (bitmap rd) (count rd)
  | Fkey => mk_ring_data (magic rd) v (owner rd) (shmem_id rd) (bitmap rd) (count rd)
  | Fowner => mk_ring_data (magic rd) (key rd) v (shmem_id rd) (bitmap rd) (count rd)
  | Fshmem_id => mk_ring_data (magic rd) (key rd) (owner rd) v (bitmap rd) (count rd)
  | Fbitmap => mk_ring_data (magic rd) (key rd) (owner rd) (shmem_id rd) v (count rd)
  | Fcount => mk_ring_data (magic rd) (key rd) (owner rd) (shmem_id rd) (bitmap rd) v
  end.

(** Modelled from the spec: [set_bit], [clear_bit] and [test_bit] come
    from rtapi_bitops.h, which is not part of the file; they are insert,
    remove and membership test of the bit-indexed attacher set.  The
    integer has a digit for every position; the C bitmap ends at
    [RTAPI_MAX_MODULES], and a module id beyond it would make the C code
    touch memory outside the bitmap. *)
Definition set_bit (nr : Z) (addr : Z) : Z := Z.lor addr (Z.shiftl 1 nr).
Definition clear_bit (nr : Z) (addr : Z) : Z := Z.ldiff addr (Z.shiftl 1 nr).
Definition test_bit (nr : Z) (addr : Z) : bool := Z.testbit addr nr.

(** The two locks of [rtapi_data] that appear in the file. *)
Inductive lock := RingMutex | RtapiMutex.

Definition lock_eqb (a b : lock) : bool :=
  match a, b with
  | RingMutex, RingMutex | RtapiMutex, RtapiMutex => true
  | _, _ => false
  end.

(** What a call does, in order. *)
Inductive event :=
| EvMutexGet (l : lock)
| EvMutexGive (l : lock)
| EvSlotRead (i : nat) (f : field)
| EvSlotWrite (i : nat) (f : field)
| EvShmemNew (k module_id size ret : Z)
| EvShmemGetptr (id ret : Z)
| EvShmemDelete (id own ret : Z)
| EvShmget (k : Z)
| EvHeaderInit (ptr flags size sp_size : Z)
| EvRingbufferInit (ptr : Z)
| EvMsg (s : string).

(** The shared-memory layer under the ring code ([_rtapi_shmem_new],
    [_rtapi_shmem_getptr], [_rtapi_shmem_delete] and the [shmget] probe)
    is outside the file: any state type [B] with these four operations.
    [_rtapi_shmem_getptr] yields its return value and the pointer it
    stores on success; [shmget_absent] is the test
    [(shmget(key, 1, 0) == -1) && (errno == ENOENT)]. *)
Record Backend (B : Type) := {
  _rtapi_shmem_new : Z -> Z -> Z -> B -> Z * B;
  _rtapi_shmem_getptr : Z -> B -> Z * Z * B;
  _rtapi_shmem_delete : Z -> Z -> B -> Z * B;
  shmget_absent : Z -> B -> bool
}.
Arguments _rtapi_shmem_new {B} _ _ _ _ _.
Arguments _rtapi_shmem_getptr {B} _ _ _.
Arguments _rtapi_shmem_delete {B} _ _ _ _.
Arguments shmget_absent {B} _ _ _.

(** The state the file works on: bit 0 of [rtapi_data->ring_mutex] and of
    [rtapi_data->mutex], the table, the local address cache (0 is NULL)
    and the state of the shared-memory layer. *)
Record rtapi_state (B : Type) := mk_state {
  ring_mutex : bool;
  mutex : bool;
  ring_array : list ring_data;
  ring_addr_array : list Z;
  shm : B
}.
Arguments mk_state {B} _ _ _ _ _.
Arguments ring_mutex {B} _.
Arguments mutex {B} _.
Arguments ring_array {B} _.
Arguments ring_addr_array {B} _.
Arguments shm {B} _.

(** ** The monad: state, trace, and blocking

    A computation either blocks for ever ([None]: [rtapi_mutex_get] on a
    mutex that is held, in a run with no other thread to release it) or
    returns a value, the new state and the events it produced. *)
Definition M (B A : Type) : Type :=
  rtapi_state B -> option (A * rtapi_state B * list event).

Definition ret {B A} (a : A) : M B A := fun s => Some (a, s, []).

Definition bind {B A C} (m : M B A) (f : A -> M B C) : M B C :=
  fun s =>
    match m s with
    | None => None
    | Some (a, s1, t1) =>
        match f a s1 with
        | None => None
        | Some (c, s2, t2) => Some (c, s2, t1 ++ t2)
        end
    end.

Notation "'let*' x ':=' m 'in' k" := (bind m (fun x => k))
  (at level 10, x name, m at level 100, k at level 200, only parsing).
Notation "'run' m 'then' k" := (bind m (fun _ => k))
  (at level 10, m at level 100, k at level 200, only parsing).

Section RtapiRing.

Context {B : Type}.
Variable cfg : rtapi_config.
Variable be : Backend B.

Abbreviation M := (M B).

(** *** Primitive steps *)

Definition held (l : lock) (s : rtapi_state B) : bool :=
  match l with RingMutex => ring_mutex s | RtapiMutex => mutex s end.

Definition set_lock (l : lock) (v : bool) (s : rtapi_state B) : rtapi_state B :=
  match l with
  | RingMutex => mk_state v (mutex s) (ring_array s) (ring_addr_array s) (shm s)
  | RtapiMutex => mk_state (ring_mutex s) v (ring_array s) (ring_addr_array s) (shm s)
  end.

(** Modelled from the spec: [rtapi_mutex_get] and [rtapi_mutex_give]
    come from rtapi_mutex.h, which is not part of the file.  Acquisition
    blocks with no timeout until the holder releases the lock; release
    clears the lock whoever holds it.  [ring_autorelease_mutex] reads the
    lock as bit 0 of the mutex word. *)
Definition rtapi_mutex_get (l : lock) : M unit :=
  fun s => if held l s then None else Some (tt, set_lock l true s, [EvMutexGet l]).

Definition rtapi_mutex_give (l : lock) : M unit :=
  fun s => Some (tt, set_lock l false s, [EvMutexGive l]).

Definition mutex_is_set (l : lock) : M bool :=
  fun s => Some (held l s, s, []).

Definition rtapi_print_msg (msg : string) : M unit :=
  fun s => Some (tt, s, [EvMsg msg]).

Definition slot (ra : list ring_data) (i : nat) : ring_data :=
  default zero_ring_data (ra !! i).

Definition slot_get (i : nat) (f : field) : M Z :=
  fun s => Some (get_field f (slot (ring_array s) i), s, [EvSlotRead i f]).

Definition slot_set (i : nat) (f : field) (v : Z) : M unit :=
  fun s =>
    Some (tt,
          mk_state (ring_mutex s) (mutex s)
                   (<[i := set_field f v (slot (ring_array s) i)]> (ring_array s))
                   (ring_addr_array s) (shm s),
          [EvSlotWrite i f]).

Definition addr_get (i : nat) : M Z :=
  fun s => Some (default 0 (ring_addr_array s !! i), s, []).

Definition addr_set (i : nat) (p : Z) : M unit :=
  fun s =>
    Some (tt,
          mk_state (ring_mutex s) (mutex s) (ring_array s)
                   (<[i := p]> (ring_addr_array s)) (shm s),
          []).

Definition with_shm (b : B) (s : rtapi_state B) : rtapi_state B :=
  mk_state (ring_mutex s) (mutex s) (ring_array s) (ring_addr_array s) b.

Definition shmem_new (k module_id size : Z) : M Z :=
  fun s =>
    let '(r, b) := _rtapi_shmem_new be k module_id size (shm s) in
    Some (r, with_shm b s, [EvShmemNew k module_id size r]).

Definition shmem_getptr (id : Z) : M (Z * Z) :=
  fun s =>
    let '(r, p, b) := _rtapi_shmem_getptr be id (shm s) in
    Some ((r, p), with_shm b s, [EvShmemGetptr id r]).

Definition shmem_delete (id own : Z) : M Z :=
  fun s =>
    let '(r, b) := _rtapi_shmem_delete be id own (shm s) in
    Some (r, with_shm b s, [EvShmemDelete id own r]).

Definition shmget_probe (k : Z) : M bool :=
  fun s => Some (shmget_absent be k (shm s), s, [EvShmget k]).

(** The ring header lives in the segment, not in the table; the two
    initialisers of rtapi_ring.h only leave an event. *)
Definition rtapi_ringheader_init (p flags size sp_size : Z) : M unit :=
  fun s => Some (tt, s, [EvHeaderInit p flags size sp_size]).

Definition rtapi_ringbufer_init (p : Z) : M unit :=
  fun s => Some (tt, s, [EvRingbufferInit p]).

(** [__attribute__((cleanup(f)))] on a local: [f] runs when the function
    returns, on every return statement. *)
Definition with_cleanup {A} (cleanup : M unit) (body : M A) : M A :=
  let* r := body in
  run cleanup then
  ret r.

(** *** ring_autorelease_mutex (lines 35-49), with [rtapi_data != NULL] *)
Definition ring_autorelease_mutex : M unit :=
  let* set := mutex_is_set RingMutex in
  run (if negb set
       then rtapi_print_msg "ring_autorelease_mutex: mutex not set!"
       else ret tt) then
  rtapi_mutex_give RingMutex.

(** Modelled from the spec: [rtapi_autorelease_mutex] is defined outside
    rtapi_ring.c.  It is the scoped guard of the lock that
    [_rtapi_ring_refcount] takes, [rtapi_data->mutex]: it gives that mutex
    back when the scope is left. *)
Definition rtapi_autorelease_mutex : M unit :=
  rtapi_mutex_give RtapiMutex.

(** *** _rtapi_ring_new (lines 51-112) *)

(** The loop of lines 61-64; [n] iterations are left, [i] is the loop
    variable. *)
Fixpoint find_free_slot (n : nat) (i : nat) : M nat :=
  match n with
  | O => ret i
  | S n' =>
      let* m := slot_get i Fmagic in
      if m =? RING_MAGIC cfg then find_free_slot n' (S i) else ret i
  end.

Definition _rtapi_ring_new (size sp_size module_id flags : Z) : M Z :=
  with_cleanup ring_autorelease_mutex (
    run rtapi_mutex_get RingMutex then
    let* i := find_free_slot (RTAPI_MAX_RINGS cfg) 0 in
    if (i =? RTAPI_MAX_RINGS cfg)%nat then
      run rtapi_print_msg "rtapi_ring_new failed due to RTAPI_MAX_RINGS exceeded" then
      ret (- ENOMEM)
    else
      let total_size := rtapi_ring_memsize cfg flags size sp_size in
      run slot_set i Fkey (RTAPI_RING_SHM_KEY cfg + Z.of_nat i) then
      run slot_set i Fowner module_id then
      let* k := slot_get i Fkey in
      let* id := shmem_new k module_id total_size in
      run slot_set i Fshmem_id id then
      if id <? 0 then
        run rtapi_print_msg "rtapi_ring_new: rtapi_shmem_new failed" then
        ret (- ENOMEM)
      else
        let* id' := slot_get i Fshmem_id in
        let* rp := shmem_getptr id' in
        if negb (fst rp =? 0) then
          run rtapi_print_msg "_rtapi_ring_new: rtapi_shmem_getptr failed" then
          ret (- ENOMEM)
        else
          let rhptr := snd rp in
          run (if ULAPI (build cfg) then addr_set i rhptr else ret tt) then
          run rtapi_ringheader_init rhptr flags size sp_size then
          let* bm := slot_get i Fbitmap in
          run slot_set i Fbitmap (set_bit module_id bm) then
          run slot_set i Fmagic (RING_MAGIC cfg) then
          ret (Z.of_nat i)).

(** *** _rtapi_ring_attach (lines 114-191)

    The [ringbuffer_t] that the caller passes is filled in from the ring
    header by [rtapi_ringbufer_init]; it is payload and not part of the
    table.  On the path of lines 153-182 the local [rhptr] is never
    assigned; the pointer handed to [rtapi_ringbufer_init] is kept as the
    unknown value [rhptr0].  [rdptr->count++] (line 182) increments an
    [int]. *)
Definition _rtapi_ring_attach (handle module_id : Z) (rhptr0 : Z) : M Z :=
  with_cleanup ring_autorelease_mutex (
    run rtapi_mutex_get RingMutex then
    if (handle <? 0) || (handle >=? Z.of_nat (RTAPI_MAX_RINGS cfg)) then
      ret (- EINVAL)
    else
      let h := Z.to_nat handle in
      let finish (rhptr : Z) : M Z :=
        let* bm := slot_get h Fbitmap in
        run slot_set h Fbitmap (set_bit module_id bm) then
        run rtapi_ringbufer_init rhptr then
        ret 0 in
      let* m := slot_get h Fmagic in
      if m =? RING_MAGIC cfg then
        if BUILD_SYS_KBUILD (build cfg) then
          let* id := slot_get h Fshmem_id in
          let* rp := shmem_getptr id in
          if negb (fst rp =? 0) then
            run rtapi_print_msg "_rtapi_ring_attach: rtapi_shmem_getptr failed" then
            ret (- ENOMEM)
          else finish (snd rp)
        else
          let* rhptr := addr_get h in
          if rhptr =? 0 then
            run rtapi_print_msg "_rtapi_ring_attach: BUG rhptr == NULL" then
            ret (- ENOMEM)
          else finish rhptr
      else
        if BUILD_SYS_KBUILD (build cfg) then
          run rtapi_print_msg "rtapi_ring_attach: invalid ring handle" then
          ret (- ENOMEM)
        else
          let k := OS_KEY cfg (RTAPI_RING_SHM_KEY cfg + handle) in
          let* absent := shmget_probe k in
          if absent then
            run rtapi_print_msg "rtapi_ring_attach: invalid ring handle" then
            ret (- EINVAL)
          else
            run slot_set h Fkey (RTAPI_RING_SHM_KEY cfg + handle) then
            let* k' := slot_get h Fkey in
            let* id := shmem_new k' module_id 0 in
            run slot_set h Fshmem_id id then
            if id <? 0 then
              run rtapi_print_msg "rtapi_ring_attach(): rtapi_shmem_new failed" then
              ret (- ENOMEM)
            else
              let* id' := slot_get h Fshmem_id in
              let* rp := shmem_getptr id' in
              if negb (fst rp =? 0) then
                run rtapi_print_msg "_rtapi_ring_attach: rtapi_shmem_getptr failed" then
                ret (- ENOMEM)
              else
                run addr_set h (snd rp) then
                run slot_set h Fmagic (RING_MAGIC cfg) then
                let* c := slot_get h Fcount in
                run slot_set h Fcount (int_wrap (c + 1)) then
                finish rhptr0).

(** *** _rtapi_ring_refcount (lines 197-214) *)

(** The loop of lines 210-212: [n] iterations are left, [i] is the loop
    variable, [cnt] the running count. *)
Fixpoint refcount_loop (h : nat) (n : nat) (i : Z) (cnt : Z) : M Z :=
  match n with
  | O => ret cnt
  | S n' =>
      let* bm := slot_get h Fbitmap in
      refcount_loop h n' (i + 1) (if test_bit i bm then cnt + 1 else cnt)
  end.

Definition _rtapi_ring_refcount (handle : Z) : M Z :=
  with_cleanup rtapi_autorelease_mutex (
    run rtapi_mutex_get RtapiMutex then
    if (handle <? 0) || (handle >=? Z.of_nat (RTAPI_MAX_RINGS cfg)) then
      ret (- EINVAL)
    else
      let h := Z.to_nat handle in
      let* m := slot_get h Fmagic in
      if negb (m =? RING_MAGIC cfg) then ret (- EINVAL)
      else refcount_loop h (RTAPI_MAX_RINGS cfg) 0 0).

(** *** _rtapi_ring_detach (lines 216-252) *)
Definition _rtapi_ring_detach (handle module_id : Z) : M Z :=
  with_cleanup ring_autorelease_mutex (
    if (handle <? 0) || (handle >=? Z.of_nat (RTAPI_MAX_RINGS cfg)) then
      ret (- EINVAL)
    else
      let h := Z.to_nat handle in
      let* m := slot_get h Fmagic in
      if negb (m =? RING_MAGIC cfg) then ret (- EINVAL)
      else
        let* bm := slot_get h Fbitmap in
        run slot_set h Fbitmap (clear_bit module_id bm) then
        let* cnt := _rtapi_ring_refcount handle in
        if negb (cnt =? 0) then
          run rtapi_print_msg "rtapi_ring_detach: remaining users" then
          ret 0
        else
          let* id := slot_get h Fshmem_id in
          let* own := slot_get h Fowner in
          let* r := shmem_delete id own in
          run (if negb (r =? 0)
               then rtapi_print_msg "_rtapi_ring_detach: rtapi_shmem_delete failed"
               else ret tt) then
          run slot_set h Fmagic 0 then
          ret 0).

End RtapiRing.

Arguments _rtapi_ring_new {B} cfg be size sp_size module_id flags _.
Arguments _rtapi_ring_attach {B} cfg be handle module_id rhptr0 _.
Arguments _rtapi_ring_refcount {B} cfg handle _.
Arguments _rtapi_ring_detach {B} cfg be handle module_id _.

(** ** Vocabulary of the properties *)

(** A slot is in use iff its tag is the magic constant. *)
Definition committed (cfg : rtapi_config) (rd : ring_data) : Prop :=
  magic rd = RING_MAGIC cfg.

(** Module [m] is in the attacher set of the slot. *)
Definition attached (m : Z) (rd : ring_data) : Prop :=
  test_bit m (bitmap rd) = true.

(** What the loop of [_rtapi_ring_refcount] computes: the number of set
    bits among the [n] positions from [i] on. *)
Fixpoint count_bits (n : nat) (i : Z) (bm : Z) : Z :=
  match n with
  | O => 0
  | S n' => (if test_bit i bm then 1 else 0) + count_bits n' (i + 1) bm
  end.

(** Cardinality of the attacher set: the number of module ids
    [0..RTAPI_MAX_MODULES], the positions the bitmap is declared with,
    whose bit is set. *)
Definition attachers_card (cfg : rtapi_config) (rd : ring_data) : Z :=
  count_bits (S (RTAPI_MAX_MODULES cfg)) 0 (bitmap rd).

(** The value [_rtapi_ring_refcount] returns on a table, and what it
    does on the way. *)
Definition refcount_value (cfg : rtapi_config) (handle : Z) (ra : list ring_data) : Z :=
  if (handle <? 0) || (handle >=? Z.of_nat (RTAPI_MAX_RINGS cfg)) then - EINVAL
  else if negb (magic (slot ra (Z.to_nat handle)) =? RING_MAGIC cfg) then - EINVAL
  else count_bits (RTAPI_MAX_RINGS cfg) 0 (bitmap (slot ra (Z.to_nat handle))).

Definition refcount_trace (cfg : rtapi_config) (handle : Z) (ra : list ring_data)
  : list event :=
  EvMutexGet RtapiMutex ::
  (if (handle <? 0) || (handle >=? Z.of_nat (RTAPI_MAX_RINGS cfg)) then []
   else EvSlotRead (Z.to_nat handle) Fmagic ::
        (if negb (magic (slot ra (Z.to_nat handle)) =? RING_MAGIC cfg) then []
         else repeat (EvSlotRead (Z.to_nat handle) Fbitmap) (RTAPI_MAX_RINGS cfg)))
  ++ [EvMutexGive RtapiMutex].

(** The index the scan of [_rtapi_ring_new] stops at, and what it reads. *)
Fixpoint first_free (cfg : rtapi_config) (n i : nat) (ra : list ring_data) : nat :=
  match n with
  | O => i
  | S n' =>
      if magic (slot ra i) =? RING_MAGIC cfg then first_free cfg n' (S i) ra else i
  end.

Fixpoint scan_trace (cfg : rtapi_config) (n i : nat) (ra : list ring_data) : list event :=
  match n with
  | O => []
  | S n' =>
      EvSlotRead i Fmagic ::
      (if magic (slot ra i) =? RING_MAGIC cfg then scan_trace cfg n' (S i) ra else [])
  end.

(** The table has its declared size. *)
Definition wf_state {B} (cfg : rtapi_config) (s : rtapi_state B) : Prop :=
  length (ring_array s) = RTAPI_MAX_RINGS cfg.

(** No call is in progress: both mutexes are free. *)
Definition quiescent {B} (s : rtapi_state B) : Prop :=
  ring_mutex s = false /\ mutex s = false.

Definition table_empty (cfg : rtapi_config) (ra : list ring_data) : Prop :=
  forall j, (j < RTAPI_MAX_RINGS cfg)%nat -> ~ committed cfg (slot ra j).

Definition table_full (cfg : rtapi_config) (ra : list ring_data) : Prop :=
  forall j, (j < RTAPI_MAX_RINGS cfg)%nat -> committed cfg (slot ra j).

(** *** Properties of a call's trace *)

Definition is_get (l : lock) (e : event) : bool :=
  match e with EvMutexGet l' => lock_eqb l l' | _ => false end.

Definition is_give (l : lock) (e : event) : bool :=
  match e with EvMutexGive l' => lock_eqb l l' | _ => false end.

Definition is_slot_access (e : event) : bool :=
  match e with EvSlotRead _ _ | EvSlotWrite _ _ => true | _ => false end.

Definition is_tag_write (e : event) : bool :=
  match e with EvSlotWrite _ Fmagic => true | _ => false end.

Definition no_lock_op (l : lock) (e : event) : bool :=
  negb (is_get l e) && negb (is_give l e).

(** The call takes lock [l] as its first step, gives it back as its last
    step, and does neither in between: the whole call, whatever its exit,
    runs inside one critical section of [l]. *)
Definition lock_scoped (l : lock) (t : list event) : bool :=
  match t with
  | [] => false
  | e :: t' =>
      is_get l e &&
      match rev t' with
      | [] => false
      | e' :: mid =>
          is_give l e' && forallb (no_lock_op l) mid
      end
  end.

(** The tag is written somewhere in the trace. *)
Definition writes_tag (t : list event) : bool := existsb is_tag_write t.

(** Once the tag has been written, all that follows is giving locks back. *)
Fixpoint commit_is_last (t : list event) : bool :=
  match t with
  | [] => true
  | e :: t' =>
      if is_tag_write e
      then forallb (fun x => match x with EvMutexGive _ => true | _ => false end) t'
      else commit_is_last t'
  end.

(** *** Classes of events *)

Definition is_shmem_new (e : event) : bool :=
  match e with EvShmemNew _ _ _ _ => true | _ => false end.

Definition is_shmem_getptr (e : event) : bool :=
  match e with EvShmemGetptr _ _ => true | _ => false end.

Definition is_shmem_delete (e : event) : bool :=
  match e with EvShmemDelete _ _ _ => true | _ => false end.

Definition is_backend_call (e : event) : bool :=
  match e with
  | EvShmemNew _ _ _ _ | EvShmemGetptr _ _ | EvShmemDelete _ _ _ | EvShmget _ => true
  | _ => false
  end.

Definition is_header_init (e : event) : bool :=
  match e with EvHeaderInit _ _ _ _ => true | _ => false end.

(** The complaint of [ring_autorelease_mutex] (line 41). *)
Definition mutex_not_set : event :=
  EvMsg "ring_autorelease_mutex: mutex not set!".

Definition is_mutex_not_set (e : event) : bool :=
  match e with
  | EvMsg s => String.eqb s "ring_autorelease_mutex: mutex not set!"
  | _ => false
  end.

(** How many events of a class a trace has. *)
Definition count_events (p : event -> bool) (t : list event) : nat :=
  length (List.filter p t).

(** No free slot has a bit set at a position the refcount loop counts. *)
Definition free_slots_uncounted (cfg : rtapi_config) (ra : list ring_data) : Prop :=
  forall j, (j < RTAPI_MAX_RINGS cfg)%nat ->
    ~ committed cfg (slot ra j) ->
    count_bits (RTAPI_MAX_RINGS cfg) 0 (bitmap (slot ra j)) = 0.

(** Every committed slot carries the key derived from its index. *)
Definition keys_derived (cfg : rtapi_config) (ra : list ring_data) : Prop :=
  forall j, (j < RTAPI_MAX_RINGS cfg)%nat ->
    committed cfg (slot ra j) ->
    key (slot ra j) = RTAPI_RING_SHM_KEY cfg + Z.of_nat j.

(** *** Sequences of calls *)

Record create_args := {
  ca_size : Z; ca_sp_size : Z; ca_module_id : Z; ca_flags : Z
}.

Definition create {B} (cfg : rtapi_config) (be : Backend B) (a : create_args) : M B Z :=
  _rtapi_ring_new cfg be (ca_size a) (ca_sp_size a) (ca_module_id a) (ca_flags a).

(** Successive Creates; the handles (or error codes) in call order. *)
Fixpoint create_many {B} (cfg : rtapi_config) (be : Backend B)
    (l : list create_args) : M B (list Z) :=
  match l with
  | [] => ret []
  | a :: l' =>
      let* r := create cfg be a in
      let* rs := create_many cfg be l' in
      ret (r :: rs)
  end.

(** [P] is a condition on the state of the shared-memory layer under
    which creating and then mapping a segment succeeds and which holds
    again afterwards. *)
Definition creation_succeeds {B} (be : Backend B) (P : B -> Prop) : Prop :=
  forall k m size b, P b ->
    let nb := _rtapi_shmem_new be k m size b in
    let gp := _rtapi_shmem_getptr be (fst nb) (snd nb) in
    0 <= fst nb /\ fst (fst gp) = 0 /\ P (snd gp).

Inductive call :=
| CallNew (size sp_size module_id flags : Z)
| CallAttach (handle module_id rhptr0 : Z)
| CallRefcount (handle : Z)
| CallDetach (handle module_id : Z).

Definition do_call {B} (cfg : rtapi_config) (be : Backend B) (c : call) : M B Z :=
  match c with
  | CallNew size sp_size m flags => _rtapi_ring_new cfg be size sp_size m flags
  | CallAttach h m p => _rtapi_ring_attach cfg be h m p
  | CallRefcount h => _rtapi_ring_refcount cfg h
  | CallDetach h m => _rtapi_ring_detach cfg be h m
  end.

(** The module id of the call is one of those the refcount loop looks at. *)
Definition module_counted (cfg : rtapi_config) (c : call) : Prop :=
  match c with
  | CallNew _ _ m _ | CallAttach _ m _ | CallDetach _ m =>
      0 <= m < Z.of_nat (RTAPI_MAX_RINGS cfg)
  | CallRefcount _ => True
  end.

(** States reached from an empty table by completed calls. *)
Inductive reachable {B} (cfg : rtapi_config) (be : Backend B) : rtapi_state B -> Prop :=
| reach_init s :
    quiescent s -> wf_state cfg s -> table_empty cfg (ring_array s) ->
    reachable cfg be s
| reach_call s c r s' t :
    reachable cfg be s ->
    module_counted cfg c ->
    do_call cfg be c s = Some (r, s', t) ->
    reachable cfg be s'.

(** States reached from an empty table by completed calls, whatever the
    module ids of the callers. *)
Inductive reached {B} (cfg : rtapi_config) (be : Backend B) : rtapi_state B -> Prop :=
| reached_init s :
    quiescent s -> wf_state cfg s -> table_empty cfg (ring_array s) ->
    reached cfg be s
| reached_call s c r s' t :
    reached cfg be s ->
    do_call cfg be c s = Some (r, s', t) ->
    reached cfg be s'.

(** ** A small instance to run the model on

    Two slots and module ids 0..7; the values stand in for the constants
    of the headers.  The shared-memory layer is a stub whose failures are
    switched on by flags. *)
Definition small_cfg (b : build_config) : rtapi_config := {|
  RTAPI_MAX_RINGS := 2;
  RTAPI_MAX_MODULES := 7;
  RING_MAGIC := 0xbeef;
  RTAPI_RING_SHM_KEY := 0x1000;
  OS_KEY := fun k => k;
  rtapi_ring_memsize := fun flags size sp_size => 64 + size + sp_size;
  build := b
|}.

Record stub_shm := mk_stub {
  new_fails : bool;
  getptr_fails : bool;
  delete_fails : bool;
  segment_absent : bool;
  next_id : Z
}.

Definition stub_backend : Backend stub_shm := {|
  _rtapi_shmem_new := fun k m size b =>
    if new_fails b then (- EINVAL, b)
    else (next_id b,
          mk_stub (new_fails b) (getptr_fails b) (delete_fails b)
                  (segment_absent b) (next_id b + 1));
  _rtapi_shmem_getptr := fun id b =>
    if getptr_fails b then (- EINVAL, 0, b) else (0, 4096 + id, b);
  _rtapi_shmem_delete := fun id own b =>
    if delete_fails b then (- EINVAL, b) else (0, b);
  shmget_absent := fun k b => segment_absent b
|}.

Definition stub_ok : stub_shm := mk_stub false false false false 0.
Definition stub_new_fails : stub_shm := mk_stub true false false false 0.

(** The zero-filled table of a fresh instance. *)
Definition fresh_state (b : stub_shm) : rtapi_state stub_shm :=
  mk_state false false [zero_ring_data; zero_ring_data] [0; 0; 0] b.

Definition committed_slot (k own id bm : Z) : ring_data :=
  mk_ring_data 0xbeef k own id bm 0.

(** One ring, created by module 1 in slot 0 and mapped at 4096; in
    [one_ring_unmapped] the process holds no mapping of it. *)
Definition one_ring_state (b : stub_shm) : rtapi_state stub_shm :=
  mk_state false false [committed_slot 0x1000 1 0 2; zero_ring_data] [4096; 0; 0] b.

Definition one_ring_unmapped (b : stub_shm) : rtapi_state stub_shm :=
  mk_state false false [committed_slot 0x1000 1 0 2; zero_ring_data] [0; 0; 0] b.

(** Both slots in use. *)
Definition full_state (b : stub_shm) : rtapi_state stub_shm :=
  mk_state false false
    [committed_slot 0x1000 1 0 2; committed_slot 0x1001 1 1 2] [4096; 4097; 0] b.

(** One ring in slot 0 with modules 0 and 1 attached. *)
Definition two_attacher_state (b : stub_shm) : rtapi_state stub_shm :=
  mk_state false false [committed_slot 0x1000 1 0 3; zero_ring_data] [4096; 0; 0] b.

(** One ring in slot 0 with modules 1 and 3 attached; module 3 is not
    below [RTAPI_MAX_RINGS]. *)
Definition uncounted_attacher_state (b : stub_shm) : rtapi_state stub_shm :=
  mk_state false false [committed_slot 0x1000 1 0 10; zero_ring_data] [4096; 0; 0] b.

(** A free slot 0 whose count field is the largest [int]. *)
Definition count_at_max_state (b : stub_shm) : rtapi_state stub_shm :=
  mk_state false false
    [mk_ring_data 0 0 0 0 0 INT_MAX; zero_ring_data] [0; 0; 0] b.

(** The stub with no failure switched on creates and maps segments. *)
Definition stub_works (b : stub_shm) : Prop :=
  new_fails b = false /\ getptr_fails b = false /\ 0 <= next_id b.


Definition value_of {B A} (o : option (A * rtapi_state B * list event)) : option A :=
  match o with Some (a, _, _) => Some a | None => None end.

Definition state_after {B A} (o : option (A * rtapi_state B * list event))
    (s0 : rtapi_state B) : rtapi_state B :=
  match o with Some (_, s, _) => s | None => s0 end.

Definition trace_of {B A} (o : option (A * rtapi_state B * list event)) : list event :=
  match o with Some (_, _, t) => t | None => [] end.

(** ** Basic facts *)

Section Facts.

Context {B : Type}.
Variable cfg : rtapi_config.
Variable be : Backend B.

Implicit Types s : rtapi_state B.
Implicit Types ra : list ring_data.

Lemma find_free_slot_eq n i s :
  find_free_slot cfg n i s =
  Some (first_free cfg n i (ring_array s), s, scan_trace cfg n i (ring_array s)).
Proof.
  revert i; induction n as [|n IH]; intros i; simpl; [reflexivity|].
  unfold bind, slot_get; simpl.
  destruct (magic (slot (ring_array s) i) =? RING_MAGIC cfg); [|reflexivity].
  rewrite IH; reflexivity.
Qed.

Lemma first_free_bounds n i ra :
  (i <= first_free cfg n i ra <= i + n)%nat.
Proof.
  revert i; induction n as [|n IH]; intros i; simpl; [lia|].
  destruct (magic (slot ra i) =? RING_MAGIC cfg); [|lia].
  specialize (IH (S i)); lia.
Qed.

Lemma first_free_below n i ra j :
  (i <= j < first_free cfg n i ra)%nat -> committed cfg (slot ra j).
Proof.
  revert i; induction n as [|n IH]; intros i; simpl; [lia|].
  destruct (Z.eqb_spec (magic (slot ra i)) (RING_MAGIC cfg)) as [E|E]; [|lia].
  intros Hj. destruct (Nat.eq_dec j i) as [->|Hne]; [exact E|].
  apply (IH (S i)); lia.
Qed.

Lemma first_free_free n i ra :
  (first_free cfg n i ra < i + n)%nat ->
  ~ committed cfg (slot ra (first_free cfg n i ra)).
Proof.
  revert i; induction n as [|n IH]; intros i; simpl; [lia|].
  destruct (Z.eqb_spec (magic (slot ra i)) (RING_MAGIC cfg)) as [E|E].
  - intros H. apply IH. lia.
  - intros _. exact E.
Qed.

Lemma first_free_full n i ra :
  (forall j, (i <= j < i + n)%nat -> committed cfg (slot ra j)) ->
  first_free cfg n i ra = (i + n)%nat.
Proof.
  revert i; induction n as [|n IH]; intros i H; simpl; [lia|].
  destruct (Z.eqb_spec (magic (slot ra i)) (RING_MAGIC cfg)) as [E|E].
  - rewrite IH; [lia|]. intros j Hj. apply H. lia.
  - exfalso. apply E. apply H. lia.
Qed.

Lemma first_free_at n i k ra :
  (i <= k < i + n)%nat ->
  (forall j, (i <= j < k)%nat -> committed cfg (slot ra j)) ->
  ~ committed cfg (slot ra k) ->
  first_free cfg n i ra = k.
Proof.
  revert i; induction n as [|n IH]; intros i Hk Hlow Hfree; simpl; [lia|].
  destruct (Z.eqb_spec (magic (slot ra i)) (RING_MAGIC cfg)) as [E|E].
  - destruct (Nat.eq_dec k i) as [->|Hne]; [contradiction|].
    apply IH; [lia| |exact Hfree]. intros j Hj. apply Hlow. lia.
  - destruct (Nat.eq_dec k i) as [->|Hne]; [reflexivity|].
    exfalso. apply E. apply Hlow. lia.
Qed.

Lemma refcount_loop_eq h n i cnt s :
  refcount_loop h n i cnt s =
  Some (cnt + count_bits n i (bitmap (slot (ring_array s) h)), s,
        repeat (EvSlotRead h Fbitmap) n).
Proof.
  revert i cnt; induction n as [|n IH]; intros i cnt; simpl.
  - unfold ret. rewrite Z.add_0_r. reflexivity.
  - unfold bind, slot_get; simpl. rewrite IH.
    destruct (test_bit i (bitmap (slot (ring_array s) h))); do 3 f_equal; lia.
Qed.

Lemma count_bits_nonneg n i bm : 0 <= count_bits n i bm.
Proof.
  revert i; induction n as [|n IH]; intros i; simpl; [lia|].
  specialize (IH (i + 1)). destruct (test_bit i bm); lia.
Qed.

Lemma count_bits_zero n i bm :
  count_bits n i bm = 0 <->
  (forall k, i <= k < i + Z.of_nat n -> test_bit k bm = false).
Proof.
  revert i; induction n as [|n IH]; intros i; simpl count_bits.
  - split; [intros _ k Hk; lia|reflexivity].
  - pose proof (count_bits_nonneg n (i + 1) bm) as Hnn.
    split.
    + intros H k Hk.
      destruct (test_bit i bm) eqn:E; [lia|].
      destruct (Z.eq_dec k i) as [->|Hne]; [exact E|].
      apply (proj1 (IH (i + 1))); lia.
    + intros H. rewrite (H i) by lia.
      rewrite (proj2 (IH (i + 1))); [reflexivity|].
      intros k Hk. apply H. lia.
Qed.

(** Bit operations *)
Lemma testbit_shiftl_1 m k :
  0 <= m -> Z.testbit (Z.shiftl 1 m) k = (k =? m).
Proof.
  intros Hm.
  destruct (Z_lt_le_dec k 0) as [Hneg|Hpos].
  - rewrite Z.testbit_neg_r by lia. symmetry. apply Z.eqb_neq. lia.
  - rewrite Z.shiftl_spec by lia.
    destruct (Z.eqb_spec k m) as [->|Hne].
    + rewrite Z.sub_diag. reflexivity.
    + destruct (Z_lt_le_dec (k - m) 0) as [Hlt|Hge].
      * apply Z.testbit_neg_r; lia.
      * apply Z.bits_above_log2; [lia|]. rewrite Z.log2_1. lia.
Qed.

Lemma test_set_bit m k bm :
  0 <= m -> test_bit k (set_bit m bm) = test_bit k bm || (k =? m).
Proof.
  intros Hm. unfold test_bit, set_bit.
  rewrite Z.lor_spec, testbit_shiftl_1 by lia. reflexivity.
Qed.

Lemma test_clear_bit m k bm :
  0 <= m -> test_bit k (clear_bit m bm) = test_bit k bm && negb (k =? m).
Proof.
  intros Hm. unfold test_bit, clear_bit.
  rewrite Z.ldiff_spec, testbit_shiftl_1 by lia. reflexivity.
Qed.

Lemma set_bit_idem m bm : set_bit m (set_bit m bm) = set_bit m bm.
Proof.
  unfold set_bit. rewrite <- Z.lor_assoc, Z.lor_diag. reflexivity.
Qed.

(** An [int] result in range is the exact result; one past [INT_MAX]
    is [INT_MIN]. *)
Lemma int_wrap_in_range z : INT_MIN <= z <= INT_MAX -> int_wrap z = z.
Proof.
  unfold INT_MIN, INT_MAX, int_wrap. intros H.
  rewrite Z.mod_small by lia. lia.
Qed.

Lemma int_wrap_bounds z : INT_MIN <= int_wrap z <= INT_MAX.
Proof.
  unfold INT_MIN, INT_MAX, int_wrap.
  pose proof (Z.mod_pos_bound (z + 2 ^ 31) (2 ^ 32) ltac:(lia)). lia.
Qed.

Lemma int_wrap_past_max : int_wrap (INT_MAX + 1) = INT_MIN.
Proof. reflexivity. Qed.

Lemma count_bits_le n i bm : count_bits n i bm <= Z.of_nat n.
Proof.
  revert i; induction n as [|n IH]; intros i; cbn [count_bits]; [lia|].
  specialize (IH (i + 1)). destruct (test_bit i bm); lia.
Qed.

Lemma count_bits_pos_of m n bm :
  0 <= m < Z.of_nat n -> test_bit m bm = true -> 1 <= count_bits n 0 bm.
Proof.
  intros Hm Hb.
  pose proof (count_bits_nonneg n 0 bm) as Hnn.
  destruct (Z.eq_dec (count_bits n 0 bm) 0) as [E|E]; [|lia].
  rewrite (proj1 (count_bits_zero n 0 bm) E m) in Hb by lia. discriminate.
Qed.

End Facts.

(** ** Running the code symbolically *)

Arguments slot : simpl never.
Arguments set_field : simpl never.
Arguments get_field : simpl never.
Arguments refcount_trace : simpl never.
Arguments refcount_value : simpl never.
Arguments int_wrap : simpl never.

Ltac unfold_prims :=
  unfold with_cleanup, ring_autorelease_mutex, rtapi_autorelease_mutex,
    rtapi_mutex_get, rtapi_mutex_give, mutex_is_set, rtapi_print_msg,
    slot_get, slot_set, addr_get, addr_set, shmem_new, shmem_getptr,
    shmem_delete, shmget_probe, rtapi_ringheader_init, rtapi_ringbufer_init,
    bind, ret, held, set_lock, with_shm in *.

Lemma slot_insert_eq ra i rd :
  (i < length ra)%nat -> slot (<[i := rd]> ra) i = rd.
Proof.
  intros H. unfold slot. rewrite list_lookup_insert_eq by exact H. reflexivity.
Qed.

Lemma slot_insert_ne ra i j rd :
  i <> j -> slot (<[i := rd]> ra) j = slot ra j.
Proof.
  intros H. unfold slot. rewrite list_lookup_insert_ne by exact H. reflexivity.
Qed.

Ltac norm_table :=
  rewrite ?slot_insert_eq, ?list_insert_insert_eq by (rewrite ?length_insert; lia).

(** *** Traces *)

Lemma forallb_rev {A} (P : A -> bool) (l : list A) :
  forallb P (rev l) = forallb P l.
Proof.
  induction l as [|a l IH]; simpl; [reflexivity|].
  rewrite forallb_app, IH. simpl. rewrite andb_true_r. apply andb_comm.
Qed.

Lemma lock_scoped_bracket l mid :
  lock_scoped l (EvMutexGet l :: mid ++ [EvMutexGive l]) = forallb (no_lock_op l) mid.
Proof.
  unfold lock_scoped. rewrite rev_app_distr. simpl.
  assert (E : lock_eqb l l = true) by (destruct l; reflexivity).
  rewrite E. simpl. apply forallb_rev.
Qed.

Lemma forallb_scan_trace (P : event -> bool) cfg n i ra :
  (forall j, P (EvSlotRead j Fmagic) = true) ->
  forallb P (scan_trace cfg n i ra) = true.
Proof.
  intros HP. revert i; induction n as [|n IH]; intros i; simpl; [reflexivity|].
  rewrite HP. simpl.
  destruct (magic (slot ra i) =? RING_MAGIC cfg); [apply IH|reflexivity].
Qed.

Lemma forallb_repeat {A} (P : A -> bool) (a : A) n :
  P a = true -> forallb P (repeat a n) = true.
Proof.
  intros H. induction n as [|n IH]; simpl; [reflexivity|]. rewrite H, IH. reflexivity.
Qed.

Lemma commit_is_last_app pre post :
  forallb (fun e => negb (is_tag_write e)) pre = true ->
  commit_is_last (pre ++ post) = commit_is_last post.
Proof.
  induction pre as [|e pre IH]; simpl; [reflexivity|].
  intros H. apply andb_true_iff in H as [He Hpre].
  destruct (is_tag_write e); [discriminate|]. apply IH, Hpre.
Qed.

Lemma writes_tag_app pre post :
  forallb (fun e => negb (is_tag_write e)) pre = true ->
  writes_tag (pre ++ post) = writes_tag post.
Proof.
  unfold writes_tag. induction pre as [|e pre IH]; simpl; [reflexivity|].
  intros H. apply andb_true_iff in H as [He Hpre].
  destruct (is_tag_write e); [discriminate|]. apply IH, Hpre.
Qed.

(** Closes a goal about the trace of [_rtapi_ring_new]: the trace is the
    get, the scan, a fixed list of steps and the give. *)
Ltac new_trace :=
  first
    [ rewrite lock_scoped_bracket, forallb_app, forallb_scan_trace by reflexivity;
      reflexivity
    | cbn [commit_is_last is_tag_write];
      rewrite <- app_assoc, commit_is_last_app
        by (apply forallb_scan_trace; reflexivity);
      reflexivity
    | change (writes_tag (?e :: ?t)) with (writes_tag t);
      rewrite <- app_assoc, writes_tag_app
        by (apply forallb_scan_trace; reflexivity);
      reflexivity ].

(** *** Counting events *)

Lemma count_events_app p t1 t2 :
  count_events p (t1 ++ t2) = (count_events p t1 + count_events p t2)%nat.
Proof.
  unfold count_events. rewrite List.filter_app, length_app. reflexivity.
Qed.

Lemma count_events_cons p e t :
  count_events p (e :: t) = ((if p e then 1 else 0) + count_events p t)%nat.
Proof.
  unfold count_events. cbn [List.filter]. destruct (p e); reflexivity.
Qed.

Lemma count_events_scan p cfg n i ra :
  (forall j, p (EvSlotRead j Fmagic) = false) ->
  count_events p (scan_trace cfg n i ra) = 0%nat.
Proof.
  intros Hp. revert i; induction n as [|n IH]; intros i; cbn [scan_trace]; [reflexivity|].
  rewrite count_events_cons, Hp.
  destruct (magic (slot ra i) =? RING_MAGIC cfg); [apply IH|reflexivity].
Qed.

Lemma count_events_repeat p e n :
  p e = false -> count_events p (repeat e n) = 0%nat.
Proof.
  intros Hp. induction n as [|n IH]; cbn [repeat]; [reflexivity|].
  rewrite count_events_cons, Hp. exact IH.
Qed.

Lemma existsb_scan p cfg n i ra :
  (forall j, p (EvSlotRead j Fmagic) = false) ->
  existsb p (scan_trace cfg n i ra) = false.
Proof.
  intros Hp. revert i; induction n as [|n IH]; intros i; cbn [scan_trace existsb]; [reflexivity|].
  rewrite Hp. destruct (magic (slot ra i) =? RING_MAGIC cfg); [apply IH|reflexivity].
Qed.

Lemma existsb_repeat {A} (p : A -> bool) e n :
  p e = false -> existsb p (repeat e n) = false.
Proof.
  intros Hp. induction n as [|n IH]; cbn [repeat existsb]; [reflexivity|].
  rewrite Hp. exact IH.
Qed.

(** Closes a goal that counts or searches events in a trace of
    [_rtapi_ring_new]. *)
Ltac new_events :=
  first
    [ rewrite count_events_cons, !count_events_app, count_events_scan by reflexivity;
      reflexivity
    | cbn [existsb]; rewrite !existsb_app, existsb_scan by reflexivity; reflexivity
    | apply in_cons, in_or_app; left; apply in_or_app; right;
      repeat (first [left; reflexivity | right]) ].

Section Specs.

Context {B : Type}.
Variable cfg : rtapi_config.
Variable be : Backend B.

Implicit Types s : rtapi_state B.
Implicit Types ra : list ring_data.

(** *** _rtapi_ring_new: every path, with its result *)
Lemma ring_new_spec size sp m flags s :
  ring_mutex s = false -> wf_state cfg s ->
  let ra := ring_array s in
  let i := first_free cfg (RTAPI_MAX_RINGS cfg) 0 ra in
  let rd := slot ra i in
  let k := RTAPI_RING_SHM_KEY cfg + Z.of_nat i in
  let nb := _rtapi_shmem_new be k m (rtapi_ring_memsize cfg flags size sp) (shm s) in
  let gp := _rtapi_shmem_getptr be (fst nb) (snd nb) in
  exists r s' t,
    _rtapi_ring_new cfg be size sp m flags s = Some (r, s', t) /\
    lock_scoped RingMutex t = true /\
    commit_is_last t = true /\
    ((i = RTAPI_MAX_RINGS cfg /\ r = - ENOMEM /\ s' = s /\
      writes_tag t = false /\
      In (EvMsg "rtapi_ring_new failed due to RTAPI_MAX_RINGS exceeded") t)
     \/ ((i < RTAPI_MAX_RINGS cfg)%nat /\ fst nb < 0 /\ r = - ENOMEM /\
         writes_tag t = false /\
         s' = mk_state false (mutex s)
                (<[i := mk_ring_data (magic rd) k m (fst nb) (bitmap rd) (count rd)]> ra)
                (ring_addr_array s) (snd nb))
     \/ ((i < RTAPI_MAX_RINGS cfg)%nat /\ 0 <= fst nb /\ fst (fst gp) <> 0 /\
         r = - ENOMEM /\ writes_tag t = false /\
         s' = mk_state false (mutex s)
                (<[i := mk_ring_data (magic rd) k m (fst nb) (bitmap rd) (count rd)]> ra)
                (ring_addr_array s) (snd gp))
     \/ ((i < RTAPI_MAX_RINGS cfg)%nat /\ 0 <= fst nb /\ fst (fst gp) = 0 /\
         r = Z.of_nat i /\ writes_tag t = true /\
         s' = mk_state false (mutex s)
                (<[i := mk_ring_data (RING_MAGIC cfg) k m (fst nb)
                                     (set_bit m (bitmap rd)) (count rd)]> ra)
                (if ULAPI (build cfg)
                 then <[i := snd (fst gp)]> (ring_addr_array s)
                 else ring_addr_array s)
                (snd gp))).
Proof.
  intros Hm Hwf. destruct s as [rm mx ra la b]. unfold wf_state in Hwf.
  simpl in Hm, Hwf. subst rm.
  intros ra0 i rd k nb gp. subst ra0 rd k.
  cbn [ring_array shm mutex ring_addr_array] in *.
  pose proof (first_free_bounds cfg (RTAPI_MAX_RINGS cfg) 0 ra) as Hb. fold i in Hb.
  unfold _rtapi_ring_new. unfold_prims. cbn.
  rewrite find_free_slot_eq. cbn. fold i.
  destruct (Nat.eqb_spec i (RTAPI_MAX_RINGS cfg)) as [Ei|Ei]; cbn.
  { do 3 eexists; split; [reflexivity|].
    split; [new_trace|]. split; [new_trace|].
    left. repeat split; auto; [new_trace|].
    apply in_cons, in_or_app. left. apply in_or_app. right. left. reflexivity. }
  norm_table.
  change (get_field Fkey (set_field Fowner m
            (set_field Fkey (RTAPI_RING_SHM_KEY cfg + Z.of_nat i) (slot ra i))))
    with (RTAPI_RING_SHM_KEY cfg + Z.of_nat i).
  fold nb. destruct nb as [id b1] eqn:En. cbn.
  destruct (Z.ltb_spec id 0) as [Eid|Eid]; cbn.
  { norm_table. do 3 eexists; split; [reflexivity|].
    split; [new_trace|]. split; [new_trace|].
    right; left. repeat split; try lia; new_trace. }
  norm_table.
  change (get_field Fshmem_id (set_field Fshmem_id id ?x)) with id.
  cbn in gp. fold gp. destruct gp as [[rv p] b2] eqn:Eg. cbn.
  destruct (Z.eqb_spec rv 0) as [Erv|Erv]; cbn.
  2:{ do 3 eexists; split; [reflexivity|].
      split; [new_trace|]. split; [new_trace|].
      right; right; left. repeat split; try lia; auto; new_trace. }
  destruct (ULAPI (build cfg)); cbn; norm_table;
    (do 3 eexists; split; [reflexivity|];
     split; [new_trace|]; split; [new_trace|];
     right; right; right; repeat split; try lia; auto; new_trace).
Qed.

(** *** _rtapi_ring_new: the order of its steps

    On the path that commits, the trace ends with the write of the tag
    and the release of the lock, and both backend calls and the header
    initialisation come before the write; on the other paths the header
    is never initialised. *)
Lemma ring_new_order size sp m flags s :
  ring_mutex s = false -> wf_state cfg s ->
  let ra := ring_array s in
  let i := first_free cfg (RTAPI_MAX_RINGS cfg) 0 ra in
  let k := RTAPI_RING_SHM_KEY cfg + Z.of_nat i in
  let total := rtapi_ring_memsize cfg flags size sp in
  let nb := _rtapi_shmem_new be k m total (shm s) in
  let gp := _rtapi_shmem_getptr be (fst nb) (snd nb) in
  exists r s' t,
    _rtapi_ring_new cfg be size sp m flags s = Some (r, s', t) /\
    ((i = RTAPI_MAX_RINGS cfg /\ r = - ENOMEM /\
      count_events is_header_init t = 0%nat)
     \/ ((i < RTAPI_MAX_RINGS cfg)%nat /\ fst nb < 0 /\ r = - ENOMEM /\
         count_events is_header_init t = 0%nat)
     \/ ((i < RTAPI_MAX_RINGS cfg)%nat /\ 0 <= fst nb /\ fst (fst gp) <> 0 /\
         r = - ENOMEM /\ count_events is_header_init t = 0%nat)
     \/ ((i < RTAPI_MAX_RINGS cfg)%nat /\ 0 <= fst nb /\ fst (fst gp) = 0 /\
         r = Z.of_nat i /\ count_events is_header_init t = 1%nat /\
         shm s' = snd gp /\
         exists pre,
           t = pre ++ [EvSlotWrite i Fmagic; EvMutexGive RingMutex] /\
           writes_tag pre = false /\
           In (EvShmemNew k m total (fst nb)) pre /\
           In (EvShmemGetptr (fst nb) 0) pre /\
           In (EvHeaderInit (snd (fst gp)) flags size sp) pre)).
Proof.
  intros Hm Hwf. destruct s as [rm mx ra la b]. unfold wf_state in Hwf.
  simpl in Hm, Hwf. subst rm.
  intros ra0 i k total nb gp. subst ra0 k total.
  cbn [ring_array shm mutex ring_addr_array] in *.
  pose proof (first_free_bounds cfg (RTAPI_MAX_RINGS cfg) 0 ra) as Hb. fold i in Hb.
  unfold _rtapi_ring_new. unfold_prims. cbn.
  rewrite find_free_slot_eq. cbn. fold i.
  destruct (Nat.eqb_spec i (RTAPI_MAX_RINGS cfg)) as [Ei|Ei]; cbn.
  { do 3 eexists; split; [reflexivity|].
    left. repeat split; auto. new_events. }
  norm_table.
  change (get_field Fkey (set_field Fowner m
            (set_field Fkey (RTAPI_RING_SHM_KEY cfg + Z.of_nat i) (slot ra i))))
    with (RTAPI_RING_SHM_KEY cfg + Z.of_nat i).
  fold nb. destruct nb as [id b1] eqn:En. cbn.
  destruct (Z.ltb_spec id 0) as [Eid|Eid]; cbn.
  { norm_table. do 3 eexists; split; [reflexivity|].
    right; left. repeat split; try lia; new_events. }
  norm_table.
  change (get_field Fshmem_id (set_field Fshmem_id id ?x)) with id.
  cbn in gp. fold gp. destruct gp as [[rv p] b2] eqn:Eg. cbn.
  destruct (Z.eqb_spec rv 0) as [Erv|Erv]; cbn.
  2:{ do 3 eexists; split; [reflexivity|].
      right; right; left. repeat split; try lia; auto; new_events. }
  subst rv.
  destruct (ULAPI (build cfg)); cbn; norm_table;
    (do 3 eexists; split; [reflexivity|];
     right; right; right;
     split; [lia|]; split; [lia|]; split; [reflexivity|]; split; [reflexivity|];
     split; [new_events|]; split; [reflexivity|];
     match goal with |- exists pre, ?g :: (?sc ++ ?l) ++ _ = _ /\ _ =>
       exists (g :: sc ++ removelast l) end;
     cbn [removelast];
     split; [cbn [app]; rewrite <- !app_assoc; reflexivity|];
     split; [unfold writes_tag; new_events|];
     repeat split;
     apply in_cons, in_or_app; right; repeat (first [left; reflexivity | right])).
Qed.
(** Create succeeds with the first free index whenever there is one and
    both backend calls succeed. *)
Lemma ring_new_succeeds size sp m flags s :
  ring_mutex s = false -> wf_state cfg s ->
  let i := first_free cfg (RTAPI_MAX_RINGS cfg) 0 (ring_array s) in
  let k := RTAPI_RING_SHM_KEY cfg + Z.of_nat i in
  let nb := _rtapi_shmem_new be k m (rtapi_ring_memsize cfg flags size sp) (shm s) in
  let gp := _rtapi_shmem_getptr be (fst nb) (snd nb) in
  (i < RTAPI_MAX_RINGS cfg)%nat -> 0 <= fst nb -> fst (fst gp) = 0 ->
  exists s' t,
    _rtapi_ring_new cfg be size sp m flags s = Some (Z.of_nat i, s', t) /\
    shm s' = snd gp.
Proof.
  intros Hm Hwf i k nb gp Hi Hnb Hgp.
  destruct (ring_new_order size sp m flags s Hm Hwf)
    as (r & s' & t & Hcall & Hcases).
  fold i k nb gp in Hcases.
  destruct Hcases as [(Hx & _)|[(_ & Hx & _)|[(_ & _ & Hx & _)
                     |(_ & _ & _ & -> & _ & Hshm & _)]]];
    [lia|lia|contradiction|].
  exists s', t. split; [exact Hcall|exact Hshm].
Qed.

(** *** _rtapi_ring_refcount as a function of the table *)
Lemma refcount_eq h s :
  mutex s = false ->
  _rtapi_ring_refcount cfg h s =
  Some (refcount_value cfg h (ring_array s), s, refcount_trace cfg h (ring_array s)).
Proof.
  intros Hm. destruct s as [rm mx ra la b]. simpl in Hm. subst mx.
  unfold _rtapi_ring_refcount, refcount_value, refcount_trace. unfold_prims. cbn.
  destruct ((h <? 0) || (h >=? Z.of_nat (RTAPI_MAX_RINGS cfg))); cbn; [reflexivity|].
  change (get_field Fmagic ?x) with (magic x).
  destruct (magic (slot ra (Z.to_nat h)) =? RING_MAGIC cfg); cbn; [|reflexivity].
  rewrite refcount_loop_eq. cbn. reflexivity.
Qed.

Lemma refcount_trace_scoped h ra :
  lock_scoped RtapiMutex (refcount_trace cfg h ra) = true.
Proof.
  unfold refcount_trace. rewrite lock_scoped_bracket.
  destruct ((h <? 0) || (h >=? Z.of_nat (RTAPI_MAX_RINGS cfg))); [reflexivity|].
  cbn. destruct (negb _); [reflexivity|].
  apply forallb_repeat. reflexivity.
Qed.

Lemma refcount_trace_no_ring_get h ra :
  forallb (fun e => negb (is_get RingMutex e)) (refcount_trace cfg h ra) = true.
Proof.
  unfold refcount_trace. cbn. rewrite forallb_app. cbn. rewrite andb_true_r.
  destruct ((h <? 0) || (h >=? Z.of_nat (RTAPI_MAX_RINGS cfg))); [reflexivity|].
  cbn. destruct (negb _); [reflexivity|].
  apply forallb_repeat. reflexivity.
Qed.

Lemma refcount_trace_off_ring_mutex h ra :
  existsb (is_get RingMutex) (refcount_trace cfg h ra) = false /\
  existsb (is_give RingMutex) (refcount_trace cfg h ra) = false.
Proof.
  unfold refcount_trace. cbn [existsb is_get is_give lock_eqb orb].
  rewrite !existsb_app. cbn [existsb is_get is_give lock_eqb orb].
  rewrite !orb_false_r.
  destruct ((h <? 0) || (h >=? Z.of_nat (RTAPI_MAX_RINGS cfg))); [split; reflexivity|].
  cbn [existsb is_get is_give orb]. destruct (negb _); [split; reflexivity|].
  rewrite !existsb_repeat by reflexivity. split; reflexivity.
Qed.

Lemma refcount_value_committed h ra :
  0 <= h < Z.of_nat (RTAPI_MAX_RINGS cfg) ->
  committed cfg (slot ra (Z.to_nat h)) ->
  refcount_value cfg h ra =
  count_bits (RTAPI_MAX_RINGS cfg) 0 (bitmap (slot ra (Z.to_nat h))).
Proof.
  intros Hh Hc. unfold refcount_value, committed in *.
  destruct (Z.ltb_spec h 0); [lia|].
  destruct (Z.geb_spec h (Z.of_nat (RTAPI_MAX_RINGS cfg))); [lia|]. cbn.
  rewrite Hc, Z.eqb_refl. reflexivity.
Qed.

Lemma refcount_value_invalid h ra :
  h < 0 \/ Z.of_nat (RTAPI_MAX_RINGS cfg) <= h \/
  ~ committed cfg (slot ra (Z.to_nat h)) ->
  refcount_value cfg h ra = - EINVAL.
Proof.
  intros H. unfold refcount_value, committed in *.
  destruct (Z.ltb_spec h 0); [reflexivity|].
  destruct (Z.geb_spec h (Z.of_nat (RTAPI_MAX_RINGS cfg))); [reflexivity|]. cbn.
  destruct (Z.eqb_spec (magic (slot ra (Z.to_nat h))) (RING_MAGIC cfg)); [|reflexivity].
  exfalso. intuition lia.
Qed.

(** *** _rtapi_ring_detach: every path, with its result *)
Lemma ring_detach_spec handle m s :
  mutex s = false -> wf_state cfg s ->
  let ra := ring_array s in
  let h := Z.to_nat handle in
  let rd := slot ra h in
  let bm := clear_bit m (bitmap rd) in
  let dl := _rtapi_shmem_delete be (shmem_id rd) (owner rd) (shm s) in
  exists r s' t,
    _rtapi_ring_detach cfg be handle m s = Some (r, s', t) /\
    forallb (fun e => negb (is_get RingMutex e)) t = true /\
    (((handle < 0 \/ Z.of_nat (RTAPI_MAX_RINGS cfg) <= handle \/ ~ committed cfg rd) /\
      r = - EINVAL /\
      s' = mk_state false false ra (ring_addr_array s) (shm s))
     \/ (0 <= handle < Z.of_nat (RTAPI_MAX_RINGS cfg) /\ committed cfg rd /\
         count_bits (RTAPI_MAX_RINGS cfg) 0 bm <> 0 /\ r = 0 /\
         s' = mk_state false false
                (<[h := mk_ring_data (magic rd) (key rd) (owner rd) (shmem_id rd)
                                     bm (count rd)]> ra)
                (ring_addr_array s) (shm s))
     \/ (0 <= handle < Z.of_nat (RTAPI_MAX_RINGS cfg) /\ committed cfg rd /\
         count_bits (RTAPI_MAX_RINGS cfg) 0 bm = 0 /\ r = 0 /\
         In (EvShmemDelete (shmem_id rd) (owner rd) (fst dl)) t /\
         (fst dl <> 0 ->
          In (EvMsg "_rtapi_ring_detach: rtapi_shmem_delete failed") t) /\
         s' = mk_state false false
                (<[h := mk_ring_data 0 (key rd) (owner rd) (shmem_id rd)
                                     bm (count rd)]> ra)
                (ring_addr_array s) (snd dl))).
Proof.
  intros Hm Hwf. destruct s as [rm mx ra la b]. unfold wf_state in Hwf.
  simpl in Hm, Hwf. subst mx.
  intros ra0 h rd bm dl. subst ra0.
  cbn [ring_array shm mutex ring_addr_array] in *.
  unfold _rtapi_ring_detach. unfold_prims. cbn.
  destruct (Z.ltb_spec handle 0) as [Hlo|Hlo]; cbn.
  { destruct rm; cbn; do 3 eexists; (split; [reflexivity|]); (split; [reflexivity|]);
      left; repeat split; auto. }
  destruct (Z.geb_spec handle (Z.of_nat (RTAPI_MAX_RINGS cfg))) as [Hhi|Hhi]; cbn.
  { destruct rm; cbn; do 3 eexists; (split; [reflexivity|]); (split; [reflexivity|]);
      left; repeat split; auto. }
  fold h. change (get_field Fmagic ?x) with (magic x). fold rd.
  destruct (Z.eqb_spec (magic rd) (RING_MAGIC cfg)) as [Hc|Hc]; cbn.
  2:{ destruct rm; cbn; do 3 eexists; (split; [reflexivity|]); (split; [reflexivity|]);
      left; repeat split; auto. }
  assert (Hh : (h < length ra)%nat) by (unfold h; lia).
  rewrite refcount_eq by reflexivity. cbn [ring_array].
  rewrite refcount_value_committed
    by (try lia; fold h; rewrite slot_insert_eq by exact Hh; exact Hc).
  fold h. rewrite slot_insert_eq by exact Hh.
  change (bitmap (set_field Fbitmap ?v ?x)) with v.
  change (get_field Fbitmap ?x) with (bitmap x). fold rd. fold bm.
  destruct (Z.eqb_spec (count_bits (RTAPI_MAX_RINGS cfg) 0 bm) 0) as [Hz|Hz]; cbn.
  2:{ destruct rm; cbn; do 3 eexists; (split; [reflexivity|]);
      (split; [cbn; rewrite !forallb_app, refcount_trace_no_ring_get; reflexivity|]);
      right; left; repeat split; auto; lia. }
  norm_table.
  change (get_field Fshmem_id ?x) with (shmem_id x).
  change (get_field Fowner ?x) with (owner x).
  change (shmem_id (set_field Fbitmap ?v ?x)) with (shmem_id x).
  change (owner (set_field Fbitmap ?v ?x)) with (owner x).
  fold dl. destruct dl as [rv b1] eqn:Ed. cbn.
  destruct (Z.eqb_spec rv 0) as [Hrv|Hrv]; cbn; norm_table;
    destruct rm; cbn; do 3 eexists; (split; [reflexivity|]);
      (split; [cbn; rewrite !forallb_app, refcount_trace_no_ring_get; reflexivity|]);
      right; right; repeat split; auto; try lia;
      try (intros Hne; cbn in Hne; try contradiction);
      cbn [In]; rewrite !in_app_iff; cbn [In]; intuition auto.
Qed.
(** *** _rtapi_ring_attach: every path, with its result *)
Lemma ring_attach_spec handle m p0 s :
  ring_mutex s = false -> wf_state cfg s ->
  let ra := ring_array s in
  let la := ring_addr_array s in
  let h := Z.to_nat handle in
  let rd := slot ra h in
  let cached := default 0 (la !! h) in
  let attached_rd :=
    mk_ring_data (magic rd) (key rd) (owner rd) (shmem_id rd)
                 (set_bit m (bitmap rd)) (count rd) in
  let gp := _rtapi_shmem_getptr be (shmem_id rd) (shm s) in
  let k := RTAPI_RING_SHM_KEY cfg + handle in
  let absent := shmget_absent be (OS_KEY cfg k) (shm s) in
  let nb := _rtapi_shmem_new be k m 0 (shm s) in
  let gp' := _rtapi_shmem_getptr be (fst nb) (snd nb) in
  let probed_rd :=
    mk_ring_data (magic rd) k (owner rd) (fst nb) (bitmap rd) (count rd) in
  exists r s' t,
    _rtapi_ring_attach cfg be handle m p0 s = Some (r, s', t) /\
    lock_scoped RingMutex t = true /\
    (((handle < 0 \/ Z.of_nat (RTAPI_MAX_RINGS cfg) <= handle) /\
      r = - EINVAL /\ s' = s)
     \/ (0 <= handle < Z.of_nat (RTAPI_MAX_RINGS cfg) /\
         ((committed cfg rd /\ BUILD_SYS_KBUILD (build cfg) = true /\
           fst (fst gp) <> 0 /\ r = - ENOMEM /\
           s' = mk_state false (mutex s) ra la (snd gp))
          \/ (committed cfg rd /\ BUILD_SYS_KBUILD (build cfg) = true /\
              fst (fst gp) = 0 /\ r = 0 /\
              s' = mk_state false (mutex s) (<[h := attached_rd]> ra) la (snd gp))
          \/ (committed cfg rd /\ BUILD_SYS_KBUILD (build cfg) = false /\
              cached = 0 /\ r = - ENOMEM /\ s' = s /\
              In (EvMsg "_rtapi_ring_attach: BUG rhptr == NULL") t)
          \/ (committed cfg rd /\ BUILD_SYS_KBUILD (build cfg) = false /\
              cached <> 0 /\ r = 0 /\
              s' = mk_state false (mutex s) (<[h := attached_rd]> ra) la (shm s))
          \/ (~ committed cfg rd /\ BUILD_SYS_KBUILD (build cfg) = true /\
              r = - ENOMEM /\ s' = s /\
              In (EvMsg "rtapi_ring_attach: invalid ring handle") t)
          \/ (~ committed cfg rd /\ BUILD_SYS_KBUILD (build cfg) = false /\
              absent = true /\ r = - EINVAL /\ s' = s /\
              In (EvMsg "rtapi_ring_attach: invalid ring handle") t)
          \/ (~ committed cfg rd /\ BUILD_SYS_KBUILD (build cfg) = false /\
              absent = false /\ fst nb < 0 /\ r = - ENOMEM /\
              s' = mk_state false (mutex s) (<[h := probed_rd]> ra) la (snd nb))
          \/ (~ committed cfg rd /\ BUILD_SYS_KBUILD (build cfg) = false /\
              absent = false /\ 0 <= fst nb /\ fst (fst gp') <> 0 /\
              r = - ENOMEM /\
              s' = mk_state false (mutex s) (<[h := probed_rd]> ra) la (snd gp'))
          \/ (~ committed cfg rd /\ BUILD_SYS_KBUILD (build cfg) = false /\
              absent = false /\ 0 <= fst nb /\ fst (fst gp') = 0 /\ r = 0 /\
              s' = mk_state false (mutex s)
                     (<[h := mk_ring_data (RING_MAGIC cfg) k (owner rd) (fst nb)
                                          (set_bit m (bitmap rd))
                                          (int_wrap (count rd + 1))]> ra)
                     (<[h := snd (fst gp')]> la) (snd gp'))))).
Proof.
  intros Hm Hwf. destruct s as [rm mx ra la b]. unfold wf_state in Hwf.
  simpl in Hm, Hwf. subst rm.
  intros ra0 la0 h rd cached attached_rd gp k absent nb gp' probed_rd.
  subst ra0 la0. cbn [ring_array shm mutex ring_addr_array] in *.
  unfold _rtapi_ring_attach. unfold_prims. cbn.
  destruct (Z.ltb_spec handle 0) as [Hlo|Hlo]; cbn.
  { do 3 eexists; split; [reflexivity|]. split; [reflexivity|]. left. auto. }
  destruct (Z.geb_spec handle (Z.of_nat (RTAPI_MAX_RINGS cfg))) as [Hhi|Hhi]; cbn.
  { do 3 eexists; split; [reflexivity|]. split; [reflexivity|]. left. auto. }
  assert (Hh : (h < length ra)%nat) by (unfold h; lia).
  fold h. change (get_field Fmagic ?x) with (magic x). fold rd.
  destruct (Z.eqb_spec (magic rd) (RING_MAGIC cfg)) as [Hc|Hc]; cbn;
    destruct (BUILD_SYS_KBUILD (build cfg)) eqn:Hk; cbn.
  - change (get_field Fshmem_id ?x) with (shmem_id x). fold rd. fold gp.
    destruct gp as [[rv p] b1] eqn:Eg. cbn.
    destruct (Z.eqb_spec rv 0) as [Hrv|Hrv]; cbn;
      do 3 eexists; (split; [reflexivity|]); (split; [reflexivity|]); right;
      (split; [lia|]).
    + right; left. repeat split; auto.
    + left. repeat split; auto.
  - fold cached.
    destruct (Z.eqb_spec cached 0) as [Hp|Hp]; cbn;
      do 3 eexists; (split; [reflexivity|]); (split; [reflexivity|]); right;
      (split; [lia|]).
    + right; right; left. repeat split; auto. cbn. tauto.
    + right; right; right; left. repeat split; auto.
  - do 3 eexists; (split; [reflexivity|]); (split; [reflexivity|]); right;
      (split; [lia|]).
    do 4 right; left. repeat split; auto. cbn. tauto.
  - fold k. fold absent.
    destruct absent eqn:Ea; cbn.
    { do 3 eexists; (split; [reflexivity|]); (split; [reflexivity|]); right;
        (split; [lia|]).
      do 5 right; left. repeat split; auto. cbn. tauto. }
    norm_table.
    change (get_field Fkey (set_field Fkey ?v ?x)) with v.
    fold nb. destruct nb as [id b1] eqn:En. cbn.
    destruct (Z.ltb_spec id 0) as [Hid|Hid]; cbn; norm_table.
    { do 3 eexists; (split; [reflexivity|]); (split; [reflexivity|]); right;
        (split; [lia|]).
      do 6 right; left. repeat split; auto. }
    change (get_field Fshmem_id (set_field Fshmem_id ?v ?x)) with v.
    cbn in gp'. fold gp'. destruct gp' as [[rv p] b2] eqn:Eg. cbn.
    destruct (Z.eqb_spec rv 0) as [Hrv|Hrv]; cbn; norm_table;
      do 3 eexists; (split; [reflexivity|]); (split; [reflexivity|]); right;
      (split; [lia|]).
    + do 8 right. repeat split; auto.
    + do 7 right; left. repeat split; auto.
Qed.
(** *** Reading the table after one slot was replaced *)

Lemma slot_insert_field {A} (f : ring_data -> A) ra i x :
  f x = f (slot ra i) ->
  forall j, f (slot (<[i := x]> ra) j) = f (slot ra j).
Proof.
  intros Hf j.
  destruct (Nat.eq_dec i j) as [->|Hne]; [|rewrite slot_insert_ne by exact Hne; reflexivity].
  destruct (Nat.lt_ge_cases j (length ra)) as [Hlt|Hge].
  - rewrite slot_insert_eq by exact Hlt. exact Hf.
  - rewrite list_insert_ge by exact Hge. reflexivity.
Qed.

End Specs.

(** ** The claims *)

Section CreateClaims.

Context {B : Type}.
Variable cfg : rtapi_config.
Variable be : Backend B.

Implicit Types s : rtapi_state B.
Implicit Types ra : list ring_data.

(** C2.  Create writes the validity tag only when the scan found a free
    slot, [_rtapi_shmem_new] returned a segment id and
    [_rtapi_shmem_getptr] returned 0, and it returns a handle in exactly
    that case.  Then the write of the tag is the last step before the
    lock is given back, and both backend calls come before it in the
    trace.  When one of the three steps fails Create returns [-ENOMEM],
    its trace has no write of a tag, every slot keeps the tag it had, and
    the slot the scan stopped at is still free. *)
Theorem create_commits_tag_last size sp m flags s :
  ring_mutex s = false -> wf_state cfg s ->
  let i := first_free cfg (RTAPI_MAX_RINGS cfg) 0 (ring_array s) in
  let k := RTAPI_RING_SHM_KEY cfg + Z.of_nat i in
  let total := rtapi_ring_memsize cfg flags size sp in
  let nb := _rtapi_shmem_new be k m total (shm s) in
  let gp := _rtapi_shmem_getptr be (fst nb) (snd nb) in
  let all_succeed :=
    (i < RTAPI_MAX_RINGS cfg)%nat /\ 0 <= fst nb /\ fst (fst gp) = 0 in
  exists r s' t,
    _rtapi_ring_new cfg be size sp m flags s = Some (r, s', t) /\
    commit_is_last t = true /\
    (writes_tag t = true <-> all_succeed) /\
    (0 <= r <-> all_succeed) /\
    (all_succeed ->
     r = Z.of_nat i /\ committed cfg (slot (ring_array s') i) /\
     exists pre,
       t = pre ++ [EvSlotWrite i Fmagic; EvMutexGive RingMutex] /\
       writes_tag pre = false /\
       In (EvShmemNew k m total (fst nb)) pre /\
       In (EvShmemGetptr (fst nb) 0) pre) /\
    (~ all_succeed ->
     r = - ENOMEM /\ writes_tag t = false /\
     (forall j, magic (slot (ring_array s') j) = magic (slot (ring_array s) j))) /\
    (r < 0 ->
     r = - ENOMEM /\ writes_tag t = false /\
     (forall j, magic (slot (ring_array s') j) = magic (slot (ring_array s) j)) /\
     (forall j, (j < RTAPI_MAX_RINGS cfg)%nat ->
                ~ committed cfg (slot (ring_array s) j) ->
                ~ committed cfg (slot (ring_array s') j))) /\
    (0 <= r ->
     writes_tag t = true /\ committed cfg (slot (ring_array s') (Z.to_nat r))).
Proof.
  intros Hm Hwf i k total nb gp all_succeed.
  destruct (ring_new_spec cfg be size sp m flags s Hm Hwf)
    as (r & s' & t & Hcall & _ & Hlast & Hcases).
  destruct (ring_new_order cfg be size sp m flags s Hm Hwf)
    as (r' & s'' & t' & Hcall' & Hord).
  rewrite Hcall in Hcall'. injection Hcall' as <- <- <-.
  fold i k total nb gp in Hcases, Hord.
  exists r, s', t. split; [exact Hcall|]. split; [exact Hlast|].
  unfold wf_state in Hwf. subst all_succeed.
  assert (Hneg : - ENOMEM < 0) by (unfold ENOMEM; lia).
  destruct Hcases as [(Hi & -> & -> & Hw & _)
                     |[(Hi & Hnb & -> & Hw & ->)
                      |[(Hi & Hnb & Hgp & -> & Hw & ->)
                       |(Hi & Hnb & Hgp & -> & Hw & ->)]]];
    cbn [ring_array].
  - rewrite Hw. repeat split; intros; try lia; try tauto; try discriminate.
  - rewrite Hw.
    assert (Hmag : forall j, magic (slot (<[i := mk_ring_data (magic (slot (ring_array s) i))
                      k m (fst nb) (bitmap (slot (ring_array s) i))
                      (count (slot (ring_array s) i))]> (ring_array s)) j)
                   = magic (slot (ring_array s) j))
      by (apply (slot_insert_field magic); reflexivity).
    repeat split; intros; try lia; try tauto; try discriminate; try apply Hmag.
    unfold committed in *. rewrite Hmag. assumption.
  - rewrite Hw.
    assert (Hmag : forall j, magic (slot (<[i := mk_ring_data (magic (slot (ring_array s) i))
                      k m (fst nb) (bitmap (slot (ring_array s) i))
                      (count (slot (ring_array s) i))]> (ring_array s)) j)
                   = magic (slot (ring_array s) j))
      by (apply (slot_insert_field magic); reflexivity).
    repeat split; intros; try lia; try tauto; try discriminate; try apply Hmag.
    unfold committed in *. rewrite Hmag. assumption.
  - rewrite Hw.
    destruct Hord as [(Hx & _)|[(_ & Hx & _)|[(_ & _ & Hx & _)
                     |(_ & _ & _ & _ & _ & _ & pre & Ht & Hpre & Hin1 & Hin2 & _)]]];
      [lia|lia|contradiction|].
    assert (Hc : committed cfg (slot (<[i := mk_ring_data (RING_MAGIC cfg) k m (fst nb)
                      (set_bit m (bitmap (slot (ring_array s) i)))
                      (count (slot (ring_array s) i))]> (ring_array s)) i))
      by (rewrite slot_insert_eq by lia; reflexivity).
    split; [tauto|]. split; [split; [tauto|lia]|].
    split.
    { intros _. split; [reflexivity|]. split; [exact Hc|].
      exists pre. auto. }
    split; [tauto|]. split; [lia|].
    intros _. split; [reflexivity|]. rewrite Nat2Z.id. exact Hc.
Qed.

(** C3, as the code has it.  A failed Create changes no slot's validity
    tag, attacher bitmap or count, changes no slot other than the one the
    scan stopped at, and leaves the local address cache alone.  When no
    slot is free nothing at all is changed.  On a backend failure the
    slot the scan stopped at has got the derived key, the caller's module
    id as owner and the value [_rtapi_shmem_new] returned as segment id. *)
Theorem failed_create_frame size sp m flags s :
  ring_mutex s = false -> wf_state cfg s ->
  exists r s' t,
    _rtapi_ring_new cfg be size sp m flags s = Some (r, s', t) /\
    (r < 0 ->
     let i := first_free cfg (RTAPI_MAX_RINGS cfg) 0 (ring_array s) in
     let k := RTAPI_RING_SHM_KEY cfg + Z.of_nat i in
     (forall j, magic (slot (ring_array s') j) = magic (slot (ring_array s) j) /\
                bitmap (slot (ring_array s') j) = bitmap (slot (ring_array s) j) /\
                count (slot (ring_array s') j) = count (slot (ring_array s) j)) /\
     (forall j, j <> i -> slot (ring_array s') j = slot (ring_array s) j) /\
     ring_addr_array s' = ring_addr_array s /\
     (i = RTAPI_MAX_RINGS cfg -> s' = s) /\
     ((i < RTAPI_MAX_RINGS cfg)%nat ->
      key (slot (ring_array s') i) = k /\
      owner (slot (ring_array s') i) = m /\
      shmem_id (slot (ring_array s') i) =
        fst (_rtapi_shmem_new be k m (rtapi_ring_memsize cfg flags size sp) (shm s)))).
Proof.
  intros Hm Hwf.
  destruct (ring_new_spec cfg be size sp m flags s Hm Hwf)
    as (r & s' & t & Hcall & _ & _ & Hcases).
  exists r, s', t. split; [exact Hcall|]. intros Hr i k.
  unfold wf_state in Hwf. fold i in Hcases. fold k in Hcases.
  destruct Hcases as [(Hi & -> & -> & _)
                     |[(Hi & Hnb & -> & _ & ->)
                      |[(Hi & Hnb & Hgp & -> & _ & ->)
                       |(Hi & Hnb & Hgp & -> & _ & ->)]]];
    cbn [ring_array ring_addr_array]; try lia.
  - repeat split; auto; lia.
  - repeat split; auto; try lia;
      try (apply (slot_insert_field magic); reflexivity);
      try (apply (slot_insert_field bitmap); reflexivity);
      try (apply (slot_insert_field count); reflexivity);
      try (intros j Hj; apply slot_insert_ne; auto);
      try (rewrite slot_insert_eq by lia; reflexivity).
  - repeat split; auto; try lia;
      try (apply (slot_insert_field magic); reflexivity);
      try (apply (slot_insert_field bitmap); reflexivity);
      try (apply (slot_insert_field count); reflexivity);
      try (intros j Hj; apply slot_insert_ne; auto);
      try (rewrite slot_insert_eq by lia; reflexivity).
Qed.

(** What one Create does to the tags, for reasoning about sequences. *)
Lemma ring_new_step size sp m flags s :
  ring_mutex s = false -> wf_state cfg s ->
  let i := first_free cfg (RTAPI_MAX_RINGS cfg) 0 (ring_array s) in
  exists r s' t,
    _rtapi_ring_new cfg be size sp m flags s = Some (r, s', t) /\
    ring_mutex s' = false /\ mutex s' = mutex s /\ wf_state cfg s' /\
    (forall j, j <> i -> slot (ring_array s') j = slot (ring_array s) j) /\
    ((r = - ENOMEM /\
      (i = RTAPI_MAX_RINGS cfg -> ring_array s' = ring_array s /\
         In (EvMsg "rtapi_ring_new failed due to RTAPI_MAX_RINGS exceeded") t) /\
      magic (slot (ring_array s') i) = magic (slot (ring_array s) i) /\
      bitmap (slot (ring_array s') i) = bitmap (slot (ring_array s) i))
     \/ (r = Z.of_nat i /\ (i < RTAPI_MAX_RINGS cfg)%nat /\
         magic (slot (ring_array s') i) = RING_MAGIC cfg /\
         bitmap (slot (ring_array s') i) = set_bit m (bitmap (slot (ring_array s) i)))).
Proof.
  intros Hm Hwf i.
  destruct (ring_new_spec cfg be size sp m flags s Hm Hwf)
    as (r & s' & t & Hcall & _ & _ & Hcases).
  exists r, s', t. split; [exact Hcall|].
  unfold wf_state in *. fold i in Hcases.
  destruct Hcases as [(Hi & -> & -> & _ & Hin)
                     |[(Hi & Hnb & -> & _ & ->)
                      |[(Hi & Hnb & Hgp & -> & _ & ->)
                       |(Hi & Hnb & Hgp & -> & _ & ->)]]];
    cbn [ring_array ring_addr_array ring_mutex mutex];
    rewrite ?length_insert;
    (split; [first [exact Hm | reflexivity]|]);
    (split; [reflexivity|]); (split; [exact Hwf|]);
    (split; [intros j Hj; try reflexivity; apply slot_insert_ne; auto|]).
  - left. repeat split; auto.
  - left. rewrite slot_insert_eq by lia. repeat split; auto; lia.
  - left. rewrite slot_insert_eq by lia. repeat split; auto; lia.
  - right. rewrite slot_insert_eq by lia. repeat split; auto.
Qed.

(** Successive Creates on a table whose committed slots are exactly the
    first [k]. *)
Lemma create_many_prefix l :
  forall k s,
    ring_mutex s = false -> wf_state cfg s ->
    (forall j, (j < k)%nat -> committed cfg (slot (ring_array s) j)) ->
    (forall j, (k <= j < RTAPI_MAX_RINGS cfg)%nat ->
               ~ committed cfg (slot (ring_array s) j)) ->
    (k + length l <= RTAPI_MAX_RINGS cfg)%nat ->
    exists rs s' t,
      create_many cfg be l s = Some (rs, s', t) /\
      ring_mutex s' = false /\ wf_state cfg s' /\
      (Forall (fun r => 0 <= r) rs ->
       rs = map Z.of_nat (seq k (length l)) /\
       (forall j, (j < k + length l)%nat -> committed cfg (slot (ring_array s') j)) /\
       (forall j, (k + length l <= j < RTAPI_MAX_RINGS cfg)%nat ->
                  ~ committed cfg (slot (ring_array s') j))).
Proof.
  induction l as [|a l IH]; intros k s Hm Hwf Hlow Hhigh Hlen.
  - exists [], s, []. cbn. rewrite Nat.add_0_r. repeat split; auto.
  - cbn [length] in Hlen.
    destruct (ring_new_step (ca_size a) (ca_sp_size a) (ca_module_id a)
                (ca_flags a) s Hm Hwf)
      as (r & s1 & t1 & Hcall & Hm1 & _ & Hwf1 & Hother & Hcase).
    assert (Hk : first_free cfg (RTAPI_MAX_RINGS cfg) 0 (ring_array s) = k).
    { apply first_free_at; [lia| |apply Hhigh; lia].
      intros j Hj. apply Hlow. lia. }
    rewrite Hk in Hother, Hcase.
    destruct Hcase as [(-> & _ & Hmag & _)|(-> & Hi & Hmag & _)].
    + destruct (IH k s1 Hm1 Hwf1) as (rs & s2 & t2 & Hmany & Hm2 & Hwf2 & _).
      * intros j Hj. unfold committed. rewrite Hother by lia. apply Hlow, Hj.
      * intros j Hj. unfold committed.
        destruct (Nat.eq_dec j k) as [->|Hne].
        -- rewrite Hmag. apply Hhigh. lia.
        -- rewrite Hother by lia. apply Hhigh. lia.
      * lia.
      * exists (- ENOMEM :: rs), s2, (t1 ++ t2 ++ []).
        split; [|split; [exact Hm2|split; [exact Hwf2|]]].
        -- cbn [create_many]. unfold bind, create. rewrite Hcall, Hmany. reflexivity.
        -- intros HF. inversion HF as [|? ? Hneg _]. unfold ENOMEM in Hneg. lia.
    + destruct (IH (S k) s1 Hm1 Hwf1) as (rs & s2 & t2 & Hmany & Hm2 & Hwf2 & Hrs).
      * intros j Hj. unfold committed.
        destruct (Nat.eq_dec j k) as [->|Hne]; [exact Hmag|].
        rewrite Hother by lia. apply Hlow. lia.
      * intros j Hj. unfold committed. rewrite Hother by lia. apply Hhigh. lia.
      * lia.
      * exists (Z.of_nat k :: rs), s2, (t1 ++ t2 ++ []).
        split; [|split; [exact Hm2|split; [exact Hwf2|]]].
        -- cbn [create_many]. unfold bind, create. rewrite Hcall, Hmany. reflexivity.
        -- intros HF. inversion HF as [|? ? _ HF']. subst.
           destruct (Hrs HF') as (-> & Hc & Hf).
           cbn [length seq map]. split; [reflexivity|].
           split; intros j Hj; [apply Hc|apply Hf]; lia.
Qed.

(** Successive Creates on a table whose committed slots are exactly the
    first [k], with a shared-memory layer that creates and maps every
    segment: all of them succeed, with the next indices in order. *)
Lemma create_many_succeeds l :
  forall k s (P : B -> Prop),
    ring_mutex s = false -> wf_state cfg s ->
    (forall j, (j < k)%nat -> committed cfg (slot (ring_array s) j)) ->
    (forall j, (k <= j < RTAPI_MAX_RINGS cfg)%nat ->
               ~ committed cfg (slot (ring_array s) j)) ->
    (k + length l <= RTAPI_MAX_RINGS cfg)%nat ->
    creation_succeeds be P -> P (shm s) ->
    exists s' t,
      create_many cfg be l s = Some (map Z.of_nat (seq k (length l)), s', t).
Proof.
  induction l as [|a l IH]; intros k s P Hm Hwf Hlow Hhigh Hlen HP HPs.
  - exists s, []. reflexivity.
  - cbn [length] in Hlen.
    assert (Hk : first_free cfg (RTAPI_MAX_RINGS cfg) 0 (ring_array s) = k).
    { apply first_free_at; [lia| |apply Hhigh; lia].
      intros j Hj. apply Hlow. lia. }
    destruct (HP (RTAPI_RING_SHM_KEY cfg + Z.of_nat k) (ca_module_id a)
                (rtapi_ring_memsize cfg (ca_flags a) (ca_size a) (ca_sp_size a))
                (shm s) HPs) as (Hnb & Hgp & HP1).
    pose proof (ring_new_succeeds cfg be (ca_size a) (ca_sp_size a) (ca_module_id a)
                  (ca_flags a) s Hm Hwf) as Hok.
    cbv zeta in Hok. rewrite Hk in Hok.
    destruct (Hok ltac:(lia) Hnb Hgp) as (s1 & t1 & Hcall & Hshm).
    destruct (ring_new_step (ca_size a) (ca_sp_size a) (ca_module_id a)
                (ca_flags a) s Hm Hwf)
      as (r & s1' & t1' & Hcall' & Hm1 & _ & Hwf1 & Hother & Hcase).
    rewrite Hcall in Hcall'. injection Hcall' as <- <- <-.
    rewrite Hk in Hother, Hcase.
    destruct Hcase as [(Hr & _)|(_ & Hi & Hmag & _)]; [unfold ENOMEM in Hr; lia|].
    destruct (IH (S k) s1 P Hm1 Hwf1) as (s2 & t2 & Hmany).
    + intros j Hj. unfold committed.
      destruct (Nat.eq_dec j k) as [->|Hne]; [exact Hmag|].
      rewrite Hother by lia. apply Hlow. lia.
    + intros j Hj. unfold committed. rewrite Hother by lia. apply Hhigh. lia.
    + lia.
    + exact HP.
    + rewrite Hshm. exact HP1.
    + exists s2, (t1 ++ t2 ++ []).
      cbn [create_many length seq map]. unfold bind, create.
      rewrite Hcall, Hmany. reflexivity.
Qed.

(** C4.  Create stops its scan at the lowest slot whose tag is not the
    magic constant; when there is one and both backend calls succeed it
    returns that index and commits the slot, and on a table with every
    slot committed it returns [-ENOMEM] with the message of the exhausted
    registry and leaves the table as it was.  From an empty table,
    [RTAPI_MAX_RINGS] Creates in a row, over a shared-memory layer that
    creates and maps every segment (or, for any layer, if they all
    succeed), return 0, 1, ..., [RTAPI_MAX_RINGS]-1 in this order and
    leave every slot committed; the Create after them returns [-ENOMEM]
    and leaves the table as it was. *)
Theorem create_lowest_free_then_exhausted a s0 l s a' :
  ring_mutex s0 = false -> wf_state cfg s0 ->
  ring_mutex s = false -> wf_state cfg s ->
  table_empty cfg (ring_array s) ->
  length l = RTAPI_MAX_RINGS cfg ->
  (let i := first_free cfg (RTAPI_MAX_RINGS cfg) 0 (ring_array s0) in
   let nb := _rtapi_shmem_new be (RTAPI_RING_SHM_KEY cfg + Z.of_nat i) (ca_module_id a)
               (rtapi_ring_memsize cfg (ca_flags a) (ca_size a) (ca_sp_size a))
               (shm s0) in
   let gp := _rtapi_shmem_getptr be (fst nb) (snd nb) in
   exists r s' t,
     create cfg be a s0 = Some (r, s', t) /\
     (forall j, (j < i)%nat -> committed cfg (slot (ring_array s0) j)) /\
     ((i < RTAPI_MAX_RINGS cfg)%nat -> ~ committed cfg (slot (ring_array s0) i)) /\
     ((i < RTAPI_MAX_RINGS cfg)%nat -> 0 <= fst nb -> fst (fst gp) = 0 ->
      r = Z.of_nat i /\ committed cfg (slot (ring_array s') i)) /\
     (table_full cfg (ring_array s0) ->
      r = - ENOMEM /\
      In (EvMsg "rtapi_ring_new failed due to RTAPI_MAX_RINGS exceeded") t /\
      ring_array s' = ring_array s0) /\
     (0 <= r ->
      exists i, r = Z.of_nat i /\ (i < RTAPI_MAX_RINGS cfg)%nat /\
        ~ committed cfg (slot (ring_array s0) i) /\
        (forall j, (j < i)%nat -> committed cfg (slot (ring_array s0) j)) /\
        committed cfg (slot (ring_array s') i))) /\
  (exists rs s' t,
     create_many cfg be l s = Some (rs, s', t) /\
     (forall P : B -> Prop, creation_succeeds be P -> P (shm s) ->
      rs = map Z.of_nat (seq 0 (RTAPI_MAX_RINGS cfg)) /\
      table_full cfg (ring_array s') /\
      exists s'' t',
        create cfg be a' s' = Some (- ENOMEM, s'', t') /\
        In (EvMsg "rtapi_ring_new failed due to RTAPI_MAX_RINGS exceeded") t' /\
        ring_array s'' = ring_array s') /\
     (Forall (fun r => 0 <= r) rs ->
      rs = map Z.of_nat (seq 0 (RTAPI_MAX_RINGS cfg)) /\
      table_full cfg (ring_array s') /\
      exists s'' t',
        create cfg be a' s' = Some (- ENOMEM, s'', t') /\
        In (EvMsg "rtapi_ring_new failed due to RTAPI_MAX_RINGS exceeded") t' /\
        ring_array s'' = ring_array s')).
Proof.
  intros Hm0 Hwf0 Hm Hwf Hempty Hlen. split.
  - intros i nb gp.
    destruct (ring_new_step (ca_size a) (ca_sp_size a) (ca_module_id a)
                (ca_flags a) s0 Hm0 Hwf0)
      as (r & s1 & t1 & Hcall & _ & _ & _ & _ & Hcase).
    fold i in Hcase.
    exists r, s1, t1. split; [exact Hcall|].
    assert (Hbelow : forall j, (j < i)%nat -> committed cfg (slot (ring_array s0) j)).
    { intros j Hj. apply (first_free_below cfg (RTAPI_MAX_RINGS cfg) 0). lia. }
    assert (Hfree : (i < RTAPI_MAX_RINGS cfg)%nat -> ~ committed cfg (slot (ring_array s0) i)).
    { intros Hi. apply first_free_free. lia. }
    split; [exact Hbelow|]. split; [exact Hfree|].
    split; [|split].
    + intros Hi Hnb Hgp.
      destruct (ring_new_succeeds cfg be (ca_size a) (ca_sp_size a) (ca_module_id a)
                  (ca_flags a) s0 Hm0 Hwf0 Hi Hnb Hgp) as (s2 & t2 & Hcall2 & _).
      unfold create in Hcall. rewrite Hcall2 in Hcall. injection Hcall as <- <- <-.
      split; [reflexivity|].
      destruct Hcase as [(Hr & _)|(_ & _ & Hmag & _)]; [unfold ENOMEM in Hr; lia|].
      exact Hmag.
    + intros Hfull.
      assert (Hff : i = RTAPI_MAX_RINGS cfg).
      { unfold i. rewrite first_free_full; [reflexivity|]. intros j Hj. apply Hfull. lia. }
      destruct Hcase as [(-> & Hex & _)|(_ & Hi & _)]; [|lia].
      destruct (Hex Hff) as [Hra Hin]. auto.
    + intros Hr.
      destruct Hcase as [(-> & _)|(-> & Hi & Hmag & _)]; [unfold ENOMEM in Hr; lia|].
      exists i. auto.
  - destruct (create_many_prefix l 0%nat s Hm Hwf)
      as (rs & s1 & t1 & Hmany & Hm1 & Hwf1 & Hrs).
    + intros j Hj. lia.
    + intros j Hj. apply Hempty. lia.
    + lia.
    + exists rs, s1, t1. split; [exact Hmany|].
      assert (Hold : Forall (fun r => 0 <= r) rs ->
                rs = map Z.of_nat (seq 0 (RTAPI_MAX_RINGS cfg)) /\
                table_full cfg (ring_array s1) /\
                exists s'' t',
                  create cfg be a' s1 = Some (- ENOMEM, s'', t') /\
                  In (EvMsg "rtapi_ring_new failed due to RTAPI_MAX_RINGS exceeded") t' /\
                  ring_array s'' = ring_array s1).
      { intros HF.
        destruct (Hrs HF) as (-> & Hfull & _). rewrite Hlen in *.
        split; [reflexivity|]. split; [exact Hfull|].
        destruct (ring_new_step (ca_size a') (ca_sp_size a') (ca_module_id a')
                    (ca_flags a') s1 Hm1 Hwf1)
          as (r & s2 & t2 & Hcall & _ & _ & _ & _ & Hcase).
        assert (Hff : first_free cfg (RTAPI_MAX_RINGS cfg) 0 (ring_array s1)
                      = RTAPI_MAX_RINGS cfg).
        { rewrite first_free_full; [reflexivity|]. intros j Hj. apply Hfull. lia. }
        rewrite Hff in Hcase.
        destruct Hcase as [(-> & Hex & _)|(_ & Hi & _)]; [|lia].
        destruct (Hex eq_refl) as [Hra Hin].
        exists s2, t2. auto. }
      split; [|exact Hold].
      intros P HP HPs. apply Hold.
      destruct (create_many_succeeds l 0%nat s P Hm Hwf) as (s2 & t2 & Hmany2);
        [intros j Hj; lia|intros j Hj; apply Hempty; lia|lia|exact HP|exact HPs|].
      rewrite Hmany in Hmany2. injection Hmany2 as -> _ _.
      apply List.Forall_forall. intros x Hx.
      apply in_map_iff in Hx as (n & <- & _). lia.
Qed.

End CreateClaims.

Section DetachClaims.

Context {B : Type}.
Variable cfg : rtapi_config.
Variable be : Backend B.

Implicit Types s : rtapi_state B.
Implicit Types ra : list ring_data.

(** Detach on a committed slot returns 0 whatever the module id, attached
    or not.  It clears the module's bit and nothing else in the bitmap,
    and the slot is free afterwards exactly when the loop of
    [_rtapi_ring_refcount], which looks at the positions below
    [RTAPI_MAX_RINGS] only, finds no bit in the new bitmap. *)
Theorem detach_committed_always_succeeds handle m s :
  RING_MAGIC cfg <> 0 ->
  mutex s = false -> wf_state cfg s ->
  0 <= handle < Z.of_nat (RTAPI_MAX_RINGS cfg) ->
  0 <= m ->
  committed cfg (slot (ring_array s) (Z.to_nat handle)) ->
  exists s' t,
    _rtapi_ring_detach cfg be handle m s = Some (0, s', t) /\
    let rd := slot (ring_array s) (Z.to_nat handle) in
    let rd' := slot (ring_array s') (Z.to_nat handle) in
    bitmap rd' = clear_bit m (bitmap rd) /\
    (forall k, test_bit k (bitmap rd') = test_bit k (bitmap rd) && negb (k =? m)) /\
    (~ committed cfg rd' <->
     count_bits (RTAPI_MAX_RINGS cfg) 0 (bitmap rd') = 0) /\
    (committed cfg rd' ->
     refcount_value cfg handle (ring_array s') =
     count_bits (RTAPI_MAX_RINGS cfg) 0 (bitmap rd')).
Proof.
  intros Hmagic Hm Hwf Hh Hmod Hc.
  destruct (ring_detach_spec cfg be handle m s Hm Hwf)
    as (r & s' & t & Hcall & _ & Hcases).
  unfold wf_state in Hwf.
  destruct Hcases as [(Hbad & _)
                     |[(_ & _ & Hcnt & -> & ->)
                      |(_ & _ & Hcnt & -> & _ & _ & ->)]].
  - exfalso. destruct Hbad as [?|[?|?]]; [lia|lia|contradiction].
  - eexists; exists t. split; [exact Hcall|]. cbn [ring_array].
    rewrite slot_insert_eq by lia. cbn [bitmap].
    split; [reflexivity|]. split; [intros k; apply test_clear_bit; exact Hmod|].
    unfold committed at 1 2. cbn [magic]. split; [tauto|].
    intros _. rewrite refcount_value_committed; [|lia|].
    + rewrite slot_insert_eq by lia. reflexivity.
    + rewrite slot_insert_eq by lia. exact Hc.
  - eexists; exists t. split; [exact Hcall|]. cbn [ring_array].
    rewrite slot_insert_eq by lia. cbn [bitmap].
    split; [reflexivity|]. split; [intros k; apply test_clear_bit; exact Hmod|].
    unfold committed at 1 2. cbn [magic]. split; [split; auto|].
    intros E. exfalso. apply Hmagic. symmetry. exact E.
Qed.

Lemma count_bits_single n i m :
  0 <= m ->
  count_bits n i (set_bit m 0) =
  if (i <=? m) && (m <? i + Z.of_nat n) then 1 else 0.
Proof.
  intros Hm. revert i; induction n as [|n IH]; intros i.
  - cbn [count_bits]. destruct (Z.leb_spec i m), (Z.ltb_spec m (i + Z.of_nat 0)); cbn; lia.
  - cbn [count_bits]. rewrite IH, test_set_bit by exact Hm.
    unfold test_bit. rewrite Z.testbit_0_l. cbn [orb].
    destruct (Z.eqb_spec i m), (Z.leb_spec i m), (Z.leb_spec (i + 1) m),
      (Z.ltb_spec m (i + Z.of_nat (S n))), (Z.ltb_spec m (i + 1 + Z.of_nat n));
      cbn; lia.
Qed.

Lemma refcount_value_ext h ra ra' :
  magic (slot ra' (Z.to_nat h)) = magic (slot ra (Z.to_nat h)) ->
  bitmap (slot ra' (Z.to_nat h)) = bitmap (slot ra (Z.to_nat h)) ->
  refcount_value cfg h ra' = refcount_value cfg h ra.
Proof.
  intros Hmag Hbm. unfold refcount_value. rewrite Hmag, Hbm. reflexivity.
Qed.

(** C5.  When the module that detaches is the only attacher of a
    committed slot, Detach returns 0, calls [_rtapi_shmem_delete] on the
    slot's segment and owner, logs a message if that call fails (and
    still returns 0), and clears the tag.  After that, Refcount and a
    second Detach on the handle return [-EINVAL], and a Create whose
    backend calls succeed returns the same handle again when no lower
    slot is free. *)
Theorem last_detach_frees_slot handle m s a :
  RING_MAGIC cfg <> 0 ->
  quiescent s -> wf_state cfg s ->
  0 <= handle < Z.of_nat (RTAPI_MAX_RINGS cfg) ->
  0 <= m ->
  committed cfg (slot (ring_array s) (Z.to_nat handle)) ->
  (forall k, 0 <= k ->
     (attached k (slot (ring_array s) (Z.to_nat handle)) <-> k = m)) ->
  let h := Z.to_nat handle in
  let rd := slot (ring_array s) h in
  let dl := _rtapi_shmem_delete be (shmem_id rd) (owner rd) (shm s) in
  exists s1 t1,
    _rtapi_ring_detach cfg be handle m s = Some (0, s1, t1) /\
    In (EvShmemDelete (shmem_id rd) (owner rd) (fst dl)) t1 /\
    shm s1 = snd dl /\
    (fst dl <> 0 ->
     In (EvMsg "_rtapi_ring_detach: rtapi_shmem_delete failed") t1) /\
    ~ committed cfg (slot (ring_array s1) h) /\
    (exists s2 t2, _rtapi_ring_refcount cfg handle s1 = Some (- EINVAL, s2, t2)) /\
    (exists s2 t2, _rtapi_ring_detach cfg be handle m s1 = Some (- EINVAL, s2, t2)) /\
    ((forall j, (j < h)%nat -> committed cfg (slot (ring_array s1) j)) ->
     let nb := _rtapi_shmem_new be (RTAPI_RING_SHM_KEY cfg + handle) (ca_module_id a)
                 (rtapi_ring_memsize cfg (ca_flags a) (ca_size a) (ca_sp_size a))
                 (shm s1) in
     0 <= fst nb ->
     fst (fst (_rtapi_shmem_getptr be (fst nb) (snd nb))) = 0 ->
     exists s2 t2, create cfg be a s1 = Some (handle, s2, t2)).
Proof.
  intros Hmagic [Hrm Hm] Hwf Hh Hmod Hc Hsole h rd dl.
  assert (Hzero : count_bits (RTAPI_MAX_RINGS cfg) 0 (clear_bit m (bitmap rd)) = 0).
  { apply count_bits_zero. intros k Hk. rewrite test_clear_bit by exact Hmod.
    destruct (Z.eqb_spec k m) as [->|Hne]; [apply andb_false_r|].
    rewrite andb_true_r. destruct (test_bit k (bitmap rd)) eqn:E; [|reflexivity].
    exfalso. apply Hne. apply Hsole; [lia|exact E]. }
  destruct (ring_detach_spec cfg be handle m s Hm Hwf)
    as (r & s1 & t1 & Hcall & _ & Hcases).
  fold h rd dl in Hcases.
  destruct Hcases as [(Hbad & _)
                     |[(_ & _ & Hcnt & _)
                      |(_ & _ & _ & -> & Hdel & Hmsg & ->)]].
  { exfalso. destruct Hbad as [?|[?|?]]; [lia|lia|contradiction]. }
  { contradiction. }
  unfold wf_state in Hwf.
  assert (Hhl : (h < length (ring_array s))%nat) by (unfold h; lia).
  eexists; exists t1. split; [exact Hcall|].
  split; [exact Hdel|]. split; [reflexivity|]. split; [exact Hmsg|].
  cbn [ring_array shm].
  assert (Hfree : ~ committed cfg
            (slot (<[h := mk_ring_data 0 (key rd) (owner rd) (shmem_id rd)
                                       (clear_bit m (bitmap rd)) (count rd)]>
                     (ring_array s)) h)).
  { rewrite slot_insert_eq by exact Hhl. unfold committed. cbn [magic]. congruence. }
  split; [exact Hfree|].
  split.
  { do 2 eexists. rewrite refcount_eq by reflexivity. cbn [ring_array].
    rewrite refcount_value_invalid by (right; right; exact Hfree). reflexivity. }
  split.
  { match goal with |- context [_rtapi_ring_detach _ _ _ _ ?st] =>
      assert (Hwf1 : wf_state cfg st)
        by (unfold wf_state; cbn [ring_array]; rewrite length_insert; exact Hwf);
      destruct (ring_detach_spec cfg be handle m st eq_refl Hwf1)
        as (r2 & s2 & t2 & Hcall2 & _ & Hc2)
    end.
    cbn [ring_array] in Hc2. fold h in Hc2.
    destruct Hc2 as [(_ & -> & _)|[(_ & Hcc & _)|(_ & Hcc & _)]];
      [eauto|contradiction|contradiction]. }
  intros Hlow Hnb Hgp.
  match goal with |- context [create _ _ _ ?st] =>
    assert (Hwf1 : wf_state cfg st)
      by (unfold wf_state; cbn [ring_array]; rewrite length_insert; exact Hwf);
    pose proof (ring_new_spec cfg be (ca_size a) (ca_sp_size a) (ca_module_id a)
                  (ca_flags a) st eq_refl Hwf1) as Hnew
  end.
  cbv zeta in Hnew. cbn [ring_array shm] in Hnew.
  rewrite (first_free_at cfg (RTAPI_MAX_RINGS cfg) 0 h) in Hnew;
    [|lia|intros j Hj; apply Hlow; lia|exact Hfree].
  replace (Z.of_nat h) with handle in Hnew by (unfold h; lia).
  destruct Hnew as (r2 & s2 & t2 & Hcall2 & _ & _ & Hcases).
  destruct Hcases as [(Hi & _)|[(_ & Hx & _)|[(_ & _ & Hx & _)|(_ & _ & _ & -> & _)]]];
    [lia|lia|contradiction|].
  exists s2, t2. exact Hcall2.
Qed.

(** C6, the code at the failing input.  A module whose id is not below
    [RTAPI_MAX_RINGS] creates a ring in a slot whose bitmap was empty:
    the attacher set then has exactly that one member, and Refcount on
    the new handle returns 0. *)
Theorem refcount_misses_module_above_max_rings size sp m flags s :
  quiescent s -> wf_state cfg s ->
  Z.of_nat (RTAPI_MAX_RINGS cfg) <= m <= Z.of_nat (RTAPI_MAX_MODULES cfg) ->
  let i := first_free cfg (RTAPI_MAX_RINGS cfg) 0 (ring_array s) in
  bitmap (slot (ring_array s) i) = 0 ->
  forall r s1 t1,
    _rtapi_ring_new cfg be size sp m flags s = Some (r, s1, t1) ->
    0 <= r ->
    attached m (slot (ring_array s1) (Z.to_nat r)) /\
    attachers_card cfg (slot (ring_array s1) (Z.to_nat r)) = 1 /\
    exists s2 t2, _rtapi_ring_refcount cfg r s1 = Some (0, s2, t2).
Proof.
  intros [Hrm Hm] Hwf Hmod i Hbm r s1 t1 Hcall Hr.
  destruct (ring_new_step cfg be size sp m flags s Hrm Hwf)
    as (r' & s' & t' & Hcall' & _ & Hm1 & Hwf1 & _ & Hcase).
  rewrite Hcall in Hcall'. injection Hcall' as <- <- <-.
  fold i in Hcase.
  destruct Hcase as [(-> & _)|(-> & Hi & Hmag & Hbit)]; [unfold ENOMEM in Hr; lia|].
  rewrite Nat2Z.id. rewrite Hbm in Hbit.
  unfold attached, attachers_card. rewrite Hbit.
  split; [rewrite test_set_bit by lia; rewrite Z.eqb_refl; apply orb_true_r|].
  split.
  - rewrite count_bits_single by lia.
    destruct (Z.leb_spec 0 m), (Z.ltb_spec m (0 + Z.of_nat (S (RTAPI_MAX_MODULES cfg))));
      cbn; lia.
  - do 2 eexists. rewrite refcount_eq by congruence.
    rewrite refcount_value_committed; [|lia|rewrite Nat2Z.id; exact Hmag].
    rewrite Nat2Z.id, Hbit, count_bits_single by lia.
    destruct (Z.leb_spec 0 m), (Z.ltb_spec m (0 + Z.of_nat (RTAPI_MAX_RINGS cfg)));
      cbn; try lia. reflexivity.
Qed.

(** C10, the code at the failing input.  Two modules have a ring
    attached, one of them with an id that is not below [RTAPI_MAX_RINGS].
    When the other one detaches, Detach returns 0, deletes the segment
    and frees the slot, although the attacher set still has a member:
    the count Detach takes from [_rtapi_ring_refcount] is 0 where the
    set has one element. *)
Theorem detach_frees_slot_still_attached handle m m' s :
  RING_MAGIC cfg <> 0 ->
  mutex s = false -> wf_state cfg s ->
  0 <= handle < Z.of_nat (RTAPI_MAX_RINGS cfg) ->
  0 <= m ->
  Z.of_nat (RTAPI_MAX_RINGS cfg) <= m' <= Z.of_nat (RTAPI_MAX_MODULES cfg) ->
  m' <> m ->
  let h := Z.to_nat handle in
  let rd := slot (ring_array s) h in
  committed cfg rd ->
  attached m' rd ->
  (forall k, 0 <= k < Z.of_nat (RTAPI_MAX_RINGS cfg) -> attached k rd -> k = m) ->
  exists s' t,
    _rtapi_ring_detach cfg be handle m s = Some (0, s', t) /\
    let rd' := slot (ring_array s') h in
    attached m' rd' /\
    1 <= attachers_card cfg rd' /\
    ~ committed cfg rd' /\
    In (EvShmemDelete (shmem_id rd) (owner rd)
          (fst (_rtapi_shmem_delete be (shmem_id rd) (owner rd) (shm s)))) t /\
    exists s2 t2, _rtapi_ring_refcount cfg handle s' = Some (- EINVAL, s2, t2).
Proof.
  intros Hmagic Hm Hwf Hh Hmod Hm' Hne h rd Hc Hatt Hsole.
  assert (Hzero : count_bits (RTAPI_MAX_RINGS cfg) 0 (clear_bit m (bitmap rd)) = 0).
  { apply count_bits_zero. intros k Hk. rewrite test_clear_bit by exact Hmod.
    destruct (Z.eqb_spec k m) as [->|Hkm]; [apply andb_false_r|].
    rewrite andb_true_r. destruct (test_bit k (bitmap rd)) eqn:E; [|reflexivity].
    exfalso. apply Hkm. apply Hsole; [lia|exact E]. }
  destruct (ring_detach_spec cfg be handle m s Hm Hwf)
    as (r & s1 & t1 & Hcall & _ & Hcases).
  fold h rd in Hcases.
  destruct Hcases as [(Hbad & _)
                     |[(_ & _ & Hcnt & _)
                      |(_ & _ & _ & -> & Hdel & _ & ->)]].
  { exfalso. destruct Hbad as [?|[?|?]]; [lia|lia|contradiction]. }
  { contradiction. }
  unfold wf_state in Hwf.
  assert (Hhl : (h < length (ring_array s))%nat) by (unfold h; lia).
  eexists; exists t1. split; [exact Hcall|].
  cbn [ring_array]. rewrite slot_insert_eq by exact Hhl.
  assert (Hbit : test_bit m' (clear_bit m (bitmap rd)) = true).
  { rewrite test_clear_bit by exact Hmod. unfold attached in Hatt. rewrite Hatt.
    destruct (Z.eqb_spec m' m); [contradiction|reflexivity]. }
  split; [exact Hbit|].
  split.
  { unfold attachers_card. cbn [bitmap].
    apply (count_bits_pos_of m'); [lia|exact Hbit]. }
  assert (Hfree : ~ committed cfg
            (mk_ring_data 0 (key rd) (owner rd) (shmem_id rd)
                          (clear_bit m (bitmap rd)) (count rd))).
  { unfold committed. cbn [magic]. congruence. }
  split; [exact Hfree|]. split; [exact Hdel|].
  do 2 eexists. rewrite refcount_eq by reflexivity. cbn [ring_array].
  rewrite refcount_value_invalid; [reflexivity|].
  right; right. fold h. rewrite slot_insert_eq by exact Hhl. exact Hfree.
Qed.

End DetachClaims.

Section AttachClaims.

Context {B : Type}.
Variable cfg : rtapi_config.
Variable be : Backend B.

Implicit Types s : rtapi_state B.
Implicit Types ra : list ring_data.

(** What one Attach does to the table, for reasoning about sequences. *)
Lemma ring_attach_step handle m p0 s :
  ring_mutex s = false -> wf_state cfg s ->
  let h := Z.to_nat handle in
  exists r s' t,
    _rtapi_ring_attach cfg be handle m p0 s = Some (r, s', t) /\
    ring_mutex s' = false /\ mutex s' = mutex s /\ wf_state cfg s' /\
    (forall j, j <> h -> slot (ring_array s') j = slot (ring_array s) j) /\
    ((r <> 0 /\
      magic (slot (ring_array s') h) = magic (slot (ring_array s) h) /\
      bitmap (slot (ring_array s') h) = bitmap (slot (ring_array s) h))
     \/ (r = 0 /\ 0 <= handle < Z.of_nat (RTAPI_MAX_RINGS cfg) /\
         committed cfg (slot (ring_array s') h) /\
         bitmap (slot (ring_array s') h) = set_bit m (bitmap (slot (ring_array s) h)))).
Proof.
  intros Hm Hwf h.
  destruct (ring_attach_spec cfg be handle m p0 s Hm Hwf)
    as (r & s' & t & Hcall & _ & Hcases).
  exists r, s', t. split; [exact Hcall|].
  unfold wf_state in *. fold h in Hcases.
  assert (Hne : - EINVAL <> 0 /\ - ENOMEM <> 0) by (unfold EINVAL, ENOMEM; lia).
  destruct Hne as [Hne1 Hne2].
  destruct Hcases as [(Hbad & -> & ->)|(Hh & Hcases)].
  { repeat split; auto. }
  assert (Hhl : (h < length (ring_array s))%nat) by (unfold h; lia).
  destruct Hcases as [(Hc & _ & _ & -> & ->)
                     |[(Hc & _ & _ & -> & ->)
                      |[(Hc & _ & _ & -> & -> & _)
                       |[(Hc & _ & _ & -> & ->)
                        |[(Hc & _ & -> & -> & _)
                         |[(Hc & _ & _ & -> & -> & _)
                          |[(Hc & _ & _ & _ & -> & ->)
                           |[(Hc & _ & _ & _ & _ & -> & ->)
                            |(Hc & _ & _ & _ & _ & -> & ->)]]]]]]]];
    cbn [ring_array ring_addr_array ring_mutex mutex];
    rewrite ?length_insert;
    (split; [first [exact Hm | reflexivity]|]);
    (split; [reflexivity|]); (split; [exact Hwf|]);
    (split; [intros j Hj; try reflexivity; apply slot_insert_ne; auto|]);
    rewrite ?slot_insert_eq by exact Hhl;
    first [ left; split; [assumption|split; reflexivity]
          | right; split; [reflexivity|split; [exact Hh|split; [|reflexivity]]] ].
  - exact Hc.
  - exact Hc.
  - reflexivity.
Qed.

(** C7.  After a successful Attach of module [m] to a committed handle,
    attaching [m] again, whether that call succeeds or fails, leaves the
    bitmap of every slot as it was, and Refcount on the handle returns
    the same value before and after the second Attach. *)
Theorem attach_twice_same_refcount handle m p0 p1 s s1 t1 :
  quiescent s -> wf_state cfg s ->
  0 <= handle < Z.of_nat (RTAPI_MAX_RINGS cfg) ->
  committed cfg (slot (ring_array s) (Z.to_nat handle)) ->
  _rtapi_ring_attach cfg be handle m p0 s = Some (0, s1, t1) ->
  exists r2 s2 t2,
    _rtapi_ring_attach cfg be handle m p1 s1 = Some (r2, s2, t2) /\
    (forall j, bitmap (slot (ring_array s2) j) = bitmap (slot (ring_array s1) j)) /\
    exists c ta tb,
      _rtapi_ring_refcount cfg handle s1 = Some (c, s1, ta) /\
      _rtapi_ring_refcount cfg handle s2 = Some (c, s2, tb).
Proof.
  intros [Hrm Hm] Hwf Hh Hc Hcall1.
  destruct (ring_attach_step handle m p0 s Hrm Hwf)
    as (r' & s' & t' & Hcall' & Hrm1 & Hm1 & Hwf1 & _ & Hcase1).
  rewrite Hcall1 in Hcall'. injection Hcall' as <- <- <-.
  destruct Hcase1 as [(Hr & _)|(_ & _ & Hc1 & Hbm1)]; [contradiction|].
  destruct (ring_attach_step handle m p1 s1 Hrm1 Hwf1)
    as (r2 & s2 & t2 & Hcall2 & Hrm2 & Hm2 & Hwf2 & Hother & Hcase2).
  assert (Hbm : bitmap (slot (ring_array s2) (Z.to_nat handle))
                = bitmap (slot (ring_array s1) (Z.to_nat handle))).
  { destruct Hcase2 as [(_ & _ & E)|(_ & _ & _ & E)]; [exact E|].
    rewrite E, Hbm1. apply set_bit_idem. }
  assert (Hmag : magic (slot (ring_array s2) (Z.to_nat handle))
                 = magic (slot (ring_array s1) (Z.to_nat handle))).
  { destruct Hcase2 as [(_ & E & _)|(_ & _ & E & _)]; [exact E|].
    unfold committed in *. congruence. }
  exists r2, s2, t2. split; [exact Hcall2|]. split.
  - intros j. destruct (Nat.eq_dec j (Z.to_nat handle)) as [->|Hne].
    + exact Hbm.
    + rewrite Hother by exact Hne. reflexivity.
  - do 3 eexists. rewrite !refcount_eq by congruence.
    rewrite (refcount_value_ext cfg handle (ring_array s1) (ring_array s2) Hmag Hbm).
    split; reflexivity.
Qed.

(** What one Detach does to the table. *)
Lemma ring_detach_step handle m s :
  mutex s = false -> wf_state cfg s ->
  let h := Z.to_nat handle in
  exists r s' t,
    _rtapi_ring_detach cfg be handle m s = Some (r, s', t) /\
    ring_mutex s' = false /\ mutex s' = false /\ wf_state cfg s' /\
    (forall j, j <> h -> slot (ring_array s') j = slot (ring_array s) j) /\
    (slot (ring_array s') h = slot (ring_array s) h
     \/ (magic (slot (ring_array s') h) = magic (slot (ring_array s) h) /\
         count_bits (RTAPI_MAX_RINGS cfg) 0 (bitmap (slot (ring_array s') h)) <> 0)
     \/ magic (slot (ring_array s') h) = 0).
Proof.
  intros Hm Hwf h.
  destruct (ring_detach_spec cfg be handle m s Hm Hwf)
    as (r & s' & t & Hcall & _ & Hcases).
  exists r, s', t. split; [exact Hcall|].
  unfold wf_state in *. fold h in Hcases.
  destruct Hcases as [(_ & -> & ->)
                     |[(Hh & _ & Hcnt & -> & ->)
                      |(Hh & _ & _ & -> & _ & _ & ->)]];
    cbn [ring_array ring_addr_array ring_mutex mutex];
    rewrite ?length_insert;
    (split; [reflexivity|]); (split; [reflexivity|]); (split; [exact Hwf|]);
    (split; [intros j Hj; try reflexivity; apply slot_insert_ne; auto|]).
  - left. reflexivity.
  - right; left. rewrite slot_insert_eq by (unfold h; lia). split; [reflexivity|exact Hcnt].
  - right; right. rewrite slot_insert_eq by (unfold h; lia). reflexivity.
Qed.

(** Calls that return were made with the lock they take free. *)
Lemma ring_new_returns size sp m flags s x :
  _rtapi_ring_new cfg be size sp m flags s = Some x -> ring_mutex s = false.
Proof.
  destruct s as [[|] mx ra la b]; [|reflexivity].
  unfold _rtapi_ring_new. unfold_prims. cbn. discriminate.
Qed.

Lemma ring_attach_returns handle m p0 s x :
  _rtapi_ring_attach cfg be handle m p0 s = Some x -> ring_mutex s = false.
Proof.
  destruct s as [[|] mx ra la b]; [|reflexivity].
  unfold _rtapi_ring_attach. unfold_prims. cbn. discriminate.
Qed.

Lemma ring_refcount_returns handle s x :
  _rtapi_ring_refcount cfg handle s = Some x -> mutex s = false.
Proof.
  destruct s as [rm [|] ra la b]; [|reflexivity].
  unfold _rtapi_ring_refcount. unfold_prims. cbn. discriminate.
Qed.

Lemma count_bits_witness n i bm :
  count_bits n i bm <> 0 ->
  exists k, i <= k < i + Z.of_nat n /\ test_bit k bm = true.
Proof.
  revert i; induction n as [|n IH]; intros i; cbn [count_bits]; [congruence|].
  destruct (test_bit i bm) eqn:E.
  - intros _. exists i. split; [lia|exact E].
  - intros H. destruct (IH (i + 1)) as (k & Hk & Hb); [exact H|].
    exists k. split; [lia|exact Hb].
Qed.

(** The invariant behind C8: the table has its size, no lock is left
    held, and every committed slot has a bit set at a position the
    refcount loop looks at. *)
Lemma committed_nonempty_step c s r s' t :
  RING_MAGIC cfg <> 0 ->
  module_counted cfg c ->
  do_call cfg be c s = Some (r, s', t) ->
  quiescent s -> wf_state cfg s ->
  (forall j, (j < RTAPI_MAX_RINGS cfg)%nat ->
     committed cfg (slot (ring_array s) j) ->
     exists k, 0 <= k < Z.of_nat (RTAPI_MAX_RINGS cfg) /\
               attached k (slot (ring_array s) j)) ->
  quiescent s' /\ wf_state cfg s' /\
  (forall j, (j < RTAPI_MAX_RINGS cfg)%nat ->
     committed cfg (slot (ring_array s') j) ->
     exists k, 0 <= k < Z.of_nat (RTAPI_MAX_RINGS cfg) /\
               attached k (slot (ring_array s') j)).
Proof.
  intros Hmagic Hmod Hcall [Hrm Hm] Hwf Hinv.
  destruct c as [size sp m flags|handle m p0|handle|handle m]; cbn in Hcall, Hmod.
  - destruct (ring_new_step cfg be size sp m flags s Hrm Hwf)
      as (r' & s1 & t1 & Hcall' & Hrm1 & Hm1 & Hwf1 & Hother & Hcase).
    rewrite Hcall in Hcall'. injection Hcall' as <- <- <-.
    split; [split; congruence|]. split; [exact Hwf1|].
    intros j Hj Hc.
    destruct (Nat.eq_dec j (first_free cfg (RTAPI_MAX_RINGS cfg) 0 (ring_array s)))
      as [->|Hne].
    + destruct Hcase as [(_ & _ & Hmag & Hbm)|(_ & _ & _ & Hbm)].
      * unfold committed, attached in *. rewrite Hmag in Hc. rewrite Hbm.
        apply Hinv; assumption.
      * exists m. split; [exact Hmod|]. unfold attached. rewrite Hbm.
        rewrite test_set_bit by lia. rewrite Z.eqb_refl. apply orb_true_r.
    + rewrite Hother in Hc |- * by exact Hne. apply Hinv; assumption.
  - destruct (ring_attach_step handle m p0 s Hrm Hwf)
      as (r' & s1 & t1 & Hcall' & Hrm1 & Hm1 & Hwf1 & Hother & Hcase).
    rewrite Hcall in Hcall'. injection Hcall' as <- <- <-.
    split; [split; congruence|]. split; [exact Hwf1|].
    intros j Hj Hc.
    destruct (Nat.eq_dec j (Z.to_nat handle)) as [->|Hne].
    + destruct Hcase as [(_ & Hmag & Hbm)|(_ & _ & _ & Hbm)].
      * unfold committed, attached in *. rewrite Hmag in Hc. rewrite Hbm.
        apply Hinv; assumption.
      * exists m. split; [exact Hmod|]. unfold attached. rewrite Hbm.
        rewrite test_set_bit by lia. rewrite Z.eqb_refl. apply orb_true_r.
    + rewrite Hother in Hc |- * by exact Hne. apply Hinv; assumption.
  - rewrite refcount_eq in Hcall by exact Hm. injection Hcall as <- <- <-.
    split; [split; assumption|]. split; assumption.
  - destruct (ring_detach_step handle m s Hm Hwf)
      as (r' & s1 & t1 & Hcall' & Hrm1 & Hm1 & Hwf1 & Hother & Hcase).
    rewrite Hcall in Hcall'. injection Hcall' as <- <- <-.
    split; [split; congruence|]. split; [exact Hwf1|].
    intros j Hj Hc.
    destruct (Nat.eq_dec j (Z.to_nat handle)) as [->|Hne].
    + destruct Hcase as [E|[(Hmag & Hcnt)|Hz]].
      * rewrite E in Hc |- *. apply Hinv; assumption.
      * destruct (count_bits_witness _ _ _ Hcnt) as (k & Hk & Hbit).
        exists k. split; [lia|exact Hbit].
      * unfold committed in Hc. congruence.
    + rewrite Hother in Hc |- * by exact Hne. apply Hinv; assumption.
Qed.

(** C8.  In every state reached from an empty table by completed calls
    whose module ids are below [RTAPI_MAX_RINGS], every committed slot has
    an attached module (one the refcount loop counts); the table keeps
    its size and no lock is left held. *)
Theorem committed_slot_has_attacher s :
  RING_MAGIC cfg <> 0 ->
  reachable cfg be s ->
  forall j, (j < RTAPI_MAX_RINGS cfg)%nat ->
    committed cfg (slot (ring_array s) j) ->
    exists k, 0 <= k < Z.of_nat (RTAPI_MAX_RINGS cfg) /\
              attached k (slot (ring_array s) j).
Proof.
  intros Hmagic Hreach.
  enough (H : quiescent s /\ wf_state cfg s /\
              forall j, (j < RTAPI_MAX_RINGS cfg)%nat ->
                committed cfg (slot (ring_array s) j) ->
                exists k, 0 <= k < Z.of_nat (RTAPI_MAX_RINGS cfg) /\
                          attached k (slot (ring_array s) j))
    by (destruct H as (_ & _ & H); exact H).
  induction Hreach as [s Hq Hwf Hempty|s c r s' t Hreach IH Hmod Hcall].
  - split; [exact Hq|]. split; [exact Hwf|].
    intros j Hj Hc. exfalso. exact (Hempty j Hj Hc).
  - destruct IH as (Hq & Hwf & Hinv).
    exact (committed_nonempty_step c s r s' t Hmagic Hmod Hcall Hq Hwf Hinv).
Qed.

(** C1, as the code has it.  Create and Attach take
    [rtapi_data->ring_mutex] as their first step and give it back as
    their last step, on every path.  Refcount does the same with
    [rtapi_data->mutex]; it never takes [ring_mutex] and never gives it
    back, and leaves it as it found it. *)
Theorem create_attach_refcount_lock_scoped size sp m flags handle p0 s :
  quiescent s -> wf_state cfg s ->
  (exists r s' t,
     _rtapi_ring_new cfg be size sp m flags s = Some (r, s', t) /\
     lock_scoped RingMutex t = true /\ ring_mutex s' = false) /\
  (exists r s' t,
     _rtapi_ring_attach cfg be handle m p0 s = Some (r, s', t) /\
     lock_scoped RingMutex t = true /\ ring_mutex s' = false) /\
  (exists r s' t,
     _rtapi_ring_refcount cfg handle s = Some (r, s', t) /\
     lock_scoped RtapiMutex t = true /\ mutex s' = false /\
     lock_scoped RingMutex t = false /\
     existsb (is_get RingMutex) t = false /\
     existsb (is_give RingMutex) t = false /\
     ring_mutex s' = ring_mutex s).
Proof.
  intros [Hrm Hm] Hwf. split; [|split].
  - destruct (ring_new_spec cfg be size sp m flags s Hrm Hwf)
      as (r & s' & t & Hcall & Hlock & _).
    destruct (ring_new_step cfg be size sp m flags s Hrm Hwf)
      as (r' & s1 & t1 & Hcall' & Hrm1 & _).
    rewrite Hcall in Hcall'. injection Hcall' as <- <- <-.
    exists r, s', t. auto.
  - destruct (ring_attach_spec cfg be handle m p0 s Hrm Hwf)
      as (r & s' & t & Hcall & Hlock & _).
    destruct (ring_attach_step handle m p0 s Hrm Hwf)
      as (r' & s1 & t1 & Hcall' & Hrm1 & _).
    rewrite Hcall in Hcall'. injection Hcall' as <- <- <-.
    exists r, s', t. auto.
  - do 3 eexists. rewrite refcount_eq by exact Hm.
    split; [reflexivity|]. split; [apply refcount_trace_scoped|].
    split; [exact Hm|]. split; [reflexivity|].
    destruct (refcount_trace_off_ring_mutex cfg handle (ring_array s)) as [Hg Hv].
    auto.
Qed.

(** C9, as the code has it.  Failures come back as one of two values.
    [-EINVAL] is returned for a handle out of range (Attach, Refcount,
    Detach), for a slot that is not committed (Refcount, Detach) and, in
    the user-space build, by Attach when no segment exists for the
    handle.  [-ENOMEM] is returned by Create when no slot is free, when
    [_rtapi_shmem_new] fails and when [_rtapi_shmem_getptr] fails, and by
    Attach when one of these two calls fails on the user-space lookup,
    when the mapping fails in the kernel build, and when the resident
    mapping is missing. *)
Theorem failures_use_two_codes size sp m flags handle p0 s :
  quiescent s -> wf_state cfg s ->
  let h := Z.to_nat handle in
  let rd := slot (ring_array s) h in
  let in_range := 0 <= handle < Z.of_nat (RTAPI_MAX_RINGS cfg) in
  let k := RTAPI_RING_SHM_KEY cfg + handle in
  let i := first_free cfg (RTAPI_MAX_RINGS cfg) 0 (ring_array s) in
  let cnb := _rtapi_shmem_new be (RTAPI_RING_SHM_KEY cfg + Z.of_nat i) m
               (rtapi_ring_memsize cfg flags size sp) (shm s) in
  let cgp := _rtapi_shmem_getptr be (fst cnb) (snd cnb) in
  let anb := _rtapi_shmem_new be k m 0 (shm s) in
  let agp := _rtapi_shmem_getptr be (fst anb) (snd anb) in
  - EINVAL <> - ENOMEM /\
  (exists r s' t,
     _rtapi_ring_new cfg be size sp m flags s = Some (r, s', t) /\
     (r < 0 -> r = - ENOMEM) /\
     (i = RTAPI_MAX_RINGS cfg -> r = - ENOMEM) /\
     ((i < RTAPI_MAX_RINGS cfg)%nat -> fst cnb < 0 -> r = - ENOMEM) /\
     ((i < RTAPI_MAX_RINGS cfg)%nat -> 0 <= fst cnb -> fst (fst cgp) <> 0 ->
      r = - ENOMEM) /\
     ((i < RTAPI_MAX_RINGS cfg)%nat -> 0 <= fst cnb -> fst (fst cgp) = 0 ->
      0 <= r)) /\
  (exists r s' t,
     _rtapi_ring_attach cfg be handle m p0 s = Some (r, s', t) /\
     (r = 0 \/ r = - EINVAL \/ r = - ENOMEM) /\
     (~ in_range -> r = - EINVAL) /\
     (in_range -> ~ committed cfg rd -> BUILD_SYS_KBUILD (build cfg) = false ->
      shmget_absent be (OS_KEY cfg k) (shm s) = true -> r = - EINVAL) /\
     (in_range -> ~ committed cfg rd -> BUILD_SYS_KBUILD (build cfg) = false ->
      shmget_absent be (OS_KEY cfg k) (shm s) = false ->
      fst anb < 0 -> r = - ENOMEM) /\
     (in_range -> ~ committed cfg rd -> BUILD_SYS_KBUILD (build cfg) = false ->
      shmget_absent be (OS_KEY cfg k) (shm s) = false ->
      0 <= fst anb -> fst (fst agp) <> 0 -> r = - ENOMEM) /\
     (in_range -> committed cfg rd -> BUILD_SYS_KBUILD (build cfg) = true ->
      fst (fst (_rtapi_shmem_getptr be (shmem_id rd) (shm s))) <> 0 ->
      r = - ENOMEM) /\
     (in_range -> committed cfg rd -> BUILD_SYS_KBUILD (build cfg) = false ->
      default 0 (ring_addr_array s !! h) = 0 -> r = - ENOMEM)) /\
  (exists r t,
     _rtapi_ring_refcount cfg handle s = Some (r, s, t) /\
     (~ in_range \/ ~ committed cfg rd -> r = - EINVAL) /\
     (in_range -> committed cfg rd -> 0 <= r)) /\
  (exists r s' t,
     _rtapi_ring_detach cfg be handle m s = Some (r, s', t) /\
     (~ in_range \/ ~ committed cfg rd -> r = - EINVAL) /\
     (in_range -> committed cfg rd -> r = 0)).
Proof.
  intros [Hrm Hm] Hwf h rd in_range k i cnb cgp anb agp.
  split; [unfold EINVAL, ENOMEM; lia|].
  split; [|split; [|split]].
  - destruct (ring_new_spec cfg be size sp m flags s Hrm Hwf)
      as (r & s' & t & Hcall & _ & _ & Hcases).
    exists r, s', t. split; [exact Hcall|].
    fold i cnb cgp in Hcases.
    destruct Hcases as [(Hi & -> & _)
                       |[(Hi & Hnb & -> & _)
                        |[(Hi & Hnb & Hgp & -> & _)
                         |(Hi & Hnb & Hgp & -> & _)]]];
      repeat split; intros; try reflexivity; try contradiction; try lia.
  - destruct (ring_attach_spec cfg be handle m p0 s Hrm Hwf)
      as (r & s' & t & Hcall & _ & Hcases).
    exists r, s', t. split; [exact Hcall|].
    fold h rd k anb agp in Hcases. subst in_range.
    destruct Hcases as [(Hbad & -> & ->)|(Hh & Hcases)].
    { repeat split; auto; intros; lia. }
    destruct Hcases as [(Hc & Hk & Hx & -> & ->)
                       |[(Hc & Hk & Hx & -> & ->)
                        |[(Hc & Hk & Hx & -> & -> & _)
                         |[(Hc & Hk & Hx & -> & ->)
                          |[(Hc & Hk & -> & -> & _)
                           |[(Hc & Hk & Hx & -> & -> & _)
                            |[(Hc & Hk & Hx & Hy & -> & ->)
                             |[(Hc & Hk & Hx & Hy & Hz & -> & ->)
                              |(Hc & Hk & Hx & Hy & Hz & -> & ->)]]]]]]]];
      repeat split; auto; intros;
      try reflexivity; try contradiction; try congruence; try lia.
  - do 2 eexists. rewrite refcount_eq by exact Hm.
    split; [reflexivity|]. split.
    + intros Hbad. apply refcount_value_invalid. subst in_range.
      destruct Hbad as [Hbad|Hbad]; [lia|auto].
    + intros Hh Hc. rewrite refcount_value_committed by assumption.
      apply count_bits_nonneg.
  - destruct (ring_detach_spec cfg be handle m s Hm Hwf)
      as (r & s' & t & Hcall & _ & Hcases).
    exists r, s', t. split; [exact Hcall|].
    fold h rd in Hcases. subst in_range.
    destruct Hcases as [(Hbad & -> & _)
                       |[(Hh & Hc & _ & -> & _)
                        |(Hh & Hc & _ & -> & _)]].
    + split; [reflexivity|]. intros Hh Hc.
      destruct Hbad as [?|[?|?]]; [lia|lia|contradiction].
    + split; [|reflexivity]. intros [Hbad|Hbad]; [lia|contradiction].
    + split; [|reflexivity]. intros [Hbad|Hbad]; [lia|contradiction].
Qed.

End AttachClaims.

(** ** The claims on the small instance *)

Lemma small_magic_nonzero b : RING_MAGIC (small_cfg b) <> 0.
Proof. discriminate. Defined.

Lemma fresh_table_empty b sb :
  table_empty (small_cfg b) (ring_array (fresh_state sb)).
Proof.
  intros j Hj Hc. destruct j as [|[|j]]; [discriminate Hc|discriminate Hc|].
  cbn in Hj. lia.
Defined.

Lemma stub_works_creation_succeeds : creation_succeeds stub_backend stub_works.
Proof.
  intros k m size b (Hn & Hg & Hid). cbn.
  rewrite Hn. cbn. rewrite Hg. cbn.
  repeat split; cbn; try assumption; try reflexivity; lia.
Defined.

Lemma stub_ok_works : stub_works stub_ok.
Proof. repeat split. discriminate. Defined.

Lemma only_counted_attacher_1 k :
  0 <= k < 2 -> attached k (committed_slot 0x1000 1 0 10) -> k = 1.
Proof.
  intros Hk Ha.
  assert (Hc : k = 0 \/ k = 1) by lia.
  destruct Hc as [-> | ->]; [discriminate Ha|reflexivity].
Defined.

Lemma sole_attacher_1 k :
  0 <= k -> (attached k (committed_slot 0x1000 1 0 2) <-> k = 1).
Proof.
  intros Hk. unfold attached. cbn [bitmap committed_slot].
  change 2 with (set_bit 1 0). rewrite test_set_bit by lia.
  unfold test_bit. rewrite Z.testbit_0_l. cbn [orb].
  split; [apply Z.eqb_eq|intros ->; reflexivity].
Defined.

(** C1 fails for Detach and Refcount: on a table with one ring, Detach
    reads and writes slot 0 with no [rtapi_mutex_get] of the ring mutex
    anywhere in the call (its cleanup finds the mutex not set), and
    Refcount reads the slot under the other mutex. *)
Lemma detach_and_refcount_outside_ring_mutex :
  let cfg := small_cfg USER_DSO_ULAPI in
  let td := trace_of (_rtapi_ring_detach cfg stub_backend 0 3 (one_ring_state stub_ok)) in
  let tr := trace_of (_rtapi_ring_refcount cfg 0 (one_ring_state stub_ok)) in
  (lock_scoped RingMutex td = false /\
   existsb (is_get RingMutex) td = false /\
   existsb is_slot_access td = true /\
   In (EvMsg "ring_autorelease_mutex: mutex not set!") td) /\
  (lock_scoped RingMutex tr = false /\
   existsb (is_get RingMutex) tr = false /\
   existsb is_slot_access tr = true).
Proof.
  vm_compute. repeat split; try reflexivity.
  repeat (first [left; reflexivity | right]).
Qed.

Lemma create_attach_refcount_lock_scoped_witness :
  let cfg := small_cfg USER_DSO_ULAPI in
  let s := one_ring_state stub_ok in
  quiescent s /\ wf_state cfg s /\
  ((exists r s' t,
      _rtapi_ring_new cfg stub_backend 4096 0 3 0 s = Some (r, s', t) /\
      lock_scoped RingMutex t = true /\ ring_mutex s' = false) /\
   (exists r s' t,
      _rtapi_ring_attach cfg stub_backend 0 3 0 s = Some (r, s', t) /\
      lock_scoped RingMutex t = true /\ ring_mutex s' = false) /\
   (exists r s' t,
      _rtapi_ring_refcount cfg 0 s = Some (r, s', t) /\
      lock_scoped RtapiMutex t = true /\ mutex s' = false /\
      lock_scoped RingMutex t = false /\
      existsb (is_get RingMutex) t = false /\
      existsb (is_give RingMutex) t = false /\
      ring_mutex s' = ring_mutex s)).
Proof.
  intros cfg s.
  assert (Hq : quiescent s) by (split; reflexivity).
  assert (Hwf : wf_state cfg s) by reflexivity.
  split; [exact Hq|]. split; [exact Hwf|].
  exact (create_attach_refcount_lock_scoped cfg stub_backend 4096 0 3 0 0 0 s Hq Hwf).
Defined.

Lemma create_commits_tag_last_witness :
  let cfg := small_cfg USER_DSO_ULAPI in
  let be := stub_backend in
  let s := fresh_state stub_ok in
  let size := 4096 in
  let sp := 0 in
  let m := 1 in
  let flags := 0 in
  ring_mutex s = false /\ wf_state cfg s /\
  let i := first_free cfg (RTAPI_MAX_RINGS cfg) 0 (ring_array s) in
  let k := RTAPI_RING_SHM_KEY cfg + Z.of_nat i in
  let total := rtapi_ring_memsize cfg flags size sp in
  let nb := _rtapi_shmem_new be k m total (shm s) in
  let gp := _rtapi_shmem_getptr be (fst nb) (snd nb) in
  let all_succeed :=
    (i < RTAPI_MAX_RINGS cfg)%nat /\ 0 <= fst nb /\ fst (fst gp) = 0 in
  exists r s' t,
    _rtapi_ring_new cfg be size sp m flags s = Some (r, s', t) /\
    commit_is_last t = true /\
    (writes_tag t = true <-> all_succeed) /\
    (0 <= r <-> all_succeed) /\
    (all_succeed ->
     r = Z.of_nat i /\ committed cfg (slot (ring_array s') i) /\
     exists pre,
       t = pre ++ [EvSlotWrite i Fmagic; EvMutexGive RingMutex] /\
       writes_tag pre = false /\
       In (EvShmemNew k m total (fst nb)) pre /\
       In (EvShmemGetptr (fst nb) 0) pre) /\
    (~ all_succeed ->
     r = - ENOMEM /\ writes_tag t = false /\
     (forall j, magic (slot (ring_array s') j) = magic (slot (ring_array s) j))) /\
    (r < 0 ->
     r = - ENOMEM /\ writes_tag t = false /\
     (forall j, magic (slot (ring_array s') j) = magic (slot (ring_array s) j)) /\
     (forall j, (j < RTAPI_MAX_RINGS cfg)%nat ->
                ~ committed cfg (slot (ring_array s) j) ->
                ~ committed cfg (slot (ring_array s') j))) /\
    (0 <= r ->
     writes_tag t = true /\ committed cfg (slot (ring_array s') (Z.to_nat r))).
Proof.
  intros cfg be s size sp m flags.
  assert (Hm : ring_mutex s = false) by reflexivity.
  assert (Hwf : wf_state cfg s) by reflexivity.
  split; [exact Hm|]. split; [exact Hwf|].
  exact (create_commits_tag_last cfg be size sp m flags s Hm Hwf).
Defined.

(** C3 fails: Create by module 1 on the fresh table, with a backend
    whose [_rtapi_shmem_new] fails, returns [-ENOMEM] and has written
    key, owner and segment id of slot 0. *)
Lemma failed_create_writes_slot :
  let cfg := small_cfg USER_DSO_ULAPI in
  let s := fresh_state stub_new_fails in
  let out := _rtapi_ring_new cfg stub_backend 4096 0 1 0 s in
  value_of out = Some (- ENOMEM) /\
  ring_array (state_after out s) =
    [mk_ring_data 0 0x1000 1 (- EINVAL) 0 0; zero_ring_data] /\
  ring_array (state_after out s) <> ring_array s.
Proof.
  vm_compute. repeat split; discriminate.
Qed.

Lemma failed_create_frame_witness :
  let cfg := small_cfg USER_DSO_ULAPI in
  let s := fresh_state stub_new_fails in
  ring_mutex s = false /\ wf_state cfg s /\
  exists r s' t,
    _rtapi_ring_new cfg stub_backend 4096 0 1 0 s = Some (r, s', t) /\
    (r < 0 ->
     let i := first_free cfg (RTAPI_MAX_RINGS cfg) 0 (ring_array s) in
     let k := RTAPI_RING_SHM_KEY cfg + Z.of_nat i in
     (forall j, magic (slot (ring_array s') j) = magic (slot (ring_array s) j) /\
                bitmap (slot (ring_array s') j) = bitmap (slot (ring_array s) j) /\
                count (slot (ring_array s') j) = count (slot (ring_array s) j)) /\
     (forall j, j <> i -> slot (ring_array s') j = slot (ring_array s) j) /\
     ring_addr_array s' = ring_addr_array s /\
     (i = RTAPI_MAX_RINGS cfg -> s' = s) /\
     ((i < RTAPI_MAX_RINGS cfg)%nat ->
      key (slot (ring_array s') i) = k /\
      owner (slot (ring_array s') i) = 1 /\
      shmem_id (slot (ring_array s') i) =
        fst (_rtapi_shmem_new stub_backend k 1 (rtapi_ring_memsize cfg 0 4096 0) (shm s)))).
Proof.
  intros cfg s.
  assert (Hm : ring_mutex s = false) by reflexivity.
  assert (Hwf : wf_state cfg s) by reflexivity.
  split; [exact Hm|]. split; [exact Hwf|].
  exact (failed_create_frame cfg stub_backend 4096 0 1 0 s Hm Hwf).
Defined.

Lemma create_lowest_free_then_exhausted_witness :
  let cfg := small_cfg USER_DSO_ULAPI in
  let be := stub_backend in
  let a := Build_create_args 4096 0 1 0 in
  let s0 := one_ring_state stub_ok in
  let l := [Build_create_args 4096 0 1 0; Build_create_args 1024 16 3 0] in
  let s := fresh_state stub_ok in
  ring_mutex s0 = false /\ wf_state cfg s0 /\
  ring_mutex s = false /\ wf_state cfg s /\
  table_empty cfg (ring_array s) /\
  length l = RTAPI_MAX_RINGS cfg /\
  creation_succeeds be stub_works /\ stub_works (shm s) /\
  ((let i := first_free cfg (RTAPI_MAX_RINGS cfg) 0 (ring_array s0) in
    let nb := _rtapi_shmem_new be (RTAPI_RING_SHM_KEY cfg + Z.of_nat i) (ca_module_id a)
                (rtapi_ring_memsize cfg (ca_flags a) (ca_size a) (ca_sp_size a))
                (shm s0) in
    let gp := _rtapi_shmem_getptr be (fst nb) (snd nb) in
    exists r s' t,
      create cfg be a s0 = Some (r, s', t) /\
      (forall j, (j < i)%nat -> committed cfg (slot (ring_array s0) j)) /\
      ((i < RTAPI_MAX_RINGS cfg)%nat -> ~ committed cfg (slot (ring_array s0) i)) /\
      ((i < RTAPI_MAX_RINGS cfg)%nat -> 0 <= fst nb -> fst (fst gp) = 0 ->
       r = Z.of_nat i /\ committed cfg (slot (ring_array s') i)) /\
      (table_full cfg (ring_array s0) ->
       r = - ENOMEM /\
       In (EvMsg "rtapi_ring_new failed due to RTAPI_MAX_RINGS exceeded") t /\
       ring_array s' = ring_array s0) /\
      (0 <= r ->
       exists i, r = Z.of_nat i /\ (i < RTAPI_MAX_RINGS cfg)%nat /\
         ~ committed cfg (slot (ring_array s0) i) /\
         (forall j, (j < i)%nat -> committed cfg (slot (ring_array s0) j)) /\
         committed cfg (slot (ring_array s') i))) /\
   (exists rs s' t,
      create_many cfg be l s = Some (rs, s', t) /\
      (forall P : stub_shm -> Prop, creation_succeeds be P -> P (shm s) ->
       rs = map Z.of_nat (seq 0 (RTAPI_MAX_RINGS cfg)) /\
       table_full cfg (ring_array s') /\
       exists s'' t',
         create cfg be a s' = Some (- ENOMEM, s'', t') /\
         In (EvMsg "rtapi_ring_new failed due to RTAPI_MAX_RINGS exceeded") t' /\
         ring_array s'' = ring_array s') /\
      (Forall (fun r => 0 <= r) rs ->
       rs = map Z.of_nat (seq 0 (RTAPI_MAX_RINGS cfg)) /\
       table_full cfg (ring_array s') /\
       exists s'' t',
         create cfg be a s' = Some (- ENOMEM, s'', t') /\
         In (EvMsg "rtapi_ring_new failed due to RTAPI_MAX_RINGS exceeded") t' /\
         ring_array s'' = ring_array s'))).
Proof.
  intros cfg be a s0 l s.
  assert (Hm0 : ring_mutex s0 = false) by reflexivity.
  assert (Hwf0 : wf_state cfg s0) by reflexivity.
  assert (Hm : ring_mutex s = false) by reflexivity.
  assert (Hwf : wf_state cfg s) by reflexivity.
  assert (He : table_empty cfg (ring_array s)) by apply fresh_table_empty.
  assert (Hl : length l = RTAPI_MAX_RINGS cfg) by reflexivity.
  assert (HP : creation_succeeds be stub_works) by exact stub_works_creation_succeeds.
  assert (HPs : stub_works (shm s)) by exact stub_ok_works.
  do 8 (split; [assumption|]).
  exact (create_lowest_free_then_exhausted cfg be a s0 l s a
           Hm0 Hwf0 Hm Hwf He Hl).
Defined.

Lemma last_detach_frees_slot_witness :
  let cfg := small_cfg USER_DSO_ULAPI in
  let s := one_ring_state stub_ok in
  let a := Build_create_args 4096 0 3 0 in
  RING_MAGIC cfg <> 0 /\ quiescent s /\ wf_state cfg s /\
  0 <= 0 < Z.of_nat (RTAPI_MAX_RINGS cfg) /\ 0 <= 1 /\
  committed cfg (slot (ring_array s) (Z.to_nat 0)) /\
  (forall k, 0 <= k ->
     (attached k (slot (ring_array s) (Z.to_nat 0)) <-> k = 1)) /\
  let h := Z.to_nat 0 in
  let rd := slot (ring_array s) h in
  let dl := _rtapi_shmem_delete stub_backend (shmem_id rd) (owner rd) (shm s) in
  exists s1 t1,
    _rtapi_ring_detach cfg stub_backend 0 1 s = Some (0, s1, t1) /\
    In (EvShmemDelete (shmem_id rd) (owner rd) (fst dl)) t1 /\
    shm s1 = snd dl /\
    (fst dl <> 0 ->
     In (EvMsg "_rtapi_ring_detach: rtapi_shmem_delete failed") t1) /\
    ~ committed cfg (slot (ring_array s1) h) /\
    (exists s2 t2, _rtapi_ring_refcount cfg 0 s1 = Some (- EINVAL, s2, t2)) /\
    (exists s2 t2, _rtapi_ring_detach cfg stub_backend 0 1 s1 = Some (- EINVAL, s2, t2)) /\
    ((forall j, (j < h)%nat -> committed cfg (slot (ring_array s1) j)) ->
     let nb := _rtapi_shmem_new stub_backend (RTAPI_RING_SHM_KEY cfg + 0) (ca_module_id a)
                 (rtapi_ring_memsize cfg (ca_flags a) (ca_size a) (ca_sp_size a))
                 (shm s1) in
     0 <= fst nb ->
     fst (fst (_rtapi_shmem_getptr stub_backend (fst nb) (snd nb))) = 0 ->
     exists s2 t2, create cfg stub_backend a s1 = Some (0, s2, t2)).
Proof.
  intros cfg s a.
  assert (H1 : RING_MAGIC cfg <> 0) by apply small_magic_nonzero.
  assert (H2 : quiescent s) by (split; reflexivity).
  assert (H3 : wf_state cfg s) by reflexivity.
  assert (H4 : 0 <= 0 < Z.of_nat (RTAPI_MAX_RINGS cfg)) by (cbn; lia).
  assert (H5 : 0 <= 1) by lia.
  assert (H6 : committed cfg (slot (ring_array s) (Z.to_nat 0))) by reflexivity.
  assert (H7 : forall k, 0 <= k ->
            (attached k (slot (ring_array s) (Z.to_nat 0)) <-> k = 1))
    by exact sole_attacher_1.
  repeat (split; [assumption|]).
  exact (last_detach_frees_slot cfg stub_backend 0 1 s a H1 H2 H3 H4 H5 H6 H7).
Defined.

Lemma refcount_misses_module_above_max_rings_witness :
  let cfg := small_cfg USER_DSO_ULAPI in
  let s := fresh_state stub_ok in
  let out := _rtapi_ring_new cfg stub_backend 4096 0 3 0 s in
  let s1 := state_after out s in
  quiescent s /\ wf_state cfg s /\
  Z.of_nat (RTAPI_MAX_RINGS cfg) <= 3 <= Z.of_nat (RTAPI_MAX_MODULES cfg) /\
  bitmap (slot (ring_array s) (first_free cfg (RTAPI_MAX_RINGS cfg) 0 (ring_array s))) = 0 /\
  out = Some (0, s1, trace_of out) /\ 0 <= 0 /\
  (attached 3 (slot (ring_array s1) (Z.to_nat 0)) /\
   attachers_card cfg (slot (ring_array s1) (Z.to_nat 0)) = 1 /\
   exists s2 t2, _rtapi_ring_refcount cfg 0 s1 = Some (0, s2, t2)).
Proof.
  intros cfg s out s1.
  assert (H1 : quiescent s) by (split; reflexivity).
  assert (H2 : wf_state cfg s) by reflexivity.
  assert (H3 : Z.of_nat (RTAPI_MAX_RINGS cfg) <= 3 <= Z.of_nat (RTAPI_MAX_MODULES cfg))
    by (cbn; lia).
  assert (H4 : bitmap (slot (ring_array s)
                 (first_free cfg (RTAPI_MAX_RINGS cfg) 0 (ring_array s))) = 0)
    by reflexivity.
  assert (H5 : out = Some (0, s1, trace_of out)) by reflexivity.
  assert (H6 : 0 <= 0) by lia.
  repeat (split; [assumption|]).
  exact (refcount_misses_module_above_max_rings cfg stub_backend 4096 0 3 0 s
           H1 H2 H3 H4 0 s1 (trace_of out) H5 H6).
Defined.

Lemma attach_twice_same_refcount_witness :
  let cfg := small_cfg USER_DSO_ULAPI in
  let s := one_ring_state stub_ok in
  let out := _rtapi_ring_attach cfg stub_backend 0 3 0 s in
  let s1 := state_after out s in
  quiescent s /\ wf_state cfg s /\
  0 <= 0 < Z.of_nat (RTAPI_MAX_RINGS cfg) /\
  committed cfg (slot (ring_array s) (Z.to_nat 0)) /\
  out = Some (0, s1, trace_of out) /\
  exists r2 s2 t2,
    _rtapi_ring_attach cfg stub_backend 0 3 0 s1 = Some (r2, s2, t2) /\
    (forall j, bitmap (slot (ring_array s2) j) = bitmap (slot (ring_array s1) j)) /\
    exists c ta tb,
      _rtapi_ring_refcount cfg 0 s1 = Some (c, s1, ta) /\
      _rtapi_ring_refcount cfg 0 s2 = Some (c, s2, tb).
Proof.
  intros cfg s out s1.
  assert (H1 : quiescent s) by (split; reflexivity).
  assert (H2 : wf_state cfg s) by reflexivity.
  assert (H3 : 0 <= 0 < Z.of_nat (RTAPI_MAX_RINGS cfg)) by (cbn; lia).
  assert (H4 : committed cfg (slot (ring_array s) (Z.to_nat 0))) by reflexivity.
  assert (H5 : out = Some (0, s1, trace_of out)) by reflexivity.
  repeat (split; [assumption|]).
  exact (attach_twice_same_refcount cfg stub_backend 0 3 0 0 s s1 (trace_of out)
           H1 H2 H3 H4 H5).
Defined.

Lemma committed_slot_has_attacher_witness :
  let cfg := small_cfg USER_DSO_ULAPI in
  let s0 := fresh_state stub_ok in
  let out := _rtapi_ring_new cfg stub_backend 4096 0 1 0 s0 in
  let s := state_after out s0 in
  RING_MAGIC cfg <> 0 /\ reachable cfg stub_backend s /\
  (0 < RTAPI_MAX_RINGS cfg)%nat /\
  committed cfg (slot (ring_array s) 0) /\
  exists k, 0 <= k < Z.of_nat (RTAPI_MAX_RINGS cfg) /\
            attached k (slot (ring_array s) 0).
Proof.
  intros cfg s0 out s.
  assert (H1 : RING_MAGIC cfg <> 0) by apply small_magic_nonzero.
  assert (H2 : reachable cfg stub_backend s).
  { apply (reach_call cfg stub_backend s0 (CallNew 4096 0 1 0) 0 s (trace_of out)).
    - apply reach_init; [split; reflexivity|reflexivity|apply fresh_table_empty].
    - cbn. lia.
    - reflexivity. }
  assert (H3 : (0 < RTAPI_MAX_RINGS cfg)%nat) by (cbn; lia).
  assert (H4 : committed cfg (slot (ring_array s) 0)) by reflexivity.
  repeat (split; [assumption|]).
  exact (committed_slot_has_attacher cfg stub_backend s H1 H2 0%nat H3 H4).
Defined.

(** C9 fails: an exhausted registry and a failing backend give Create
    the same return value, and a missing resident mapping gives Attach
    that value too; the kernel-build Attach on a free slot returns it as
    well.  Only the message tells them apart. *)
Lemma failure_kinds_share_code :
  let new_full := _rtapi_ring_new (small_cfg USER_DSO_ULAPI) stub_backend 4096 0 1 0
                    (full_state stub_ok) in
  let new_fail := _rtapi_ring_new (small_cfg USER_DSO_ULAPI) stub_backend 4096 0 1 0
                    (fresh_state stub_new_fails) in
  let att_bug := _rtapi_ring_attach (small_cfg USER_DSO_RTAPI) stub_backend 0 3 0
                    (one_ring_unmapped stub_ok) in
  (value_of new_full = Some (- ENOMEM) /\
   In (EvMsg "rtapi_ring_new failed due to RTAPI_MAX_RINGS exceeded") (trace_of new_full)) /\
  (value_of new_fail = Some (- ENOMEM) /\
   In (EvMsg "rtapi_ring_new: rtapi_shmem_new failed") (trace_of new_fail)) /\
  (value_of att_bug = Some (- ENOMEM) /\
   In (EvMsg "_rtapi_ring_attach: BUG rhptr == NULL") (trace_of att_bug)).
Proof.
  vm_compute. repeat split; try reflexivity;
    repeat (first [left; reflexivity | right]).
Qed.

Lemma failures_use_two_codes_witness :
  let cfg := small_cfg USER_DSO_RTAPI in
  let be := stub_backend in
  let s := one_ring_unmapped stub_ok in
  let size := 4096 in
  let sp := 0 in
  let m := 3 in
  let flags := 0 in
  let handle := 0 in
  quiescent s /\ wf_state cfg s /\
  let h := Z.to_nat handle in
  let rd := slot (ring_array s) h in
  let in_range := 0 <= handle < Z.of_nat (RTAPI_MAX_RINGS cfg) in
  let k := RTAPI_RING_SHM_KEY cfg + handle in
  let i := first_free cfg (RTAPI_MAX_RINGS cfg) 0 (ring_array s) in
  let cnb := _rtapi_shmem_new be (RTAPI_RING_SHM_KEY cfg + Z.of_nat i) m
               (rtapi_ring_memsize cfg flags size sp) (shm s) in
  let cgp := _rtapi_shmem_getptr be (fst cnb) (snd cnb) in
  let anb := _rtapi_shmem_new be k m 0 (shm s) in
  let agp := _rtapi_shmem_getptr be (fst anb) (snd anb) in
  - EINVAL <> - ENOMEM /\
  (exists r s' t,
     _rtapi_ring_new cfg be size sp m flags s = Some (r, s', t) /\
     (r < 0 -> r = - ENOMEM) /\
     (i = RTAPI_MAX_RINGS cfg -> r = - ENOMEM) /\
     ((i < RTAPI_MAX_RINGS cfg)%nat -> fst cnb < 0 -> r = - ENOMEM) /\
     ((i < RTAPI_MAX_RINGS cfg)%nat -> 0 <= fst cnb -> fst (fst cgp) <> 0 ->
      r = - ENOMEM) /\
     ((i < RTAPI_MAX_RINGS cfg)%nat -> 0 <= fst cnb -> fst (fst cgp) = 0 ->
      0 <= r)) /\
  (exists r s' t,
     _rtapi_ring_attach cfg be handle m 0 s = Some (r, s', t) /\
     (r = 0 \/ r = - EINVAL \/ r = - ENOMEM) /\
     (~ in_range -> r = - EINVAL) /\
     (in_range -> ~ committed cfg rd -> BUILD_SYS_KBUILD (build cfg) = false ->
      shmget_absent be (OS_KEY cfg k) (shm s) = true -> r = - EINVAL) /\
     (in_range -> ~ committed cfg rd -> BUILD_SYS_KBUILD (build cfg) = false ->
      shmget_absent be (OS_KEY cfg k) (shm s) = false ->
      fst anb < 0 -> r = - ENOMEM) /\
     (in_range -> ~ committed cfg rd -> BUILD_SYS_KBUILD (build cfg) = false ->
      shmget_absent be (OS_KEY cfg k) (shm s) = false ->
      0 <= fst anb -> fst (fst agp) <> 0 -> r = - ENOMEM) /\
     (in_range -> committed cfg rd -> BUILD_SYS_KBUILD (build cfg) = true ->
      fst (fst (_rtapi_shmem_getptr be (shmem_id rd) (shm s))) <> 0 ->
      r = - ENOMEM) /\
     (in_range -> committed cfg rd -> BUILD_SYS_KBUILD (build cfg) = false ->
      default 0 (ring_addr_array s !! h) = 0 -> r = - ENOMEM)) /\
  (exists r t,
     _rtapi_ring_refcount cfg handle s = Some (r, s, t) /\
     (~ in_range \/ ~ committed cfg rd -> r = - EINVAL) /\
     (in_range -> committed cfg rd -> 0 <= r)) /\
  (exists r s' t,
     _rtapi_ring_detach cfg be handle m s = Some (r, s', t) /\
     (~ in_range \/ ~ committed cfg rd -> r = - EINVAL) /\
     (in_range -> committed cfg rd -> r = 0)).
Proof.
  intros cfg be s size sp m flags handle.
  assert (H1 : quiescent s) by (split; reflexivity).
  assert (H2 : wf_state cfg s) by reflexivity.
  split; [exact H1|]. split; [exact H2|].
  exact (failures_use_two_codes cfg be size sp m flags handle 0 s H1 H2).
Defined.

Lemma detach_committed_always_succeeds_witness :
  let cfg := small_cfg USER_DSO_ULAPI in
  let s := one_ring_state stub_ok in
  RING_MAGIC cfg <> 0 /\ mutex s = false /\ wf_state cfg s /\
  0 <= 0 < Z.of_nat (RTAPI_MAX_RINGS cfg) /\ 0 <= 3 /\
  committed cfg (slot (ring_array s) (Z.to_nat 0)) /\
  exists s' t,
    _rtapi_ring_detach cfg stub_backend 0 3 s = Some (0, s', t) /\
    let rd := slot (ring_array s) (Z.to_nat 0) in
    let rd' := slot (ring_array s') (Z.to_nat 0) in
    bitmap rd' = clear_bit 3 (bitmap rd) /\
    (forall k, test_bit k (bitmap rd') = test_bit k (bitmap rd) && negb (k =? 3)) /\
    (~ committed cfg rd' <->
     count_bits (RTAPI_MAX_RINGS cfg) 0 (bitmap rd') = 0) /\
    (committed cfg rd' ->
     refcount_value cfg 0 (ring_array s') =
     count_bits (RTAPI_MAX_RINGS cfg) 0 (bitmap rd')).
Proof.
  intros cfg s.
  assert (H1 : RING_MAGIC cfg <> 0) by apply small_magic_nonzero.
  assert (H2 : mutex s = false) by reflexivity.
  assert (H3 : wf_state cfg s) by reflexivity.
  assert (H4 : 0 <= 0 < Z.of_nat (RTAPI_MAX_RINGS cfg)) by (cbn; lia).
  assert (H5 : 0 <= 3) by lia.
  assert (H6 : committed cfg (slot (ring_array s) (Z.to_nat 0))) by reflexivity.
  repeat (split; [assumption|]).
  exact (detach_committed_always_succeeds cfg stub_backend 0 3 s H1 H2 H3 H4 H5 H6).
Defined.

Lemma detach_frees_slot_still_attached_witness :
  let cfg := small_cfg USER_DSO_ULAPI in
  let be := stub_backend in
  let s := uncounted_attacher_state stub_ok in
  let handle := 0 in
  let m := 1 in
  let m' := 3 in
  let h := Z.to_nat handle in
  let rd := slot (ring_array s) h in
  RING_MAGIC cfg <> 0 /\
  mutex s = false /\ wf_state cfg s /\
  0 <= handle < Z.of_nat (RTAPI_MAX_RINGS cfg) /\
  0 <= m /\
  Z.of_nat (RTAPI_MAX_RINGS cfg) <= m' <= Z.of_nat (RTAPI_MAX_MODULES cfg) /\
  m' <> m /\
  committed cfg rd /\
  attached m' rd /\
  (forall k, 0 <= k < Z.of_nat (RTAPI_MAX_RINGS cfg) -> attached k rd -> k = m) /\
  exists s' t,
    _rtapi_ring_detach cfg be handle m s = Some (0, s', t) /\
    let rd' := slot (ring_array s') h in
    attached m' rd' /\
    1 <= attachers_card cfg rd' /\
    ~ committed cfg rd' /\
    In (EvShmemDelete (shmem_id rd) (owner rd)
          (fst (_rtapi_shmem_delete be (shmem_id rd) (owner rd) (shm s)))) t /\
    exists s2 t2, _rtapi_ring_refcount cfg handle s' = Some (- EINVAL, s2, t2).
Proof.
  intros cfg be s handle m m' h rd.
  assert (H1 : RING_MAGIC cfg <> 0) by apply small_magic_nonzero.
  assert (H2 : mutex s = false) by reflexivity.
  assert (H3 : wf_state cfg s) by reflexivity.
  assert (H4 : 0 <= handle < Z.of_nat (RTAPI_MAX_RINGS cfg)) by (cbn; lia).
  assert (H5 : 0 <= m) by (unfold m; lia).
  assert (H6 : Z.of_nat (RTAPI_MAX_RINGS cfg) <= m' <= Z.of_nat (RTAPI_MAX_MODULES cfg))
    by (cbn; lia).
  assert (H7 : m' <> m) by discriminate.
  assert (H8 : committed cfg rd) by reflexivity.
  assert (H9 : attached m' rd) by reflexivity.
  assert (H10 : forall k, 0 <= k < Z.of_nat (RTAPI_MAX_RINGS cfg) ->
                  attached k rd -> k = m)
    by exact only_counted_attacher_1.
  do 10 (split; [assumption|]).
  exact (detach_frees_slot_still_attached cfg be handle m m' s
           H1 H2 H3 H4 H5 H6 H7 H8 H9 H10).
Defined.

(** ** Further properties of the four entry points *)

Section MoreSpecs.

Context {B : Type}.
Variable cfg : rtapi_config.
Variable be : Backend B.

Implicit Types s : rtapi_state B.
Implicit Types ra : list ring_data.

(** *** _rtapi_ring_new: what every path does besides its result *)
Lemma ring_new_events size sp m flags s :
  ring_mutex s = false -> wf_state cfg s ->
  let ra := ring_array s in
  let i := first_free cfg (RTAPI_MAX_RINGS cfg) 0 ra in
  let k := RTAPI_RING_SHM_KEY cfg + Z.of_nat i in
  let total := rtapi_ring_memsize cfg flags size sp in
  let nb := _rtapi_shmem_new be k m total (shm s) in
  let gp := _rtapi_shmem_getptr be (fst nb) (snd nb) in
  exists r s' t,
    _rtapi_ring_new cfg be size sp m flags s = Some (r, s', t) /\
    existsb is_mutex_not_set t = false /\
    count_events is_shmem_delete t = 0%nat /\
    ((i = RTAPI_MAX_RINGS cfg /\ r = - ENOMEM /\
      count_events is_backend_call t = 0%nat)
     \/ ((i < RTAPI_MAX_RINGS cfg)%nat /\ fst nb < 0 /\ r = - ENOMEM /\
         count_events is_shmem_new t = 1%nat /\
         count_events is_shmem_getptr t = 0%nat /\
         In (EvShmemNew k m total (fst nb)) t)
     \/ ((i < RTAPI_MAX_RINGS cfg)%nat /\ 0 <= fst nb /\ fst (fst gp) <> 0 /\
         r = - ENOMEM /\
         count_events is_shmem_new t = 1%nat /\
         count_events is_shmem_getptr t = 1%nat /\
         In (EvShmemNew k m total (fst nb)) t /\
         In (EvShmemGetptr (fst nb) (fst (fst gp))) t)
     \/ ((i < RTAPI_MAX_RINGS cfg)%nat /\ 0 <= fst nb /\ fst (fst gp) = 0 /\
         r = Z.of_nat i /\
         count_events is_shmem_new t = 1%nat /\
         count_events is_shmem_getptr t = 1%nat /\
         In (EvShmemNew k m total (fst nb)) t /\
         In (EvHeaderInit (snd (fst gp)) flags size sp) t)).
Proof.
  intros Hm Hwf. destruct s as [rm mx ra la b]. unfold wf_state in Hwf.
  simpl in Hm, Hwf. subst rm.
  intros ra0 i k total nb gp. subst ra0 k total.
  cbn [ring_array shm mutex ring_addr_array] in *.
  pose proof (first_free_bounds cfg (RTAPI_MAX_RINGS cfg) 0 ra) as Hb. fold i in Hb.
  unfold _rtapi_ring_new. unfold_prims. cbn.
  rewrite find_free_slot_eq. cbn. fold i.
  destruct (Nat.eqb_spec i (RTAPI_MAX_RINGS cfg)) as [Ei|Ei]; cbn.
  { do 3 eexists; split; [reflexivity|].
    split; [new_events|]. split; [new_events|].
    left. repeat split; auto. new_events. }
  norm_table.
  change (get_field Fkey (set_field Fowner m
            (set_field Fkey (RTAPI_RING_SHM_KEY cfg + Z.of_nat i) (slot ra i))))
    with (RTAPI_RING_SHM_KEY cfg + Z.of_nat i).
  fold nb. destruct nb as [id b1] eqn:En. cbn.
  destruct (Z.ltb_spec id 0) as [Eid|Eid]; cbn.
  { norm_table. do 3 eexists; split; [reflexivity|].
    split; [new_events|]. split; [new_events|].
    right; left. repeat split; try lia; new_events. }
  norm_table.
  change (get_field Fshmem_id (set_field Fshmem_id id ?x)) with id.
  cbn in gp. fold gp. destruct gp as [[rv p] b2] eqn:Eg. cbn.
  destruct (Z.eqb_spec rv 0) as [Erv|Erv]; cbn.
  2:{ do 3 eexists; split; [reflexivity|].
      split; [new_events|]. split; [new_events|].
      right; right; left. repeat split; try lia; auto; new_events. }
  destruct (ULAPI (build cfg)); cbn; norm_table;
    (do 3 eexists; split; [reflexivity|];
     split; [new_events|]; split; [new_events|];
     right; right; right; repeat split; try lia; auto; new_events).
Qed.


(** *** _rtapi_ring_attach: what every path does besides its result *)
Lemma ring_attach_events handle m p0 s :
  ring_mutex s = false -> wf_state cfg s ->
  let rd := slot (ring_array s) (Z.to_nat handle) in
  let in_range := 0 <= handle < Z.of_nat (RTAPI_MAX_RINGS cfg) in
  exists r s' t,
    _rtapi_ring_attach cfg be handle m p0 s = Some (r, s', t) /\
    existsb is_mutex_not_set t = false /\
    count_events is_shmem_delete t = 0%nat /\
    (~ in_range ->
     count_events is_slot_access t = 0%nat /\ count_events is_backend_call t = 0%nat) /\
    (BUILD_SYS_KBUILD (build cfg) = true ->
     count_events is_shmem_new t = 0%nat /\
     count_events (fun e => match e with EvShmget _ => true | _ => false end) t = 0%nat /\
     count_events (fun e => match e with EvSlotWrite _ Fbitmap => false
                                       | EvSlotWrite _ _ => true | _ => false end) t
       = 0%nat) /\
    (BUILD_SYS_KBUILD (build cfg) = false ->
     committed cfg rd ->
     count_events is_backend_call t = 0%nat).
Proof.
  intros Hm Hwf. destruct s as [rm mx ra la b]. unfold wf_state in Hwf.
  simpl in Hm, Hwf. subst rm.
  intros rd in_range. subst in_range.
  cbn [ring_array shm mutex ring_addr_array] in *.
  unfold _rtapi_ring_attach. unfold_prims. cbn.
  destruct (Z.ltb_spec handle 0) as [Hlo|Hlo]; cbn.
  { do 3 eexists; split; [reflexivity|].
    repeat split; intros; try reflexivity. }
  destruct (Z.geb_spec handle (Z.of_nat (RTAPI_MAX_RINGS cfg))) as [Hhi|Hhi]; cbn.
  { do 3 eexists; split; [reflexivity|].
    repeat split; intros; try reflexivity. }
  assert (Hh : (Z.to_nat handle < length ra)%nat) by lia.
  change (get_field Fmagic ?x) with (magic x). fold rd.
  destruct (Z.eqb_spec (magic rd) (RING_MAGIC cfg)) as [Hc|Hc]; cbn;
    destruct (BUILD_SYS_KBUILD (build cfg)) eqn:Hk; cbn.
  - destruct (_rtapi_shmem_getptr _ _ _) as [[rv p] b1]. cbn.
    destruct (rv =? 0); cbn;
      do 3 eexists; (split; [reflexivity|]);
      repeat split; intros; try reflexivity; try discriminate; lia.
  - destruct (default 0 (la !! Z.to_nat handle) =? 0); cbn;
      do 3 eexists; (split; [reflexivity|]);
      repeat split; intros; try reflexivity; try discriminate; lia.
  - do 3 eexists; (split; [reflexivity|]);
      repeat split; intros; try reflexivity; try discriminate; try contradiction; lia.
  - destruct (shmget_absent _ _ _); cbn.
    { do 3 eexists; (split; [reflexivity|]);
        repeat split; intros; try reflexivity; try discriminate; try contradiction; lia. }
    norm_table.
    destruct (_rtapi_shmem_new _ _ _ _ _) as [id b1]. cbn.
    destruct (id <? 0); cbn; norm_table.
    { do 3 eexists; (split; [reflexivity|]);
        repeat split; intros; try reflexivity; try discriminate; try contradiction; lia. }
    destruct (_rtapi_shmem_getptr _ _ _) as [[rv p] b2]. cbn.
    destruct (rv =? 0); cbn; norm_table;
      do 3 eexists; (split; [reflexivity|]);
      repeat split; intros; try reflexivity; try discriminate; try contradiction; lia.
Qed.

(** *** _rtapi_ring_detach: what every path does besides its result *)
Lemma ring_detach_events handle m s :
  mutex s = false -> wf_state cfg s ->
  let in_range := 0 <= handle < Z.of_nat (RTAPI_MAX_RINGS cfg) in
  exists r s' t,
    _rtapi_ring_detach cfg be handle m s = Some (r, s', t) /\
    ring_mutex s' = false /\
    existsb (is_get RingMutex) t = false /\
    existsb is_mutex_not_set t = negb (ring_mutex s) /\
    count_events is_shmem_new t = 0%nat /\
    (~ in_range ->
     count_events is_slot_access t = 0%nat /\ count_events is_backend_call t = 0%nat).
Proof.
  intros Hm Hwf. destruct s as [rm mx ra la b]. unfold wf_state in Hwf.
  simpl in Hm, Hwf. subst mx.
  intros in_range. subst in_range.
  cbn [ring_array shm mutex ring_addr_array ring_mutex] in *.
  unfold _rtapi_ring_detach. unfold_prims. cbn.
  destruct (Z.ltb_spec handle 0) as [Hlo|Hlo]; cbn.
  { destruct rm; cbn; do 3 eexists; (split; [reflexivity|]);
      repeat split; intros; try reflexivity. }
  destruct (Z.geb_spec handle (Z.of_nat (RTAPI_MAX_RINGS cfg))) as [Hhi|Hhi]; cbn.
  { destruct rm; cbn; do 3 eexists; (split; [reflexivity|]);
      repeat split; intros; try reflexivity. }
  change (get_field Fmagic ?x) with (magic x).
  destruct (magic (slot ra (Z.to_nat handle)) =? RING_MAGIC cfg) eqn:Hc; cbn.
  2:{ destruct rm; cbn; do 3 eexists; (split; [reflexivity|]);
      repeat split; intros; try reflexivity; lia. }
  rewrite refcount_eq by reflexivity. cbn [ring_array].
  assert (Hrt : forall ra', existsb (is_get RingMutex) (refcount_trace cfg handle ra') = false
                /\ existsb is_mutex_not_set (refcount_trace cfg handle ra') = false
                /\ count_events is_shmem_new (refcount_trace cfg handle ra') = 0%nat).
  { intros ra'. unfold refcount_trace.
    destruct ((handle <? 0) || (handle >=? Z.of_nat (RTAPI_MAX_RINGS cfg)));
      [repeat split; reflexivity|].
    destruct (negb _); [repeat split; reflexivity|].
    cbn [existsb is_get lock_eqb is_mutex_not_set orb app].
    rewrite !existsb_app, !existsb_repeat by reflexivity.
    rewrite !count_events_cons, count_events_app, count_events_repeat by reflexivity.
    repeat split; reflexivity. }
  destruct (_ =? 0) eqn:Hz in |- *; cbn.
  2:{ destruct rm; cbn; do 3 eexists; (split; [reflexivity|]);
      (split; [reflexivity|]);
      cbn [existsb is_get is_mutex_not_set orb];
      rewrite !existsb_app, !count_events_cons, !count_events_app;
      destruct (Hrt (<[Z.to_nat handle := set_field Fbitmap
                  (clear_bit m (get_field Fbitmap (slot ra (Z.to_nat handle))))
                  (slot ra (Z.to_nat handle))]> ra)) as (-> & -> & ->);
      repeat split; intros; try reflexivity; lia. }
  destruct (_rtapi_shmem_delete _ _ _ _) as [rv b1]. cbn.
  destruct (rv =? 0); cbn;
    destruct rm; cbn; do 3 eexists; (split; [reflexivity|]);
      (split; [reflexivity|]);
      cbn [existsb is_get is_mutex_not_set orb];
      rewrite !existsb_app, !count_events_cons, !count_events_app;
      destruct (Hrt (<[Z.to_nat handle := set_field Fbitmap
                  (clear_bit m (get_field Fbitmap (slot ra (Z.to_nat handle))))
                  (slot ra (Z.to_nat handle))]> ra)) as (-> & -> & ->);
      repeat split; intros; try reflexivity; lia.
Qed.

End MoreSpecs.

(** *** Counting bits after one bit was set or cleared *)

Lemma count_bits_set_bit n i m bm :
  0 <= m ->
  count_bits n i (set_bit m bm) =
  count_bits n i bm +
  (if (i <=? m) && (m <? i + Z.of_nat n) && negb (test_bit m bm) then 1 else 0).
Proof.
  intros Hm. revert i; induction n as [|n IH]; intros i; cbn [count_bits].
  - destruct (Z.leb_spec i m), (Z.ltb_spec m (i + Z.of_nat 0)); cbn; lia.
  - rewrite IH, test_set_bit by exact Hm.
    destruct (Z.eqb_spec i m) as [->|Hne].
    + rewrite orb_true_r.
      destruct (Z.leb_spec m m), (Z.leb_spec (m + 1) m),
        (Z.ltb_spec m (m + Z.of_nat (S n))), (test_bit m bm); cbn; lia.
    + rewrite orb_false_r.
      destruct (Z.leb_spec i m), (Z.leb_spec (i + 1) m),
        (Z.ltb_spec m (i + Z.of_nat (S n))), (Z.ltb_spec m (i + 1 + Z.of_nat n)),
        (test_bit i bm), (test_bit m bm); cbn; lia.
Qed.

Lemma count_bits_clear_bit n i m bm :
  0 <= m ->
  count_bits n i (clear_bit m bm) =
  count_bits n i bm -
  (if (i <=? m) && (m <? i + Z.of_nat n) && test_bit m bm then 1 else 0).
Proof.
  intros Hm. revert i; induction n as [|n IH]; intros i; cbn [count_bits].
  - destruct (Z.leb_spec i m), (Z.ltb_spec m (i + Z.of_nat 0)); cbn; lia.
  - rewrite IH, test_clear_bit by exact Hm.
    destruct (Z.eqb_spec i m) as [->|Hne].
    + cbn [negb]. rewrite andb_false_r.
      destruct (Z.leb_spec m m), (Z.leb_spec (m + 1) m),
        (Z.ltb_spec m (m + Z.of_nat (S n))), (test_bit m bm); cbn; lia.
    + cbn [negb]. rewrite andb_true_r.
      destruct (Z.leb_spec i m), (Z.leb_spec (i + 1) m),
        (Z.ltb_spec m (i + Z.of_nat (S n))), (Z.ltb_spec m (i + 1 + Z.of_nat n)),
        (test_bit i bm), (test_bit m bm); cbn; lia.
Qed.

Section Extras.

Context {B : Type}.
Variable cfg : rtapi_config.
Variable be : Backend B.

Implicit Types s : rtapi_state B.
Implicit Types ra : list ring_data.


(** X2.  A handle outside [0, RTAPI_MAX_RINGS) is rejected by Attach,
    Refcount and Detach with [-EINVAL] before any slot is read or written
    and before any backend call; the state is left as it was. *)
Theorem out_of_range_handle_touches_nothing handle m p0 s :
  quiescent s -> wf_state cfg s ->
  handle < 0 \/ Z.of_nat (RTAPI_MAX_RINGS cfg) <= handle ->
  (exists t,
     _rtapi_ring_attach cfg be handle m p0 s = Some (- EINVAL, s, t) /\
     count_events is_slot_access t = 0%nat /\
     count_events is_backend_call t = 0%nat) /\
  (exists t,
     _rtapi_ring_refcount cfg handle s = Some (- EINVAL, s, t) /\
     count_events is_slot_access t = 0%nat /\
     count_events is_backend_call t = 0%nat) /\
  (exists t,
     _rtapi_ring_detach cfg be handle m s = Some (- EINVAL, s, t) /\
     count_events is_slot_access t = 0%nat /\
     count_events is_backend_call t = 0%nat).
Proof.
  intros [Hrm Hm] Hwf Hbad.
  assert (Hnr : ~ 0 <= handle < Z.of_nat (RTAPI_MAX_RINGS cfg)) by lia.
  split; [|split].
  - destruct (ring_attach_spec cfg be handle m p0 s Hrm Hwf)
      as (r & s' & t & Hcall & _ & Hcases).
    destruct (ring_attach_events cfg be handle m p0 s Hrm Hwf)
      as (r2 & s2 & t2 & Hcall2 & _ & _ & Hout & _).
    rewrite Hcall in Hcall2. injection Hcall2 as <- <- <-.
    destruct Hcases as [(_ & -> & ->)|(Hh & _)]; [|lia].
    exists t. split; [exact Hcall|]. exact (Hout Hnr).
  - eexists. rewrite refcount_eq by exact Hm.
    rewrite refcount_value_invalid by tauto.
    split; [reflexivity|].
    unfold refcount_trace.
    replace ((handle <? 0) || (handle >=? Z.of_nat (RTAPI_MAX_RINGS cfg))) with true.
    + split; reflexivity.
    + symmetry. apply orb_true_iff.
      destruct Hbad; [left; apply Z.ltb_lt|right; apply Z.geb_le]; lia.
  - destruct (ring_detach_spec cfg be handle m s Hm Hwf)
      as (r & s' & t & Hcall & _ & Hcases).
    destruct (ring_detach_events cfg be handle m s Hm Hwf)
      as (r2 & s2 & t2 & Hcall2 & _ & _ & _ & _ & Hout).
    rewrite Hcall in Hcall2. injection Hcall2 as <- <- <-.
    destruct Hcases as [(_ & -> & ->)|[(Hh & _)|(Hh & _)]]; [|lia|lia].
    exists t. split; [|exact (Hout Hnr)].
    rewrite Hcall. destruct s as [rm mx ra la b]. cbn in Hrm, Hm. subst. reflexivity.
Qed.

(** X3.  An Attach that fails changes no slot's tag, owner, attacher
    bitmap or count, no slot other than the one of the handle, and not the
    local address cache; when it returns [-EINVAL], and always in the
    kernel build, the whole table is as before.  (In the user-space
    lookup key and segment id of the slot may have been written.) *)
Theorem failed_attach_frame handle m p0 s :
  ring_mutex s = false -> wf_state cfg s ->
  exists r s' t,
    _rtapi_ring_attach cfg be handle m p0 s = Some (r, s', t) /\
    (r <> 0 ->
     (forall j, magic (slot (ring_array s') j) = magic (slot (ring_array s) j) /\
                owner (slot (ring_array s') j) = owner (slot (ring_array s) j) /\
                bitmap (slot (ring_array s') j) = bitmap (slot (ring_array s) j) /\
                count (slot (ring_array s') j) = count (slot (ring_array s) j)) /\
     (forall j, j <> Z.to_nat handle ->
                slot (ring_array s') j = slot (ring_array s) j) /\
     ring_addr_array s' = ring_addr_array s /\
     (r = - EINVAL -> s' = s) /\
     (BUILD_SYS_KBUILD (build cfg) = true -> ring_array s' = ring_array s)).
Proof.
  intros Hrm Hwf.
  destruct (ring_attach_spec cfg be handle m p0 s Hrm Hwf)
    as (r & s' & t & Hcall & _ & Hcases).
  exists r, s', t. split; [exact Hcall|]. intros Hr.
  assert (Hne : - ENOMEM <> - EINVAL) by (unfold EINVAL, ENOMEM; lia).
  destruct Hcases as [(Hbad & -> & ->)|(Hh & Hcases)].
  { repeat split; auto. }
  destruct Hcases as [(Hc & Hk & _ & -> & ->)
                     |[(Hc & Hk & _ & -> & ->)
                      |[(Hc & Hk & _ & -> & -> & _)
                       |[(Hc & Hk & _ & -> & ->)
                        |[(Hc & Hk & -> & -> & _)
                         |[(Hc & Hk & _ & -> & -> & _)
                          |[(Hc & Hk & _ & _ & -> & ->)
                           |[(Hc & Hk & _ & _ & _ & -> & ->)
                            |(Hc & Hk & _ & _ & _ & -> & ->)]]]]]]]];
    try contradiction;
    cbn [ring_array ring_addr_array];
    repeat split; auto; try congruence;
    try (apply (slot_insert_field magic); reflexivity);
    try (apply (slot_insert_field owner); reflexivity);
    try (apply (slot_insert_field bitmap); reflexivity);
    try (apply (slot_insert_field count); reflexivity);
    try (intros j Hj; apply slot_insert_ne; auto).
Qed.

(** X4.  The user-space lookup of Attach: for a handle in range whose
    slot is not committed, when the segment of the derived key exists and
    both backend calls succeed, Attach returns 0 and commits the slot with
    the derived key, the new segment id and the caller's bit set; the
    count field is incremented as an [int], so it is raised by one unless
    it was [INT_MAX], where it wraps to [INT_MIN].  Attach records the
    mapping in the local cache, leaves the owner field as it found it and
    touches no other slot.  Refcount on the handle then succeeds. *)
Theorem attach_lookup_commits_slot handle m p0 s :
  quiescent s -> wf_state cfg s ->
  0 <= handle < Z.of_nat (RTAPI_MAX_RINGS cfg) ->
  BUILD_SYS_KBUILD (build cfg) = false ->
  let h := Z.to_nat handle in
  let rd := slot (ring_array s) h in
  let k := RTAPI_RING_SHM_KEY cfg + handle in
  let nb := _rtapi_shmem_new be k m 0 (shm s) in
  let gp := _rtapi_shmem_getptr be (fst nb) (snd nb) in
  ~ committed cfg rd ->
  shmget_absent be (OS_KEY cfg k) (shm s) = false ->
  0 <= fst nb ->
  fst (fst gp) = 0 ->
  exists s' t,
    _rtapi_ring_attach cfg be handle m p0 s = Some (0, s', t) /\
    slot (ring_array s') h =
      mk_ring_data (RING_MAGIC cfg) k (owner rd) (fst nb)
                   (set_bit m (bitmap rd)) (int_wrap (count rd + 1)) /\
    (INT_MIN <= count rd < INT_MAX -> count (slot (ring_array s') h) = count rd + 1) /\
    (count rd = INT_MAX -> count (slot (ring_array s') h) = INT_MIN) /\
    (forall j, j <> h -> slot (ring_array s') j = slot (ring_array s) j) /\
    ring_addr_array s' = <[h := snd (fst gp)]> (ring_addr_array s) /\
    shm s' = snd gp /\
    exists t', _rtapi_ring_refcount cfg handle s' =
               Some (count_bits (RTAPI_MAX_RINGS cfg) 0 (set_bit m (bitmap rd)), s', t').
Proof.
  intros [Hrm Hm] Hwf Hh Hk h rd k nb gp Hfree Habs Hnb Hgp.
  destruct (ring_attach_spec cfg be handle m p0 s Hrm Hwf)
    as (r & s' & t & Hcall & _ & Hcases).
  fold h rd k nb gp in Hcases. unfold wf_state in Hwf.
  assert (Hhl : (h < length (ring_array s))%nat) by (unfold h; lia).
  destruct Hcases as [(Hbad & _)|(_ & Hcases)]; [lia|].
  destruct Hcases as [(Hc & _)
                     |[(Hc & _)
                      |[(Hc & _)
                       |[(Hc & _)
                        |[(_ & Hk' & _)
                         |[(_ & _ & Ha & _)
                          |[(_ & _ & _ & Hx & _)
                           |[(_ & _ & _ & _ & Hx & _)
                            |(_ & _ & _ & _ & _ & -> & ->)]]]]]]]];
    try contradiction; try congruence; try lia.
  eexists; exists t. split; [exact Hcall|]. cbn [ring_array ring_addr_array shm].
  split; [apply slot_insert_eq; exact Hhl|].
  split; [intros Hcnt; rewrite slot_insert_eq by exact Hhl; cbn [count];
          apply int_wrap_in_range; lia|].
  split; [intros Hcnt; rewrite slot_insert_eq by exact Hhl; cbn [count];
          rewrite Hcnt; apply int_wrap_past_max|].
  split; [intros j Hj; apply slot_insert_ne; auto|].
  split; [reflexivity|]. split; [reflexivity|].
  eexists. rewrite refcount_eq by exact Hm. cbn [ring_array].
  rewrite refcount_value_committed; [|lia|].
  - fold h. rewrite slot_insert_eq by exact Hhl. reflexivity.
  - fold h. rewrite slot_insert_eq by exact Hhl. reflexivity.
Qed.

(** X5.  In the ULAPI build Create records the pointer
    [_rtapi_shmem_getptr] gave it in the local cache, so an Attach to the
    new handle in the same process succeeds from the cache, with no
    backend call, and sets the attacher's bit beside the creator's. *)
Theorem ulapi_create_then_attach size sp m flags m' p0 s :
  build cfg = USER_DSO_ULAPI ->
  ring_mutex s = false -> wf_state cfg s ->
  length (ring_addr_array s) = S (RTAPI_MAX_RINGS cfg) ->
  let i := first_free cfg (RTAPI_MAX_RINGS cfg) 0 (ring_array s) in
  let nb := _rtapi_shmem_new be (RTAPI_RING_SHM_KEY cfg + Z.of_nat i) m
              (rtapi_ring_memsize cfg flags size sp) (shm s) in
  let gp := _rtapi_shmem_getptr be (fst nb) (snd nb) in
  forall r s1 t1,
    _rtapi_ring_new cfg be size sp m flags s = Some (r, s1, t1) ->
    0 <= r ->
    snd (fst gp) <> 0 ->
    ring_addr_array s1 !! Z.to_nat r = Some (snd (fst gp)) /\
    exists s2 t2,
      _rtapi_ring_attach cfg be r m' p0 s1 = Some (0, s2, t2) /\
      count_events is_backend_call t2 = 0%nat /\
      shm s2 = shm s1 /\
      bitmap (slot (ring_array s2) (Z.to_nat r)) =
        set_bit m' (set_bit m (bitmap (slot (ring_array s) (Z.to_nat r)))).
Proof.
  intros Hb Hrm Hwf Hla i nb gp r s1 t1 Hcall Hr Hptr.
  destruct (ring_new_spec cfg be size sp m flags s Hrm Hwf)
    as (r' & s' & t' & Hcall' & _ & _ & Hcases).
  rewrite Hcall in Hcall'. injection Hcall' as <- <- <-.
  fold i nb gp in Hcases. unfold wf_state in Hwf.
  destruct Hcases as [(_ & -> & _)|[(_ & _ & -> & _)|[(_ & _ & _ & -> & _)
                     |(Hi & _ & _ & -> & _ & ->)]]];
    try (unfold ENOMEM in Hr; lia).
  rewrite Hb in *. cbn [ULAPI ring_addr_array ring_array] in *.
  rewrite Nat2Z.id.
  assert (Hcache : <[i := snd (fst gp)]> (ring_addr_array s) !! i = Some (snd (fst gp)))
    by (apply list_lookup_insert_eq; lia).
  split; [exact Hcache|].
  match goal with |- context [_rtapi_ring_attach _ _ _ _ _ ?st] =>
    assert (Hwf1 : wf_state cfg st)
      by (unfold wf_state; cbn [ring_array]; rewrite length_insert; exact Hwf);
    destruct (ring_attach_spec cfg be (Z.of_nat i) m' p0 st eq_refl Hwf1)
      as (r2 & s2 & t2 & Hcall2 & _ & Hcases);
    destruct (ring_attach_events cfg be (Z.of_nat i) m' p0 st eq_refl Hwf1)
      as (r3 & s3 & t3 & Hcall3 & _ & _ & _ & _ & Hnocall)
  end.
  rewrite Hcall2 in Hcall3. injection Hcall3 as <- <- <-.
  cbn [ring_array ring_addr_array shm mutex] in Hcases, Hnocall.
  rewrite Nat2Z.id in Hcases, Hnocall.
  rewrite slot_insert_eq in Hcases, Hnocall by lia.
  rewrite Hcache in Hcases. cbn [default] in Hcases.
  rewrite Hb in Hcases, Hnocall. cbn [BUILD_SYS_KBUILD] in Hcases, Hnocall.
  destruct Hcases as [(Hbad & _)|(_ & Hcases)]; [lia|].
  destruct Hcases as [(_ & Hk' & _)
                     |[(_ & Hk' & _)
                      |[(_ & _ & Hnull & _)
                       |[(Hc & _ & _ & -> & ->)
                        |[(Hc & _)
                         |[(Hc & _)
                          |[(Hc & _)
                           |[(Hc & _)
                            |(Hc & _)]]]]]]]];
    try discriminate; try contradiction;
    try (exfalso; apply Hc; reflexivity).
  eexists; exists t2. split; [exact Hcall2|].
  split; [exact (Hnocall eq_refl Hc)|]. split; [reflexivity|].
  cbn [ring_array]. rewrite slot_insert_eq by (rewrite length_insert; lia).
  reflexivity.
Qed.

(** X6.  In the user-DSO RTAPI build Create does not record the mapping
    (line 96 is ULAPI only), so when the process had no cached pointer for
    the slot, an Attach to the handle Create just returned fails with
    [-ENOMEM] and the BUG message, and changes nothing. *)
Theorem user_dso_rtapi_create_then_attach_fails size sp m flags m' p0 s :
  build cfg = USER_DSO_RTAPI ->
  ring_mutex s = false -> wf_state cfg s ->
  forall r s1 t1,
    _rtapi_ring_new cfg be size sp m flags s = Some (r, s1, t1) ->
    0 <= r ->
    default 0 (ring_addr_array s !! Z.to_nat r) = 0 ->
    ring_addr_array s1 = ring_addr_array s /\
    exists t2,
      _rtapi_ring_attach cfg be r m' p0 s1 = Some (- ENOMEM, s1, t2) /\
      In (EvMsg "_rtapi_ring_attach: BUG rhptr == NULL") t2.
Proof.
  intros Hb Hrm Hwf r s1 t1 Hcall Hr Hnull.
  destruct (ring_new_spec cfg be size sp m flags s Hrm Hwf)
    as (r' & s' & t' & Hcall' & _ & _ & Hcases).
  rewrite Hcall in Hcall'. injection Hcall' as <- <- <-.
  set (i := first_free cfg (RTAPI_MAX_RINGS cfg) 0 (ring_array s)) in *.
  unfold wf_state in Hwf.
  destruct Hcases as [(_ & -> & _)|[(_ & _ & -> & _)|[(_ & _ & _ & -> & _)
                     |(Hi & _ & _ & -> & _ & ->)]]];
    try (unfold ENOMEM in Hr; lia).
  rewrite Hb in *. cbn [ULAPI] in *. rewrite Nat2Z.id in Hnull.
  split; [reflexivity|].
  match goal with |- context [_rtapi_ring_attach _ _ _ _ _ ?st] =>
    assert (Hwf1 : wf_state cfg st)
      by (unfold wf_state; cbn [ring_array]; rewrite length_insert; exact Hwf);
    destruct (ring_attach_spec cfg be (Z.of_nat i) m' p0 st eq_refl Hwf1)
      as (r2 & s2 & t2 & Hcall2 & _ & Hcases)
  end.
  cbn [ring_array ring_addr_array shm mutex] in Hcases.
  rewrite Nat2Z.id in Hcases. rewrite slot_insert_eq in Hcases by lia.
  rewrite Hb in Hcases. cbn [BUILD_SYS_KBUILD] in Hcases.
  destruct Hcases as [(Hbad & _)|(_ & Hcases)]; [lia|].
  destruct Hcases as [(_ & Hk' & _)
                     |[(_ & Hk' & _)
                      |[(_ & _ & _ & -> & -> & Hin)
                       |[(_ & _ & Hnn & _)
                        |[(Hc & _)
                         |[(Hc & _)
                          |[(Hc & _)
                           |[(Hc & _)
                            |(Hc & _)]]]]]]]];
    try discriminate; try contradiction;
    try (exfalso; apply Hc; reflexivity).
  exists t2. split; [exact Hcall2|exact Hin].
Qed.

(** X7.  A successful Attach of a module whose id the refcount loop
    looks at raises the value of Refcount by exactly one when the module
    was not attached before, and leaves it as it is when it was. *)
Theorem attach_counts_new_module_once handle m p0 s s1 t1 :
  quiescent s -> wf_state cfg s ->
  0 <= handle < Z.of_nat (RTAPI_MAX_RINGS cfg) ->
  0 <= m < Z.of_nat (RTAPI_MAX_RINGS cfg) ->
  committed cfg (slot (ring_array s) (Z.to_nat handle)) ->
  _rtapi_ring_attach cfg be handle m p0 s = Some (0, s1, t1) ->
  exists c ta tb,
    _rtapi_ring_refcount cfg handle s = Some (c, s, ta) /\
    _rtapi_ring_refcount cfg handle s1 =
      Some (c + (if test_bit m (bitmap (slot (ring_array s) (Z.to_nat handle)))
                 then 0 else 1), s1, tb).
Proof.
  intros [Hrm Hm] Hwf Hh Hmod Hc Hcall.
  destruct (ring_attach_step cfg be handle m p0 s Hrm Hwf)
    as (r' & s' & t' & Hcall' & _ & Hm1 & _ & _ & Hcase).
  rewrite Hcall in Hcall'. injection Hcall' as <- <- <-.
  destruct Hcase as [(Hr & _)|(_ & _ & Hc1 & Hbm)]; [contradiction|].
  do 3 eexists. rewrite !refcount_eq by congruence.
  rewrite !refcount_value_committed by assumption.
  rewrite Hbm, count_bits_set_bit by lia.
  split; [reflexivity|]. repeat f_equal.
  destruct (Z.leb_spec 0 m), (Z.ltb_spec m (0 + Z.of_nat (RTAPI_MAX_RINGS cfg)));
    try lia.
  destruct (test_bit m _); reflexivity.
Qed.

(** X8.  Detach of an attached module whose id the refcount loop looks
    at: when it was the only counted attacher the slot is free afterwards
    and Refcount returns [-EINVAL]; otherwise the ring stays and Refcount
    returns one less than before. *)
Theorem detach_takes_one_from_refcount handle m s :
  RING_MAGIC cfg <> 0 ->
  quiescent s -> wf_state cfg s ->
  0 <= handle < Z.of_nat (RTAPI_MAX_RINGS cfg) ->
  0 <= m < Z.of_nat (RTAPI_MAX_RINGS cfg) ->
  committed cfg (slot (ring_array s) (Z.to_nat handle)) ->
  attached m (slot (ring_array s) (Z.to_nat handle)) ->
  exists c ta s1 t1 tb,
    _rtapi_ring_refcount cfg handle s = Some (c, s, ta) /\
    1 <= c /\
    _rtapi_ring_detach cfg be handle m s = Some (0, s1, t1) /\
    _rtapi_ring_refcount cfg handle s1 =
      Some (if c =? 1 then - EINVAL else c - 1, s1, tb) /\
    (committed cfg (slot (ring_array s1) (Z.to_nat handle)) <-> c <> 1).
Proof.
  intros Hmagic [Hrm Hm] Hwf Hh Hmod Hc Hatt.
  set (h := Z.to_nat handle) in *.
  set (rd := slot (ring_array s) h) in *.
  assert (Hcnt : count_bits (RTAPI_MAX_RINGS cfg) 0 (clear_bit m (bitmap rd))
                 = count_bits (RTAPI_MAX_RINGS cfg) 0 (bitmap rd) - 1).
  { rewrite count_bits_clear_bit by lia. unfold attached in Hatt. rewrite Hatt.
    destruct (Z.leb_spec 0 m), (Z.ltb_spec m (0 + Z.of_nat (RTAPI_MAX_RINGS cfg)));
      try lia. reflexivity. }
  assert (Hpos : 1 <= count_bits (RTAPI_MAX_RINGS cfg) 0 (bitmap rd)).
  { pose proof (count_bits_pos_of m) as H. apply H; [lia|exact Hatt]. }
  destruct (ring_detach_spec cfg be handle m s Hm Hwf)
    as (r & s1 & t1 & Hcall & _ & Hcases).
  fold h rd in Hcases. unfold wf_state in Hwf.
  assert (Hhl : (h < length (ring_array s))%nat) by (unfold h; lia).
  exists (count_bits (RTAPI_MAX_RINGS cfg) 0 (bitmap rd)).
  destruct Hcases as [(Hbad & _)
                     |[(_ & _ & Hnz & -> & ->)
                      |(_ & _ & Hz & -> & _ & _ & ->)]].
  - exfalso. destruct Hbad as [?|[?|?]]; [lia|lia|contradiction].
  - match type of Hcall with _ = Some (_, ?st, _) =>
      exists (refcount_trace cfg handle (ring_array s)), st, t1,
             (refcount_trace cfg handle (ring_array st))
    end.
    rewrite !refcount_eq by first [exact Hm | reflexivity].
    cbn [ring_array].
    rewrite !refcount_value_committed;
      try lia; fold h; rewrite ?slot_insert_eq by exact Hhl; try exact Hc.
    fold rd. cbn [bitmap].
    split; [reflexivity|]. split; [exact Hpos|]. split; [exact Hcall|].
    rewrite Hcnt in *.
    destruct (Z.eqb_spec (count_bits (RTAPI_MAX_RINGS cfg) 0 (bitmap rd)) 1) as [E|E];
      [lia|].
    split; [reflexivity|]. split; [intros _; exact E|intros _; exact Hc].
  - match type of Hcall with _ = Some (_, ?st, _) =>
      exists (refcount_trace cfg handle (ring_array s)), st, t1,
             (refcount_trace cfg handle (ring_array st))
    end.
    rewrite !refcount_eq by first [exact Hm | reflexivity].
    cbn [ring_array].
    assert (Hfree : ~ committed cfg
              (slot (<[h := mk_ring_data 0 (key rd) (owner rd) (shmem_id rd)
                                         (clear_bit m (bitmap rd)) (count rd)]>
                       (ring_array s)) h)).
    { rewrite slot_insert_eq by exact Hhl. unfold committed. cbn [magic]. congruence. }
    rewrite (refcount_value_committed cfg handle (ring_array s)) by assumption.
    rewrite refcount_value_invalid by (right; right; exact Hfree).
    fold h rd.
    split; [reflexivity|]. split; [exact Hpos|]. split; [exact Hcall|].
    rewrite Hcnt in Hz.
    destruct (Z.eqb_spec (count_bits (RTAPI_MAX_RINGS cfg) 0 (bitmap rd)) 1) as [E|E];
      [|lia].
    split; [reflexivity|]. split; [intros Hx; contradiction|intros Hx; contradiction].
Qed.

(** X9.  Detach writes nothing but the attacher bitmap and the tag of
    the handle's slot: key, owner, segment id and count of that slot,
    every other slot and the local address cache (also the entry of a
    ring it has just freed) are as before, the only backend call it can
    make is the delete, and for a slot that is not committed the table is
    unchanged. *)
Theorem detach_frame handle m s :
  RING_MAGIC cfg <> 0 ->
  mutex s = false -> wf_state cfg s ->
  let h := Z.to_nat handle in
  exists r s' t,
    _rtapi_ring_detach cfg be handle m s = Some (r, s', t) /\
    (forall j, j <> h -> slot (ring_array s') j = slot (ring_array s) j) /\
    key (slot (ring_array s') h) = key (slot (ring_array s) h) /\
    owner (slot (ring_array s') h) = owner (slot (ring_array s) h) /\
    shmem_id (slot (ring_array s') h) = shmem_id (slot (ring_array s) h) /\
    count (slot (ring_array s') h) = count (slot (ring_array s) h) /\
    ring_addr_array s' = ring_addr_array s /\
    count_events is_shmem_new t = 0%nat /\
    (~ committed cfg (slot (ring_array s) h) ->
     r = - EINVAL /\ ring_array s' = ring_array s /\ shm s' = shm s) /\
    (committed cfg (slot (ring_array s') h) -> shm s' = shm s).
Proof.
  intros Hmagic Hm Hwf h.
  destruct (ring_detach_spec cfg be handle m s Hm Hwf)
    as (r & s' & t & Hcall & _ & Hcases).
  destruct (ring_detach_events cfg be handle m s Hm Hwf)
    as (r2 & s2 & t2 & Hcall2 & _ & _ & _ & Hnew & _).
  rewrite Hcall in Hcall2. injection Hcall2 as <- <- <-.
  exists r, s', t. split; [exact Hcall|].
  fold h in Hcases. unfold wf_state in Hwf.
  destruct Hcases as [(_ & -> & ->)
                     |[(Hh & Hc & _ & -> & ->)
                      |(Hh & Hc & _ & -> & _ & _ & ->)]];
    cbn [ring_array ring_addr_array shm];
    rewrite ?slot_insert_eq by (unfold h; lia); cbn [key owner shmem_id count magic];
    repeat split; auto; try contradiction;
    try (intros j Hj; apply slot_insert_ne; auto).
  intros Hx. unfold committed in Hx. cbn [magic] in Hx.
  exfalso. apply Hmagic. symmetry. exact Hx.
Qed.

(** X10.  Refcount only reads: it returns the state it was given, makes
    no backend call and writes no slot.  Its result is [-EINVAL] or a
    count between 0 and [RTAPI_MAX_RINGS], and it is a count exactly when
    the handle is in range and its slot is committed. *)
Theorem refcount_reads_only_and_is_bounded handle s :
  mutex s = false ->
  exists r t,
    _rtapi_ring_refcount cfg handle s = Some (r, s, t) /\
    count_events is_backend_call t = 0%nat /\
    count_events (fun e => match e with EvSlotWrite _ _ => true | _ => false end) t
      = 0%nat /\
    (r = - EINVAL \/ 0 <= r <= Z.of_nat (RTAPI_MAX_RINGS cfg)) /\
    (0 <= r <->
     0 <= handle < Z.of_nat (RTAPI_MAX_RINGS cfg) /\
     committed cfg (slot (ring_array s) (Z.to_nat handle))).
Proof.
  intros Hm. do 2 eexists. rewrite refcount_eq by exact Hm.
  split; [reflexivity|].
  assert (Htr : forall p, p (EvMutexGet RtapiMutex) = false ->
                  p (EvMutexGive RtapiMutex) = false ->
                  (forall i f, p (EvSlotRead i f) = false) ->
                  count_events p (refcount_trace cfg handle (ring_array s)) = 0%nat).
  { intros p Hg Hv Hrd. unfold refcount_trace.
    rewrite count_events_cons, count_events_app, Hg.
    rewrite (count_events_cons p (EvMutexGive RtapiMutex)), Hv.
    destruct ((handle <? 0) || (handle >=? Z.of_nat (RTAPI_MAX_RINGS cfg)));
      [reflexivity|].
    rewrite count_events_cons, Hrd.
    destruct (negb _); [reflexivity|].
    rewrite count_events_repeat by apply Hrd. reflexivity. }
  split; [apply Htr; reflexivity|]. split; [apply Htr; reflexivity|].
  destruct (Z_lt_le_dec handle 0) as [Hlo|Hlo];
    [|destruct (Z_lt_le_dec handle (Z.of_nat (RTAPI_MAX_RINGS cfg))) as [Hhi|Hhi]].
  - rewrite refcount_value_invalid by tauto.
    split; [left; reflexivity|]. unfold EINVAL. split; intros; lia.
  - destruct (Z.eq_dec (magic (slot (ring_array s) (Z.to_nat handle))) (RING_MAGIC cfg))
      as [Hc|Hc].
    + rewrite refcount_value_committed by (try lia; exact Hc).
      pose proof (count_bits_nonneg (RTAPI_MAX_RINGS cfg) 0
                    (bitmap (slot (ring_array s) (Z.to_nat handle)))).
      pose proof (count_bits_le (RTAPI_MAX_RINGS cfg) 0
                    (bitmap (slot (ring_array s) (Z.to_nat handle)))).
      split; [right; lia|]. split; [intros _; split; [lia|exact Hc]|intros _; lia].
    + rewrite refcount_value_invalid by (right; right; exact Hc).
      split; [left; reflexivity|]. unfold EINVAL.
      split; [intros; lia|intros [_ Hx]; contradiction].
  - rewrite refcount_value_invalid by tauto.
    split; [left; reflexivity|]. unfold EINVAL. split; intros; lia.
Qed.

(** X11.  When no free slot has a counted bit left in its bitmap (as in a
    zero-filled table), Refcount on the handle that a Create by a counted
    module has just returned is 1. *)
Theorem create_then_refcount_is_one size sp m flags s r s1 t1 :
  quiescent s -> wf_state cfg s ->
  0 <= m < Z.of_nat (RTAPI_MAX_RINGS cfg) ->
  free_slots_uncounted cfg (ring_array s) ->
  _rtapi_ring_new cfg be size sp m flags s = Some (r, s1, t1) ->
  0 <= r ->
  exists t, _rtapi_ring_refcount cfg r s1 = Some (1, s1, t).
Proof.
  intros [Hrm Hm] Hwf Hmod Hinv Hcall Hr.
  destruct (ring_new_step cfg be size sp m flags s Hrm Hwf)
    as (r' & s' & t' & Hcall' & _ & Hm1 & _ & _ & Hcase).
  rewrite Hcall in Hcall'. injection Hcall' as <- <- <-.
  set (i := first_free cfg (RTAPI_MAX_RINGS cfg) 0 (ring_array s)) in *.
  destruct Hcase as [(-> & _)|(-> & Hi & Hmag & Hbm)]; [unfold ENOMEM in Hr; lia|].
  assert (Hz : count_bits (RTAPI_MAX_RINGS cfg) 0 (bitmap (slot (ring_array s) i)) = 0).
  { apply Hinv; [exact Hi|]. apply first_free_free. lia. }
  eexists. rewrite refcount_eq by congruence.
  rewrite refcount_value_committed; [|lia|rewrite Nat2Z.id; exact Hmag].
  rewrite Nat2Z.id, Hbm, count_bits_set_bit, Hz by lia.
  rewrite (proj1 (count_bits_zero _ _ _) Hz m) by lia.
  destruct (Z.leb_spec 0 m), (Z.ltb_spec m (0 + Z.of_nat (RTAPI_MAX_RINGS cfg)));
    try lia. reflexivity.
Qed.

(** X12.  Every completed call keeps the table at its size, leaves both
    mutexes free and keeps the bitmaps of free slots without counted
    bits: a slot is only freed by Detach when its count has dropped to
    zero, and failed calls do not touch bitmaps. *)
Theorem free_slots_uncounted_kept c s r s' t :
  quiescent s -> wf_state cfg s ->
  free_slots_uncounted cfg (ring_array s) ->
  do_call cfg be c s = Some (r, s', t) ->
  quiescent s' /\ wf_state cfg s' /\ free_slots_uncounted cfg (ring_array s').
Proof.
  intros [Hrm Hm] Hwf Hinv Hcall.
  destruct c as [size sp m flags|handle m p0|handle|handle m]; cbn in Hcall.
  - destruct (ring_new_step cfg be size sp m flags s Hrm Hwf)
      as (r' & s1 & t1 & Hcall' & Hrm1 & Hm1 & Hwf1 & Hother & Hcase).
    rewrite Hcall in Hcall'. injection Hcall' as <- <- <-.
    split; [split; congruence|]. split; [exact Hwf1|].
    intros j Hj Hf.
    destruct (Nat.eq_dec j (first_free cfg (RTAPI_MAX_RINGS cfg) 0 (ring_array s)))
      as [->|Hne].
    + destruct Hcase as [(_ & _ & Hmag & Hbm)|(_ & _ & Hmag & _)].
      * rewrite Hbm. apply Hinv; [exact Hj|]. unfold committed in *. congruence.
      * contradiction.
    + rewrite Hother in Hf |- * by exact Hne. apply Hinv; assumption.
  - destruct (ring_attach_step cfg be handle m p0 s Hrm Hwf)
      as (r' & s1 & t1 & Hcall' & Hrm1 & Hm1 & Hwf1 & Hother & Hcase).
    rewrite Hcall in Hcall'. injection Hcall' as <- <- <-.
    split; [split; congruence|]. split; [exact Hwf1|].
    intros j Hj Hf.
    destruct (Nat.eq_dec j (Z.to_nat handle)) as [->|Hne].
    + destruct Hcase as [(_ & Hmag & Hbm)|(_ & _ & Hc & _)].
      * rewrite Hbm. apply Hinv; [exact Hj|]. unfold committed in *. congruence.
      * contradiction.
    + rewrite Hother in Hf |- * by exact Hne. apply Hinv; assumption.
  - rewrite refcount_eq in Hcall by exact Hm. injection Hcall as <- <- <-.
    split; [split; assumption|]. split; assumption.
  - destruct (ring_detach_spec cfg be handle m s Hm Hwf)
      as (r' & s1 & t1 & Hcall' & _ & Hcases).
    rewrite Hcall in Hcall'. injection Hcall' as <- <- <-.
    unfold wf_state in *.
    destruct Hcases as [(_ & _ & ->)
                       |[(Hh & Hc & Hnz & _ & ->)
                        |(Hh & Hc & Hz & _ & _ & _ & ->)]];
      cbn [ring_array ring_addr_array ring_mutex mutex]; rewrite ?length_insert;
      (split; [split; reflexivity|]); (split; [exact Hwf|]).
    + exact Hinv.
    + intros j Hj Hf.
      destruct (Nat.eq_dec j (Z.to_nat handle)) as [->|Hne].
      * rewrite slot_insert_eq in Hf by lia. exfalso. apply Hf. exact Hc.
      * rewrite slot_insert_ne in Hf |- * by auto. apply Hinv; assumption.
    + intros j Hj Hf.
      destruct (Nat.eq_dec j (Z.to_nat handle)) as [->|Hne].
      * rewrite slot_insert_eq by lia. exact Hz.
      * rewrite slot_insert_ne in Hf |- * by auto. apply Hinv; assumption.
Qed.

(** One completed call keeps the derived keys of committed slots. *)
Lemma keys_derived_step c s r s' t :
  quiescent s -> wf_state cfg s ->
  keys_derived cfg (ring_array s) ->
  do_call cfg be c s = Some (r, s', t) ->
  quiescent s' /\ wf_state cfg s' /\ keys_derived cfg (ring_array s').
Proof.
  intros [Hrm Hm] Hwf Hinv Hcall.
  destruct c as [size sp m flags|handle m p0|handle|handle m]; cbn in Hcall.
  - destruct (ring_new_spec cfg be size sp m flags s Hrm Hwf)
      as (r' & s1 & t1 & Hcall' & _ & _ & Hcases).
    rewrite Hcall in Hcall'. injection Hcall' as <- <- <-.
    set (i := first_free cfg (RTAPI_MAX_RINGS cfg) 0 (ring_array s)) in *.
    unfold wf_state in *.
    destruct Hcases as [(_ & _ & -> & _)
                       |[(Hi & _ & _ & _ & ->)
                        |[(Hi & _ & _ & _ & _ & ->)
                         |(Hi & _ & _ & _ & _ & ->)]]];
      cbn [ring_array ring_mutex mutex]; rewrite ?length_insert;
      (split; [split; first [assumption|reflexivity]|]); (split; [exact Hwf|]);
      try exact Hinv;
      (intros j Hj Hc; destruct (Nat.eq_dec j i) as [->|Hne];
       [rewrite slot_insert_eq by lia; reflexivity
       |rewrite slot_insert_ne in Hc |- * by auto; apply Hinv; assumption]).
  - destruct (ring_attach_spec cfg be handle m p0 s Hrm Hwf)
      as (r' & s1 & t1 & Hcall' & _ & Hcases).
    rewrite Hcall in Hcall'. injection Hcall' as <- <- <-.
    set (h := Z.to_nat handle) in *.
    unfold wf_state in *.
    destruct Hcases as [(_ & _ & ->)|(Hh & Hcases)].
    { split; [split; assumption|]. split; assumption. }
    assert (Hk : RTAPI_RING_SHM_KEY cfg + handle = RTAPI_RING_SHM_KEY cfg + Z.of_nat h)
      by (unfold h; lia).
    destruct Hcases as [(Hc & _ & _ & _ & ->)
                       |[(Hc & _ & _ & _ & ->)
                        |[(Hc & _ & _ & _ & -> & _)
                         |[(Hc & _ & _ & _ & ->)
                          |[(Hc & _ & _ & -> & _)
                           |[(Hc & _ & _ & _ & -> & _)
                            |[(Hc & _ & _ & _ & _ & ->)
                             |[(Hc & _ & _ & _ & _ & _ & ->)
                              |(Hc & _ & _ & _ & _ & _ & ->)]]]]]]]];
      cbn [ring_array ring_mutex mutex]; rewrite ?length_insert;
      (split; [split; first [assumption|reflexivity]|]); (split; [exact Hwf|]);
      try exact Hinv;
      (intros j Hj Hcj; destruct (Nat.eq_dec j h) as [->|Hne];
       [rewrite slot_insert_eq by (unfold h; lia); cbn [key];
        first [exact Hk | apply Hinv; assumption]
       |rewrite slot_insert_ne in Hcj |- * by auto; apply Hinv; assumption]).
  - rewrite refcount_eq in Hcall by exact Hm. injection Hcall as <- <- <-.
    split; [split; assumption|]. split; assumption.
  - destruct (ring_detach_spec cfg be handle m s Hm Hwf)
      as (r' & s1 & t1 & Hcall' & _ & Hcases).
    rewrite Hcall in Hcall'. injection Hcall' as <- <- <-.
    unfold wf_state in *.
    destruct Hcases as [(_ & _ & ->)
                       |[(Hh & Hc & _ & _ & ->)
                        |(Hh & Hc & _ & _ & _ & _ & ->)]];
      cbn [ring_array ring_addr_array ring_mutex mutex]; rewrite ?length_insert;
      (split; [split; reflexivity|]); (split; [exact Hwf|]);
      try exact Hinv;
      (intros j Hj Hcj; destruct (Nat.eq_dec j (Z.to_nat handle)) as [->|Hne];
       [rewrite slot_insert_eq by lia; cbn [key]; apply Hinv; assumption
       |rewrite slot_insert_ne in Hcj |- * by auto; apply Hinv; assumption]).
Qed.

(** X13.  In every state reached from an empty table by completed
    calls, with any module ids, a committed slot carries the key
    [RTAPI_RING_SHM_KEY] plus its index, whether Create or the user-space
    lookup of Attach committed it; so two committed slots never have the
    same key. *)
Theorem committed_keys_derived_and_distinct s :
  reached cfg be s ->
  keys_derived cfg (ring_array s) /\
  forall j1 j2,
    (j1 < RTAPI_MAX_RINGS cfg)%nat -> (j2 < RTAPI_MAX_RINGS cfg)%nat ->
    committed cfg (slot (ring_array s) j1) ->
    committed cfg (slot (ring_array s) j2) ->
    key (slot (ring_array s) j1) = key (slot (ring_array s) j2) ->
    j1 = j2.
Proof.
  intros Hreach.
  assert (H : quiescent s /\ wf_state cfg s /\ keys_derived cfg (ring_array s)).
  { induction Hreach as [s Hq Hwf Hempty|s c r s' t Hreach IH Hcall].
    - split; [exact Hq|]. split; [exact Hwf|].
      intros j Hj Hc. exfalso. exact (Hempty j Hj Hc).
    - destruct IH as (Hq & Hwf & Hinv).
      exact (keys_derived_step c s r s' t Hq Hwf Hinv Hcall). }
  destruct H as (_ & _ & Hkeys). split; [exact Hkeys|].
  intros j1 j2 H1 H2 Hc1 Hc2 Heq.
  rewrite (Hkeys j1 H1 Hc1), (Hkeys j2 H2 Hc2) in Heq. lia.
Qed.

(** X14.  What Create asks of the backend.  With no free slot it makes
    no backend call.  Otherwise it calls [_rtapi_shmem_new] exactly once,
    with the derived key, the caller's module id and the size
    [rtapi_ring_memsize] computes, and maps the segment at most once.  It
    never calls [_rtapi_shmem_delete]: when the mapping fails after the
    segment was created, Create returns [-ENOMEM] and the segment is
    left behind.  Create succeeds exactly when a slot is free and both
    calls succeed, and the ring header is initialised exactly when Create
    succeeds: once, at the mapped address, on success and not at all on
    failure. *)
Theorem create_backend_calls size sp m flags s :
  ring_mutex s = false -> wf_state cfg s ->
  let i := first_free cfg (RTAPI_MAX_RINGS cfg) 0 (ring_array s) in
  let k := RTAPI_RING_SHM_KEY cfg + Z.of_nat i in
  let total := rtapi_ring_memsize cfg flags size sp in
  let nb := _rtapi_shmem_new be k m total (shm s) in
  let gp := _rtapi_shmem_getptr be (fst nb) (snd nb) in
  exists r s' t,
    _rtapi_ring_new cfg be size sp m flags s = Some (r, s', t) /\
    count_events is_shmem_delete t = 0%nat /\
    (i = RTAPI_MAX_RINGS cfg -> count_events is_backend_call t = 0%nat) /\
    ((i < RTAPI_MAX_RINGS cfg)%nat ->
     count_events is_shmem_new t = 1%nat /\
     In (EvShmemNew k m total (fst nb)) t /\
     (count_events is_shmem_getptr t <= 1)%nat) /\
    ((i < RTAPI_MAX_RINGS cfg)%nat -> 0 <= fst nb -> fst (fst gp) <> 0 ->
     r = - ENOMEM /\ In (EvShmemGetptr (fst nb) (fst (fst gp))) t) /\
    (0 <= r <-> (i < RTAPI_MAX_RINGS cfg)%nat /\ 0 <= fst nb /\ fst (fst gp) = 0) /\
    (0 <= r <-> count_events is_header_init t = 1%nat) /\
    (r < 0 <-> count_events is_header_init t = 0%nat) /\
    (0 <= r -> In (EvHeaderInit (snd (fst gp)) flags size sp) t).
Proof.
  intros Hrm Hwf i k total nb gp.
  destruct (ring_new_events cfg be size sp m flags s Hrm Hwf)
    as (r & s' & t & Hcall & _ & Hdel & Hcases).
  destruct (ring_new_order cfg be size sp m flags s Hrm Hwf)
    as (r' & s'' & t' & Hcall' & Hord).
  rewrite Hcall in Hcall'. injection Hcall' as <- <- <-.
  fold i k total nb gp in Hcases, Hord.
  exists r, s', t. split; [exact Hcall|]. split; [exact Hdel|].
  assert (Hneg : ~ 0 <= - ENOMEM) by (unfold ENOMEM; lia).
  assert (Hinit : (r = - ENOMEM /\ count_events is_header_init t = 0%nat)
                  \/ (r = Z.of_nat i /\ count_events is_header_init t = 1%nat)).
  { destruct Hord as [(_ & ? & ?)|[(_ & _ & ? & ?)|[(_ & _ & _ & ? & ?)
                     |(_ & _ & _ & ? & ? & _)]]]; auto. }
  assert (Hhdr : (0 <= r <-> count_events is_header_init t = 1%nat) /\
                 (r < 0 <-> count_events is_header_init t = 0%nat)).
  { destruct Hinit as [[-> ->]|[-> ->]]; repeat split; intros; try lia; discriminate. }
  destruct Hhdr as [Hh1 Hh0].
  destruct Hcases as [(Hi & -> & Hnone)
                     |[(Hi & Hnb & -> & Hnew & Hget & Hin)
                      |[(Hi & Hnb & Hgp & -> & Hnew & Hget & Hin & Hin2)
                       |(Hi & Hnb & Hgp & -> & Hnew & Hget & Hin & Hin2)]]].
  - repeat split; intros; try lia; try tauto.
  - repeat split; intros; try lia; try tauto.
  - repeat split; intros; try lia; try tauto.
  - repeat split; intros; try lia; try tauto.
Qed.

(** X15.  In the kernel build Attach never creates anything: it makes no
    [_rtapi_shmem_new] call and no [shmget] probe, leaves the local
    address cache alone and writes no slot field but the attacher bitmap.
    A ring must have been created first: on a slot that is not committed
    it returns [-ENOMEM] and changes nothing. *)
Theorem kbuild_attach_needs_committed_slot handle m p0 s :
  BUILD_SYS_KBUILD (build cfg) = true ->
  ring_mutex s = false -> wf_state cfg s ->
  exists r s' t,
    _rtapi_ring_attach cfg be handle m p0 s = Some (r, s', t) /\
    count_events is_shmem_new t = 0%nat /\
    count_events (fun e => match e with EvShmget _ => true | _ => false end) t = 0%nat /\
    ring_addr_array s' = ring_addr_array s /\
    (forall j, set_field Fbitmap 0 (slot (ring_array s') j) =
               set_field Fbitmap 0 (slot (ring_array s) j)) /\
    (0 <= handle < Z.of_nat (RTAPI_MAX_RINGS cfg) ->
     ~ committed cfg (slot (ring_array s) (Z.to_nat handle)) ->
     r = - ENOMEM /\ s' = s).
Proof.
  intros Hk Hrm Hwf.
  destruct (ring_attach_spec cfg be handle m p0 s Hrm Hwf)
    as (r & s' & t & Hcall & _ & Hcases).
  destruct (ring_attach_events cfg be handle m p0 s Hrm Hwf)
    as (r2 & s2 & t2 & Hcall2 & _ & _ & _ & Hkb & _).
  rewrite Hcall in Hcall2. injection Hcall2 as <- <- <-.
  destruct (Hkb Hk) as (Hnew & Hprobe & _).
  exists r, s', t. split; [exact Hcall|]. split; [exact Hnew|]. split; [exact Hprobe|].
  destruct Hcases as [(Hbad & -> & ->)|(Hh & Hcases)].
  { repeat split; auto; intros; lia. }
  destruct Hcases as [(Hc & _ & _ & -> & ->)
                     |[(Hc & _ & _ & -> & ->)
                      |[(Hc & Hk' & _)
                       |[(Hc & Hk' & _)
                        |[(Hc & _ & -> & -> & _)
                         |[(Hc & Hk' & _)
                          |[(Hc & Hk' & _)
                           |[(Hc & Hk' & _)
                            |(Hc & Hk' & _)]]]]]]]];
    try congruence;
    cbn [ring_array ring_addr_array];
    repeat split; auto; try contradiction;
    try (apply (slot_insert_field (set_field Fbitmap 0)); reflexivity).
Qed.

(** X16.  Create followed by Detach of the creator, when no free slot
    had a counted bit left and the creator's id is counted: Detach
    returns 0, deletes the segment Create obtained, on behalf of the
    creator, the slot is free again, every slot is committed afterwards
    exactly if it was before the Create, and bitmaps of free slots are
    again without counted bits. *)
Theorem create_detach_round_trip size sp m flags s r s1 t1 :
  RING_MAGIC cfg <> 0 ->
  quiescent s -> wf_state cfg s ->
  0 <= m < Z.of_nat (RTAPI_MAX_RINGS cfg) ->
  free_slots_uncounted cfg (ring_array s) ->
  _rtapi_ring_new cfg be size sp m flags s = Some (r, s1, t1) ->
  0 <= r ->
  let i := first_free cfg (RTAPI_MAX_RINGS cfg) 0 (ring_array s) in
  let nb := _rtapi_shmem_new be (RTAPI_RING_SHM_KEY cfg + Z.of_nat i) m
              (rtapi_ring_memsize cfg flags size sp) (shm s) in
  exists s2 t2,
    _rtapi_ring_detach cfg be r m s1 = Some (0, s2, t2) /\
    In (EvShmemDelete (fst nb) m
          (fst (_rtapi_shmem_delete be (fst nb) m (shm s1)))) t2 /\
    (forall j, committed cfg (slot (ring_array s2) j) <->
               committed cfg (slot (ring_array s) j)) /\
    free_slots_uncounted cfg (ring_array s2) /\
    exists t3, _rtapi_ring_refcount cfg r s2 = Some (- EINVAL, s2, t3).
Proof.
  intros Hmagic [Hrm Hm] Hwf Hmod Hinv Hcall Hr i nb.
  destruct (ring_new_spec cfg be size sp m flags s Hrm Hwf)
    as (r' & s' & t' & Hcall' & _ & _ & Hcases).
  rewrite Hcall in Hcall'. injection Hcall' as <- <- <-.
  fold i nb in Hcases. unfold wf_state in Hwf.
  destruct Hcases as [(_ & -> & _)|[(_ & _ & -> & _)|[(_ & _ & _ & -> & _)
                     |(Hi & _ & _ & -> & _ & ->)]]];
    try (unfold ENOMEM in Hr; lia).
  set (bm := bitmap (slot (ring_array s) i)) in *.
  assert (Hfree : ~ committed cfg (slot (ring_array s) i))
    by (apply first_free_free; lia).
  assert (Hz : count_bits (RTAPI_MAX_RINGS cfg) 0 bm = 0) by (apply Hinv; assumption).
  assert (Hz' : count_bits (RTAPI_MAX_RINGS cfg) 0 (clear_bit m (set_bit m bm)) = 0).
  { rewrite count_bits_clear_bit, count_bits_set_bit, Hz by lia.
    rewrite test_set_bit, Z.eqb_refl, orb_true_r by lia.
    rewrite (proj1 (count_bits_zero _ _ _) Hz m) by lia.
    destruct (Z.leb_spec 0 m), (Z.ltb_spec m (0 + Z.of_nat (RTAPI_MAX_RINGS cfg)));
      try lia. reflexivity. }
  match goal with |- context [_rtapi_ring_detach _ _ _ _ ?st] =>
    assert (Hwf1 : wf_state cfg st)
      by (unfold wf_state; cbn [ring_array]; rewrite length_insert; exact Hwf);
    destruct (ring_detach_spec cfg be (Z.of_nat i) m st Hm Hwf1)
      as (r2 & s2 & t2 & Hcall2 & _ & Hcases)
  end.
  cbn [ring_array ring_addr_array shm mutex] in Hcases.
  rewrite Nat2Z.id in Hcases. rewrite slot_insert_eq in Hcases by lia.
  cbn [bitmap shmem_id owner key count magic] in Hcases.
  rewrite !list_insert_insert_eq in Hcases.
  destruct Hcases as [(Hbad & _)
                     |[(_ & _ & Hnz & _)
                      |(_ & _ & _ & -> & Hdel & _ & ->)]].
  { exfalso. destruct Hbad as [?|[?|Hx]]; [lia|lia|]. apply Hx. reflexivity. }
  { contradiction. }
  eexists; exists t2. split; [exact Hcall2|]. split; [exact Hdel|].
  cbn [ring_array]. rewrite ?Nat2Z.id.
  assert (Hfree2 : forall j,
            committed cfg (slot (<[i := mk_ring_data 0
                (RTAPI_RING_SHM_KEY cfg + Z.of_nat i) m (fst nb)
                (clear_bit m (set_bit m bm)) (count (slot (ring_array s) i))]>
                (ring_array s)) j) <-> committed cfg (slot (ring_array s) j)).
  { intros j. destruct (Nat.eq_dec j i) as [->|Hne].
    - rewrite slot_insert_eq by lia. unfold committed at 1. cbn [magic].
      split; [intros E; exfalso; apply Hmagic; symmetry; exact E|intros E; contradiction].
    - rewrite slot_insert_ne by auto. tauto. }
  split; [exact Hfree2|]. split.
  - intros j Hj Hf. destruct (Nat.eq_dec j i) as [->|Hne].
    + rewrite slot_insert_eq by lia. exact Hz'.
    + rewrite slot_insert_ne in Hf |- * by auto. apply Hinv; assumption.
  - eexists. rewrite refcount_eq by reflexivity. cbn [ring_array].
    rewrite refcount_value_invalid; [reflexivity|].
    right; right. rewrite ?Nat2Z.id. intros Hx. apply Hfree2 in Hx. contradiction.
Qed.

End Extras.

(** ** The further properties on the small instance *)

Lemma fresh_free_slots_uncounted b sb :
  free_slots_uncounted (small_cfg b) (ring_array (fresh_state sb)).
Proof.
  intros j Hj _. destruct j as [|[|j]]; [reflexivity|reflexivity|].
  cbn in Hj. lia.
Defined.

Lemma one_ring_free_slots_uncounted b sb :
  free_slots_uncounted (small_cfg b) (ring_array (one_ring_state sb)).
Proof.
  intros j Hj Hf. destruct j as [|[|j]]; [|reflexivity|cbn in Hj; lia].
  exfalso. apply Hf. reflexivity.
Defined.


Lemma out_of_range_handle_touches_nothing_witness :
  let cfg := small_cfg USER_DSO_ULAPI in
  let be := stub_backend in
  let s := one_ring_state stub_ok in
  let handle := 2 in
  quiescent s /\ wf_state cfg s /\
  (handle < 0 \/ Z.of_nat (RTAPI_MAX_RINGS cfg) <= handle) /\
  ((exists t,
      _rtapi_ring_attach cfg be handle 0 0 s = Some (- EINVAL, s, t) /\
      count_events is_slot_access t = 0%nat /\
      count_events is_backend_call t = 0%nat) /\
   (exists t,
      _rtapi_ring_refcount cfg handle s = Some (- EINVAL, s, t) /\
      count_events is_slot_access t = 0%nat /\
      count_events is_backend_call t = 0%nat) /\
   (exists t,
      _rtapi_ring_detach cfg be handle 0 s = Some (- EINVAL, s, t) /\
      count_events is_slot_access t = 0%nat /\
      count_events is_backend_call t = 0%nat)).
Proof.
  intros cfg be s handle.
  assert (H1 : quiescent s) by (split; reflexivity).
  assert (H2 : wf_state cfg s) by reflexivity.
  assert (H3 : handle < 0 \/ Z.of_nat (RTAPI_MAX_RINGS cfg) <= handle)
    by (right; cbn; lia).
  repeat (split; [assumption|]).
  exact (out_of_range_handle_touches_nothing cfg be handle 0 0 s H1 H2 H3).
Defined.

Lemma failed_attach_frame_witness :
  let cfg := small_cfg USER_DSO_RTAPI in
  let be := stub_backend in
  let s := one_ring_unmapped stub_ok in
  let handle := 0 in
  ring_mutex s = false /\ wf_state cfg s /\
  exists r s' t,
    _rtapi_ring_attach cfg be handle 0 0 s = Some (r, s', t) /\
    (r <> 0 ->
     (forall j, magic (slot (ring_array s') j) = magic (slot (ring_array s) j) /\
                owner (slot (ring_array s') j) = owner (slot (ring_array s) j) /\
                bitmap (slot (ring_array s') j) = bitmap (slot (ring_array s) j) /\
                count (slot (ring_array s') j) = count (slot (ring_array s) j)) /\
     (forall j, j <> Z.to_nat handle ->
                slot (ring_array s') j = slot (ring_array s) j) /\
     ring_addr_array s' = ring_addr_array s /\
     (r = - EINVAL -> s' = s) /\
     (BUILD_SYS_KBUILD (build cfg) = true -> ring_array s' = ring_array s)).
Proof.
  intros cfg be s handle.
  assert (H1 : ring_mutex s = false) by reflexivity.
  assert (H2 : wf_state cfg s) by reflexivity.
  repeat (split; [assumption|]).
  exact (failed_attach_frame cfg be handle 0 0 s H1 H2).
Defined.

Lemma attach_lookup_commits_slot_witness :
  let cfg := small_cfg USER_DSO_ULAPI in
  let be := stub_backend in
  let s := count_at_max_state stub_ok in
  let handle := 0 in
  let m := 0 in
  let h := Z.to_nat handle in
  let rd := slot (ring_array s) h in
  let k := RTAPI_RING_SHM_KEY cfg + handle in
  let nb := _rtapi_shmem_new be k m 0 (shm s) in
  let gp := _rtapi_shmem_getptr be (fst nb) (snd nb) in
  quiescent s /\ wf_state cfg s /\
  0 <= handle < Z.of_nat (RTAPI_MAX_RINGS cfg) /\
  BUILD_SYS_KBUILD (build cfg) = false /\
  ~ committed cfg rd /\
  shmget_absent be (OS_KEY cfg k) (shm s) = false /\
  0 <= fst nb /\
  fst (fst gp) = 0 /\
  exists s' t,
    _rtapi_ring_attach cfg be handle m 0 s = Some (0, s', t) /\
    slot (ring_array s') h =
      mk_ring_data (RING_MAGIC cfg) k (owner rd) (fst nb)
                   (set_bit m (bitmap rd)) (int_wrap (count rd + 1)) /\
    (INT_MIN <= count rd < INT_MAX -> count (slot (ring_array s') h) = count rd + 1) /\
    (count rd = INT_MAX -> count (slot (ring_array s') h) = INT_MIN) /\
    (forall j, j <> h -> slot (ring_array s') j = slot (ring_array s) j) /\
    ring_addr_array s' = <[h := snd (fst gp)]> (ring_addr_array s) /\
    shm s' = snd gp /\
    exists t', _rtapi_ring_refcount cfg handle s' =
               Some (count_bits (RTAPI_MAX_RINGS cfg) 0 (set_bit m (bitmap rd)), s', t').
Proof.
  intros cfg be s handle m h rd k nb gp.
  assert (H1 : quiescent s) by (split; reflexivity).
  assert (H2 : wf_state cfg s) by reflexivity.
  assert (H3 : 0 <= handle < Z.of_nat (RTAPI_MAX_RINGS cfg)) by (cbn; lia).
  assert (H4 : BUILD_SYS_KBUILD (build cfg) = false) by reflexivity.
  assert (H5 : ~ committed cfg rd) by discriminate.
  assert (H6 : shmget_absent be (OS_KEY cfg k) (shm s) = false) by reflexivity.
  assert (H7 : 0 <= fst nb) by (cbn; lia).
  assert (H8 : fst (fst gp) = 0) by reflexivity.
  repeat (split; [assumption|]).
  exact (attach_lookup_commits_slot cfg be handle m 0 s H1 H2 H3 H4 H5 H6 H7 H8).
Defined.

Lemma ulapi_create_then_attach_witness :
  let cfg := small_cfg USER_DSO_ULAPI in
  let be := stub_backend in
  let s := fresh_state stub_ok in
  let m := 1 in
  let m' := 0 in
  let out := _rtapi_ring_new cfg be 4096 0 m 0 s in
  let s1 := state_after out s in
  let r := 0 in
  let i := first_free cfg (RTAPI_MAX_RINGS cfg) 0 (ring_array s) in
  let nb := _rtapi_shmem_new be (RTAPI_RING_SHM_KEY cfg + Z.of_nat i) m
              (rtapi_ring_memsize cfg 0 4096 0) (shm s) in
  let gp := _rtapi_shmem_getptr be (fst nb) (snd nb) in
  build cfg = USER_DSO_ULAPI /\
  ring_mutex s = false /\ wf_state cfg s /\
  length (ring_addr_array s) = S (RTAPI_MAX_RINGS cfg) /\
  out = Some (r, s1, trace_of out) /\
  0 <= r /\
  snd (fst gp) <> 0 /\
  (ring_addr_array s1 !! Z.to_nat r = Some (snd (fst gp)) /\
   exists s2 t2,
     _rtapi_ring_attach cfg be r m' 0 s1 = Some (0, s2, t2) /\
     count_events is_backend_call t2 = 0%nat /\
     shm s2 = shm s1 /\
     bitmap (slot (ring_array s2) (Z.to_nat r)) =
       set_bit m' (set_bit m (bitmap (slot (ring_array s) (Z.to_nat r))))).
Proof.
  intros cfg be s m m' out s1 r i nb gp.
  assert (H1 : build cfg = USER_DSO_ULAPI) by reflexivity.
  assert (H2 : ring_mutex s = false) by reflexivity.
  assert (H3 : wf_state cfg s) by reflexivity.
  assert (H4 : length (ring_addr_array s) = S (RTAPI_MAX_RINGS cfg)) by reflexivity.
  assert (H5 : out = Some (r, s1, trace_of out)) by reflexivity.
  assert (H6 : 0 <= r) by (subst r; lia).
  assert (H7 : snd (fst gp) <> 0) by discriminate.
  repeat (split; [assumption|]).
  exact (ulapi_create_then_attach cfg be 4096 0 m 0 m' 0 s H1 H2 H3 H4
           r s1 (trace_of out) H5 H6 H7).
Defined.

Lemma user_dso_rtapi_create_then_attach_fails_witness :
  let cfg := small_cfg USER_DSO_RTAPI in
  let be := stub_backend in
  let s := fresh_state stub_ok in
  let out := _rtapi_ring_new cfg be 4096 0 1 0 s in
  let s1 := state_after out s in
  let r := 0 in
  build cfg = USER_DSO_RTAPI /\
  ring_mutex s = false /\ wf_state cfg s /\
  out = Some (r, s1, trace_of out) /\
  0 <= r /\
  default 0 (ring_addr_array s !! Z.to_nat r) = 0 /\
  (ring_addr_array s1 = ring_addr_array s /\
   exists t2,
     _rtapi_ring_attach cfg be r 0 0 s1 = Some (- ENOMEM, s1, t2) /\
     In (EvMsg "_rtapi_ring_attach: BUG rhptr == NULL") t2).
Proof.
  intros cfg be s out s1 r.
  assert (H1 : build cfg = USER_DSO_RTAPI) by reflexivity.
  assert (H2 : ring_mutex s = false) by reflexivity.
  assert (H3 : wf_state cfg s) by reflexivity.
  assert (H4 : out = Some (r, s1, trace_of out)) by reflexivity.
  assert (H5 : 0 <= r) by (subst r; lia).
  assert (H6 : default 0 (ring_addr_array s !! Z.to_nat r) = 0) by reflexivity.
  repeat (split; [assumption|]).
  exact (user_dso_rtapi_create_then_attach_fails cfg be 4096 0 1 0 0 0 s H1 H2 H3
           r s1 (trace_of out) H4 H5 H6).
Defined.

Lemma attach_counts_new_module_once_witness :
  let cfg := small_cfg USER_DSO_ULAPI in
  let be := stub_backend in
  let s := one_ring_state stub_ok in
  let handle := 0 in
  let m := 0 in
  let out := _rtapi_ring_attach cfg be handle m 0 s in
  let s1 := state_after out s in
  quiescent s /\ wf_state cfg s /\
  0 <= handle < Z.of_nat (RTAPI_MAX_RINGS cfg) /\
  0 <= m < Z.of_nat (RTAPI_MAX_RINGS cfg) /\
  committed cfg (slot (ring_array s) (Z.to_nat handle)) /\
  out = Some (0, s1, trace_of out) /\
  exists c ta tb,
    _rtapi_ring_refcount cfg handle s = Some (c, s, ta) /\
    _rtapi_ring_refcount cfg handle s1 =
      Some (c + (if test_bit m (bitmap (slot (ring_array s) (Z.to_nat handle)))
                 then 0 else 1), s1, tb).
Proof.
  intros cfg be s handle m out s1.
  assert (H1 : quiescent s) by (split; reflexivity).
  assert (H2 : wf_state cfg s) by reflexivity.
  assert (H3 : 0 <= handle < Z.of_nat (RTAPI_MAX_RINGS cfg)) by (cbn; lia).
  assert (H4 : 0 <= m < Z.of_nat (RTAPI_MAX_RINGS cfg)) by (cbn; lia).
  assert (H5 : committed cfg (slot (ring_array s) (Z.to_nat handle))) by reflexivity.
  assert (H6 : out = Some (0, s1, trace_of out)) by reflexivity.
  repeat (split; [assumption|]).
  exact (attach_counts_new_module_once cfg be handle m 0 s s1 (trace_of out)
           H1 H2 H3 H4 H5 H6).
Defined.

Lemma detach_takes_one_from_refcount_witness :
  let cfg := small_cfg USER_DSO_ULAPI in
  let be := stub_backend in
  let s := two_attacher_state stub_ok in
  let handle := 0 in
  let m := 0 in
  RING_MAGIC cfg <> 0 /\
  quiescent s /\ wf_state cfg s /\
  0 <= handle < Z.of_nat (RTAPI_MAX_RINGS cfg) /\
  0 <= m < Z.of_nat (RTAPI_MAX_RINGS cfg) /\
  committed cfg (slot (ring_array s) (Z.to_nat handle)) /\
  attached m (slot (ring_array s) (Z.to_nat handle)) /\
  exists c ta s1 t1 tb,
    _rtapi_ring_refcount cfg handle s = Some (c, s, ta) /\
    1 <= c /\
    _rtapi_ring_detach cfg be handle m s = Some (0, s1, t1) /\
    _rtapi_ring_refcount cfg handle s1 =
      Some (if c =? 1 then - EINVAL else c - 1, s1, tb) /\
    (committed cfg (slot (ring_array s1) (Z.to_nat handle)) <-> c <> 1).
Proof.
  intros cfg be s handle m.
  assert (H0 : RING_MAGIC cfg <> 0) by apply small_magic_nonzero.
  assert (H1 : quiescent s) by (split; reflexivity).
  assert (H2 : wf_state cfg s) by reflexivity.
  assert (H3 : 0 <= handle < Z.of_nat (RTAPI_MAX_RINGS cfg)) by (cbn; lia).
  assert (H4 : 0 <= m < Z.of_nat (RTAPI_MAX_RINGS cfg)) by (cbn; lia).
  assert (H5 : committed cfg (slot (ring_array s) (Z.to_nat handle))) by reflexivity.
  assert (H6 : attached m (slot (ring_array s) (Z.to_nat handle))) by reflexivity.
  repeat (split; [assumption|]).
  exact (detach_takes_one_from_refcount cfg be handle m s H0 H1 H2 H3 H4 H5 H6).
Defined.

Lemma detach_frame_witness :
  let cfg := small_cfg USER_DSO_ULAPI in
  let be := stub_backend in
  let s := one_ring_state stub_ok in
  let handle := 0 in
  let m := 1 in
  RING_MAGIC cfg <> 0 /\
  mutex s = false /\ wf_state cfg s /\
  let h := Z.to_nat handle in
  exists r s' t,
    _rtapi_ring_detach cfg be handle m s = Some (r, s', t) /\
    (forall j, j <> h -> slot (ring_array s') j = slot (ring_array s) j) /\
    key (slot (ring_array s') h) = key (slot (ring_array s) h) /\
    owner (slot (ring_array s') h) = owner (slot (ring_array s) h) /\
    shmem_id (slot (ring_array s') h) = shmem_id (slot (ring_array s) h) /\
    count (slot (ring_array s') h) = count (slot (ring_array s) h) /\
    ring_addr_array s' = ring_addr_array s /\
    count_events is_shmem_new t = 0%nat /\
    (~ committed cfg (slot (ring_array s) h) ->
     r = - EINVAL /\ ring_array s' = ring_array s /\ shm s' = shm s) /\
    (committed cfg (slot (ring_array s') h) -> shm s' = shm s).
Proof.
  intros cfg be s handle m.
  assert (H0 : RING_MAGIC cfg <> 0) by apply small_magic_nonzero.
  assert (H1 : mutex s = false) by reflexivity.
  assert (H2 : wf_state cfg s) by reflexivity.
  repeat (split; [assumption|]).
  exact (detach_frame cfg be handle m s H0 H1 H2).
Defined.

Lemma refcount_reads_only_and_is_bounded_witness :
  let cfg := small_cfg USER_DSO_ULAPI in
  let s := two_attacher_state stub_ok in
  let handle := 0 in
  mutex s = false /\
  exists r t,
    _rtapi_ring_refcount cfg handle s = Some (r, s, t) /\
    count_events is_backend_call t = 0%nat /\
    count_events (fun e => match e with EvSlotWrite _ _ => true | _ => false end) t
      = 0%nat /\
    (r = - EINVAL \/ 0 <= r <= Z.of_nat (RTAPI_MAX_RINGS cfg)) /\
    (0 <= r <->
     0 <= handle < Z.of_nat (RTAPI_MAX_RINGS cfg) /\
     committed cfg (slot (ring_array s) (Z.to_nat handle))).
Proof.
  intros cfg s handle.
  assert (H1 : mutex s = false) by reflexivity.
  split; [exact H1|].
  exact (refcount_reads_only_and_is_bounded cfg handle s H1).
Defined.

Lemma create_then_refcount_is_one_witness :
  let cfg := small_cfg USER_DSO_ULAPI in
  let be := stub_backend in
  let s := fresh_state stub_ok in
  let m := 1 in
  let out := _rtapi_ring_new cfg be 4096 0 m 0 s in
  let s1 := state_after out s in
  let r := 0 in
  quiescent s /\ wf_state cfg s /\
  0 <= m < Z.of_nat (RTAPI_MAX_RINGS cfg) /\
  free_slots_uncounted cfg (ring_array s) /\
  out = Some (r, s1, trace_of out) /\
  0 <= r /\
  exists t, _rtapi_ring_refcount cfg r s1 = Some (1, s1, t).
Proof.
  intros cfg be s m out s1 r.
  assert (H1 : quiescent s) by (split; reflexivity).
  assert (H2 : wf_state cfg s) by reflexivity.
  assert (H3 : 0 <= m < Z.of_nat (RTAPI_MAX_RINGS cfg)) by (cbn; lia).
  assert (H4 : free_slots_uncounted cfg (ring_array s))
    by apply fresh_free_slots_uncounted.
  assert (H5 : out = Some (r, s1, trace_of out)) by reflexivity.
  assert (H6 : 0 <= r) by (subst r; lia).
  repeat (split; [assumption|]).
  exact (create_then_refcount_is_one cfg be 4096 0 m 0 s r s1 (trace_of out)
           H1 H2 H3 H4 H5 H6).
Defined.

Lemma free_slots_uncounted_kept_witness :
  let cfg := small_cfg USER_DSO_ULAPI in
  let be := stub_backend in
  let s := one_ring_state stub_ok in
  let c := CallDetach 0 1 in
  let out := do_call cfg be c s in
  let s' := state_after out s in
  quiescent s /\ wf_state cfg s /\
  free_slots_uncounted cfg (ring_array s) /\
  out = Some (0, s', trace_of out) /\
  (quiescent s' /\ wf_state cfg s' /\ free_slots_uncounted cfg (ring_array s')).
Proof.
  intros cfg be s c out s'.
  assert (H1 : quiescent s) by (split; reflexivity).
  assert (H2 : wf_state cfg s) by reflexivity.
  assert (H3 : free_slots_uncounted cfg (ring_array s))
    by apply one_ring_free_slots_uncounted.
  assert (H4 : out = Some (0, s', trace_of out)) by reflexivity.
  do 4 (split; [assumption|]).
  exact (free_slots_uncounted_kept cfg be c s 0 s' (trace_of out) H1 H2 H3 H4).
Defined.

Lemma committed_keys_derived_and_distinct_witness :
  let cfg := small_cfg USER_DSO_ULAPI in
  let be := stub_backend in
  let s0 := fresh_state stub_ok in
  let out1 := _rtapi_ring_new cfg be 4096 0 3 0 s0 in
  let s1 := state_after out1 s0 in
  let out2 := _rtapi_ring_attach cfg be 1 7 0 s1 in
  let s := state_after out2 s1 in
  reached cfg be s /\
  (keys_derived cfg (ring_array s) /\
   forall j1 j2,
     (j1 < RTAPI_MAX_RINGS cfg)%nat -> (j2 < RTAPI_MAX_RINGS cfg)%nat ->
     committed cfg (slot (ring_array s) j1) ->
     committed cfg (slot (ring_array s) j2) ->
     key (slot (ring_array s) j1) = key (slot (ring_array s) j2) ->
     j1 = j2).
Proof.
  intros cfg be s0 out1 s1 out2 s.
  assert (H1 : reached cfg be s).
  { apply (reached_call cfg be s1 (CallAttach 1 7 0) 0 s (trace_of out2)).
    - apply (reached_call cfg be s0 (CallNew 4096 0 3 0) 0 s1 (trace_of out1)).
      + apply reached_init; [split; reflexivity|reflexivity|apply fresh_table_empty].
      + vm_compute. reflexivity.
    - vm_compute. reflexivity. }
  split; [exact H1|].
  exact (committed_keys_derived_and_distinct cfg be s H1).
Defined.

Lemma create_backend_calls_witness :
  let cfg := small_cfg USER_DSO_ULAPI in
  let be := stub_backend in
  let s := fresh_state (mk_stub false true false false 0) in
  let size := 4096 in
  let sp := 0 in
  let m := 1 in
  let flags := 0 in
  ring_mutex s = false /\ wf_state cfg s /\
  let i := first_free cfg (RTAPI_MAX_RINGS cfg) 0 (ring_array s) in
  let k := RTAPI_RING_SHM_KEY cfg + Z.of_nat i in
  let total := rtapi_ring_memsize cfg flags size sp in
  let nb := _rtapi_shmem_new be k m total (shm s) in
  let gp := _rtapi_shmem_getptr be (fst nb) (snd nb) in
  exists r s' t,
    _rtapi_ring_new cfg be size sp m flags s = Some (r, s', t) /\
    count_events is_shmem_delete t = 0%nat /\
    (i = RTAPI_MAX_RINGS cfg -> count_events is_backend_call t = 0%nat) /\
    ((i < RTAPI_MAX_RINGS cfg)%nat ->
     count_events is_shmem_new t = 1%nat /\
     In (EvShmemNew k m total (fst nb)) t /\
     (count_events is_shmem_getptr t <= 1)%nat) /\
    ((i < RTAPI_MAX_RINGS cfg)%nat -> 0 <= fst nb -> fst (fst gp) <> 0 ->
     r = - ENOMEM /\ In (EvShmemGetptr (fst nb) (fst (fst gp))) t) /\
    (0 <= r <-> (i < RTAPI_MAX_RINGS cfg)%nat /\ 0 <= fst nb /\ fst (fst gp) = 0) /\
    (0 <= r <-> count_events is_header_init t = 1%nat) /\
    (r < 0 <-> count_events is_header_init t = 0%nat) /\
    (0 <= r -> In (EvHeaderInit (snd (fst gp)) flags size sp) t).
Proof.
  intros cfg be s size sp m flags.
  assert (H1 : ring_mutex s = false) by reflexivity.
  assert (H2 : wf_state cfg s) by reflexivity.
  split; [exact H1|]. split; [exact H2|].
  exact (create_backend_calls cfg be size sp m flags s H1 H2).
Defined.

Lemma kbuild_attach_needs_committed_slot_witness :
  let cfg := small_cfg KBUILD_RTAPI in
  let be := stub_backend in
  let s := fresh_state stub_ok in
  let handle := 0 in
  BUILD_SYS_KBUILD (build cfg) = true /\
  ring_mutex s = false /\ wf_state cfg s /\
  exists r s' t,
    _rtapi_ring_attach cfg be handle 1 0 s = Some (r, s', t) /\
    count_events is_shmem_new t = 0%nat /\
    count_events (fun e => match e with EvShmget _ => true | _ => false end) t = 0%nat /\
    ring_addr_array s' = ring_addr_array s /\
    (forall j, set_field Fbitmap 0 (slot (ring_array s') j) =
               set_field Fbitmap 0 (slot (ring_array s) j)) /\
    (0 <= handle < Z.of_nat (RTAPI_MAX_RINGS cfg) ->
     ~ committed cfg (slot (ring_array s) (Z.to_nat handle)) ->
     r = - ENOMEM /\ s' = s).
Proof.
  intros cfg be s handle.
  assert (H0 : BUILD_SYS_KBUILD (build cfg) = true) by reflexivity.
  assert (H1 : ring_mutex s = false) by reflexivity.
  assert (H2 : wf_state cfg s) by reflexivity.
  repeat (split; [assumption|]).
  exact (kbuild_attach_needs_committed_slot cfg be handle 1 0 s H0 H1 H2).
Defined.

Lemma create_detach_round_trip_witness :
  let cfg := small_cfg USER_DSO_ULAPI in
  let be := stub_backend in
  let s := fresh_state stub_ok in
  let size := 4096 in
  let sp := 0 in
  let m := 1 in
  let flags := 0 in
  let out := _rtapi_ring_new cfg be size sp m flags s in
  let s1 := state_after out s in
  let r := 0 in
  RING_MAGIC cfg <> 0 /\
  quiescent s /\ wf_state cfg s /\
  0 <= m < Z.of_nat (RTAPI_MAX_RINGS cfg) /\
  free_slots_uncounted cfg (ring_array s) /\
  out = Some (r, s1, trace_of out) /\
  0 <= r /\
  let i := first_free cfg (RTAPI_MAX_RINGS cfg) 0 (ring_array s) in
  let nb := _rtapi_shmem_new be (RTAPI_RING_SHM_KEY cfg + Z.of_nat i) m
              (rtapi_ring_memsize cfg flags size sp) (shm s) in
  exists s2 t2,
    _rtapi_ring_detach cfg be r m s1 = Some (0, s2, t2) /\
    In (EvShmemDelete (fst nb) m
          (fst (_rtapi_shmem_delete be (fst nb) m (shm s1)))) t2 /\
    (forall j, committed cfg (slot (ring_array s2) j) <->
               committed cfg (slot (ring_array s) j)) /\
    free_slots_uncounted cfg (ring_array s2) /\
    exists t3, _rtapi_ring_refcount cfg r s2 = Some (- EINVAL, s2, t3).
Proof.
  intros cfg be s size sp m flags out s1 r.
  assert (H0 : RING_MAGIC cfg <> 0) by apply small_magic_nonzero.
  assert (H1 : quiescent s) by (split; reflexivity).
  assert (H2 : wf_state cfg s) by reflexivity.
  assert (H3 : 0 <= m < Z.of_nat (RTAPI_MAX_RINGS cfg)) by (cbn; lia).
  assert (H4 : free_slots_uncounted cfg (ring_array s))
    by apply fresh_free_slots_uncounted.
  assert (H5 : out = Some (r, s1, trace_of out)) by reflexivity.
  assert (H6 : 0 <= r) by (subst r; lia).
  repeat (split; [assumption|]).
  exact (create_detach_round_trip cfg be size sp m flags s r s1 (trace_of out)
           H0 H1 H2 H3 H4 H5 H6).
Defined.
